(** * The ign-transport benchmark example ([example/bench.cc])

    A shallow embedding of the request/reply benchmark: the relay
    ([ReplyTester]), the measuring driver ([PubTester]), the signal handler
    and [main].  The transport library, the protobuf messages and the clock are
    outside the two example files; they appear here as an explicit
    environment (a queue of external events, a clock, and the transport's
    answers to advertise and subscribe requests). *)

From Stdlib Require Import ZArith List String Ascii Bool Lia QArith.
From Stdlib Require Import DecimalString DecimalN.
Import ListNotations.

Local Open Scope string_scope.
Local Open Scope Z_scope.

(** ** Machine integers *)

(** [uint64_t] arithmetic wraps modulo 2^64. *)
Definition wrap64 (z : Z) : Z := z mod 2 ^ 64.

(** [std::numeric_limits<uint64_t>::max()] *)
Definition UINT64_MAX : Z := 2 ^ 64 - 1.

(** ** Double-precision expressions

    The report rows hold [double] values.  Rounding is not modelled: a row
    stores the expression the code evaluates, over its integer operands, and
    [dexact] gives the value of that expression over the rationals. *)

Inductive dexpr : Type :=
| DU64 (n : Z)                (* a uint64_t operand converted to double *)
| DLit (q : Q)                (* a floating literal *)
| DMul (a b : dexpr)
| DDiv (a b : dexpr).

Fixpoint dexact (e : dexpr) : Q :=
  match e with
  | DU64 n => inject_Z n
  | DLit q => q
  | DMul a b => (dexact a * dexact b)%Q
  | DDiv a b => (dexact a / dexact b)%Q
  end.

Definition lit_1e_6 : Q := 1 # 1000000.
Definition lit_1e_3 : Q := 1 # 1000.
Definition lit_0_5 : Q := 1 # 2.

(** ** Messages *)

(** [ignition::msgs::Bytes], reduced to its single [data] field. *)
Record Bytes : Type := mkBytes { data : list ascii }.

(** [Bytes::set_data] *)
Definition set_data (value : list ascii) (m : Bytes) : Bytes := mkBytes value.

(** [new char[_size]; std::memset(byteData, '0', _size)] *)
Definition fill_buffer (_size : Z) : list ascii :=
  repeat "0"%char (Z.to_nat _size).

(** ** Topic names *)

(** [std::to_string] on an unsigned size: its decimal digits. *)
Definition to_string (n : Z) : string :=
  NilZero.string_of_uint (N.to_uint (Z.to_N n)).

Module Topic.

(** Names built in [ReplyTester::Start], one set per message size. *)
Definition throughputTopicReply (size : Z) : string :=
  "/benchmark/throughput/" ++ to_string size ++ "reply".
Definition latencyTopicReply (size : Z) : string :=
  "/benchmark/latency/" ++ to_string size ++ "reply".
Definition throughputTopicRequest (size : Z) : string :=
  "/benchmark/throughput/" ++ to_string size ++ "request".
Definition latencyTopicRequest (size : Z) : string :=
  "/benchmark/latency/" ++ to_string size ++ "request".

(** Names written out in [PubTester::Init]. *)
Definition pubThroughputRequest : string := "/benchmark/throughput/request".
Definition pubLatencyRequest : string := "/benchmark/latency/request".
Definition pubThroughputReply : string := "/benchmark/throughput/reply".
Definition pubLatencyReply : string := "/benchmark/latency/reply".

End Topic.

(** ** Size sweeps *)

(** [Tester::msgSizes] (a [std::vector<unsigned int>]). *)
Definition Tester_msgSizes : list Z :=
  [256; 512; 1000; 2000; 4000; 8000; 16000; 32000; 64000;
   128000; 256000; 512000; 1000000; 2000000; 4000000].

(** [PubTester::msgSizes] (a [std::vector<int>]). *)
Definition PubTester_msgSizes : list Z :=
  [256; 512; 1000; 2000; 4000; 8000; 16000; 32000; 64000;
   128000; 256000; 512000; 1000000; 2000000; 4000000].

(** ** External libraries

    [ignition::msgs::Bytes] and its protobuf serialization are not part of the
    example.  [set_data] on a [const char] pointer copies the C string up to
    the first NUL; both [PrepMsg] functions and [ReplyTester::LatencyCb] pass
    a freshly allocated buffer that has no terminator, so the copy also takes
    whatever bytes follow the buffer.  [c_string_tail n] stands for those
    bytes after a buffer of [n] chars. *)
Class Protobuf : Type := {
  SerializeToString : Bytes -> list ascii;
  c_string_tail : Z -> list ascii
}.

(** ** Program state *)

Inductive NodeId : Type := PubNode | RelayNode.

(** The functions handed to [Node::Subscribe]. *)
Inductive Callback : Type :=
| Pub_ThroughputCb                 (* &PubTester::ThroughputCb *)
| Pub_LatencyCb                    (* &PubTester::LatencyCb *)
| Relay_throughputCb (size : Z)    (* lambda [throughputCb] of Start *)
| Relay_latencyCb (size : Z).      (* lambda [latencyCb] of Start *)

(** Calls into the transport and writes to the standard streams, in program
    order.  [Measured] is a ghost record of the local [duration] of one
    latency iteration. *)
Inductive Action : Type :=
| Advertise (n : NodeId) (topic : string)
| Subscribe (n : NodeId) (topic : string) (cb : Callback)
| Publish (n : NodeId) (pub : option string) (m : option Bytes) (with_cb : bool)
| TopicList (n : NodeId)
| Cout (line : string)
| Cerr (line : string)
| Measured (duration : Z).

(** Lines written to the report stream ([std::cout] or the output file). *)
Inductive Line : Type :=
| HeaderLines
| ColumnHeader (s : string)
| ThroughputRow (testNum size : Z) (mbps kmsgps : dexpr)
| LatencyRow (testNum size : Z) (avg mn mx : dexpr).

(** The column headers that [Throughput] and [Latency] write, with the
    characters that the escapes of the C++ literals stand for. *)
Definition TAB : string := String "009" EmptyString.
Definition LF : string := String "010" EmptyString.

(** ["# Test\tSize(B)\t\tMB/s\t\tKmsg/s\n"] *)
Definition throughput_columns : string :=
  "# Test" ++ TAB ++ "Size(B)" ++ TAB ++ TAB ++ "MB/s" ++ TAB ++ TAB
    ++ "Kmsg/s" ++ LF.

(** ["# Test\tSize(B)\tAvg_(us)\tMin_(us)\tMax_(us)\n"] *)
Definition latency_columns : string :=
  "# Test" ++ TAB ++ "Size(B)" ++ TAB ++ "Avg_(us)" ++ TAB ++ "Min_(us)"
    ++ TAB ++ "Max_(us)" ++ LF.

(** What the outside world does to the process.  [Signal] is a call of
    [signalHandler], which [main] installs for SIGINT and SIGTERM only: for
    any other number the handler, and so the event, does nothing.  A real
    process that receives a signal it has no handler for takes the default
    action of the platform, which for most signals ends it; such runs are
    not runs of this model. *)
Inductive Event : Type :=
| Connect (topic : string)                 (* a subscriber connects to a publisher *)
| Deliver (topic : string) (m : Bytes) (t : Z)
    (* a message arrives on [topic]; [t] is what the clock reads in the callback *)
| PublishDone (result : bool)
    (* the transport hands back the oldest buffer published with a callback *)
| Signal (signum : Z).

Definition SIGINT : Z := 2.
Definition SIGTERM : Z := 15.

Record PubTester : Type := mkPubTester {
  msg : option Bytes;               (* std::unique_ptr<Bytes>, None = nullptr *)
  dataSize : Z;
  totalBytes : Z;
  msgCount : Z;
  sentMsgs : Z;
  throughputPub : option string;    (* None = invalid publisher *)
  latencyPub : option string;
  stop : bool;
  timeEnd : Z;                      (* clock ticks (nanoseconds) *)
  filename : string
}.

Record ReplyTester : Type := mkReplyTester {
  msgs : list (Z * Bytes);          (* std::map keyed by payload size *)
  dataSizes : list (Z * Z);
  r_throughputPub : option string;
  r_latencyPub : option string;
  sizeReceived : Z
}.

Record World : Type := mkWorld {
  gStop : bool;
  gPubTester : PubTester;
  replyTester : option ReplyTester;
  (* transport *)
  subscriptions : list (string * Callback);
  connected : list string;
  inflight : list (option Bytes);
  (* environment *)
  advertise_ok : string -> bool;
  subscribe_ok : string -> bool;
  clock : nat -> Z;
  reads : nat;
  pending : list Event;
  (* observations *)
  out : list Line;
  trace : list Action
}.

(** Field updates. *)
Definition set_msg v (p : PubTester) :=
  mkPubTester v (dataSize p) (totalBytes p) (msgCount p) (sentMsgs p)
    (throughputPub p) (latencyPub p) (stop p) (timeEnd p) (filename p).
Definition set_dataSize v (p : PubTester) :=
  mkPubTester (msg p) v (totalBytes p) (msgCount p) (sentMsgs p)
    (throughputPub p) (latencyPub p) (stop p) (timeEnd p) (filename p).
Definition set_totalBytes v (p : PubTester) :=
  mkPubTester (msg p) (dataSize p) v (msgCount p) (sentMsgs p)
    (throughputPub p) (latencyPub p) (stop p) (timeEnd p) (filename p).
Definition set_msgCount v (p : PubTester) :=
  mkPubTester (msg p) (dataSize p) (totalBytes p) v (sentMsgs p)
    (throughputPub p) (latencyPub p) (stop p) (timeEnd p) (filename p).
Definition set_sentMsgs v (p : PubTester) :=
  mkPubTester (msg p) (dataSize p) (totalBytes p) (msgCount p) v
    (throughputPub p) (latencyPub p) (stop p) (timeEnd p) (filename p).
Definition set_throughputPub v (p : PubTester) :=
  mkPubTester (msg p) (dataSize p) (totalBytes p) (msgCount p) (sentMsgs p)
    v (latencyPub p) (stop p) (timeEnd p) (filename p).
Definition set_latencyPub v (p : PubTester) :=
  mkPubTester (msg p) (dataSize p) (totalBytes p) (msgCount p) (sentMsgs p)
    (throughputPub p) v (stop p) (timeEnd p) (filename p).
Definition set_stop v (p : PubTester) :=
  mkPubTester (msg p) (dataSize p) (totalBytes p) (msgCount p) (sentMsgs p)
    (throughputPub p) (latencyPub p) v (timeEnd p) (filename p).
Definition set_timeEnd v (p : PubTester) :=
  mkPubTester (msg p) (dataSize p) (totalBytes p) (msgCount p) (sentMsgs p)
    (throughputPub p) (latencyPub p) (stop p) v (filename p).
Definition set_filename v (p : PubTester) :=
  mkPubTester (msg p) (dataSize p) (totalBytes p) (msgCount p) (sentMsgs p)
    (throughputPub p) (latencyPub p) (stop p) (timeEnd p) v.

Definition set_r_throughputPub v (r : ReplyTester) :=
  mkReplyTester (msgs r) (dataSizes r) v (r_latencyPub r) (sizeReceived r).
Definition set_r_latencyPub v (r : ReplyTester) :=
  mkReplyTester (msgs r) (dataSizes r) (r_throughputPub r) v (sizeReceived r).
Definition set_sizeReceived v (r : ReplyTester) :=
  mkReplyTester (msgs r) (dataSizes r) (r_throughputPub r) (r_latencyPub r) v.

Definition set_gStop v (w : World) :=
  mkWorld v (gPubTester w) (replyTester w) (subscriptions w) (connected w)
    (inflight w) (advertise_ok w) (subscribe_ok w) (clock w) (reads w)
    (pending w) (out w) (trace w).
Definition upd_pub (f : PubTester -> PubTester) (w : World) :=
  mkWorld (gStop w) (f (gPubTester w)) (replyTester w) (subscriptions w)
    (connected w) (inflight w) (advertise_ok w) (subscribe_ok w) (clock w)
    (reads w) (pending w) (out w) (trace w).
Definition set_replyTester v (w : World) :=
  mkWorld (gStop w) (gPubTester w) v (subscriptions w) (connected w)
    (inflight w) (advertise_ok w) (subscribe_ok w) (clock w) (reads w)
    (pending w) (out w) (trace w).
Definition upd_relay (f : ReplyTester -> ReplyTester) (w : World) :=
  set_replyTester (option_map f (replyTester w)) w.
Definition set_subscriptions v (w : World) :=
  mkWorld (gStop w) (gPubTester w) (replyTester w) v (connected w)
    (inflight w) (advertise_ok w) (subscribe_ok w) (clock w) (reads w)
    (pending w) (out w) (trace w).
Definition set_connected v (w : World) :=
  mkWorld (gStop w) (gPubTester w) (replyTester w) (subscriptions w) v
    (inflight w) (advertise_ok w) (subscribe_ok w) (clock w) (reads w)
    (pending w) (out w) (trace w).
Definition set_inflight v (w : World) :=
  mkWorld (gStop w) (gPubTester w) (replyTester w) (subscriptions w)
    (connected w) v (advertise_ok w) (subscribe_ok w) (clock w) (reads w)
    (pending w) (out w) (trace w).
Definition set_reads v (w : World) :=
  mkWorld (gStop w) (gPubTester w) (replyTester w) (subscriptions w)
    (connected w) (inflight w) (advertise_ok w) (subscribe_ok w) (clock w) v
    (pending w) (out w) (trace w).
Definition set_pending v (w : World) :=
  mkWorld (gStop w) (gPubTester w) (replyTester w) (subscriptions w)
    (connected w) (inflight w) (advertise_ok w) (subscribe_ok w) (clock w)
    (reads w) v (out w) (trace w).
Definition emit (l : Line) (w : World) :=
  mkWorld (gStop w) (gPubTester w) (replyTester w) (subscriptions w)
    (connected w) (inflight w) (advertise_ok w) (subscribe_ok w) (clock w)
    (reads w) (pending w) (out w ++ [l]) (trace w).
Definition act (a : Action) (w : World) :=
  mkWorld (gStop w) (gPubTester w) (replyTester w) (subscriptions w)
    (connected w) (inflight w) (advertise_ok w) (subscribe_ok w) (clock w)
    (reads w) (pending w) (out w) (trace w ++ [a]).

(** ** Outcomes and sequencing

    A call either returns, or never returns because it waits for an event the
    environment does not supply ([Blocked]), or dereferences a null
    [unique_ptr] ([Crashed]), or ends the process ([Exited]). *)
Inductive Outcome (A : Type) : Type :=
| Ret (a : A) (w : World)
| Blocked (w : World)
| Crashed (w : World)
| Exited (code : Z) (w : World).
Arguments Ret {A} a w.
Arguments Blocked {A} w.
Arguments Crashed {A} w.
Arguments Exited {A} code w.

Definition M (A : Type) : Type := World -> Outcome A.

Definition ret {A} (a : A) : M A := fun w => Ret a w.

Definition bind {A B} (m : M A) (k : A -> M B) : M B :=
  fun w =>
    match m w with
    | Ret a w' => k a w'
    | Blocked w' => Blocked w'
    | Crashed w' => Crashed w'
    | Exited c w' => Exited c w'
    end.

Declare Scope prog_scope.
Delimit Scope prog_scope with prog.
Notation "x <- m ;; k" := (bind m (fun x => k))
  (at level 61, m at next level, right associativity) : prog_scope.
Notation "m ;; k" := (bind m (fun _ => k))
  (at level 61, right associativity) : prog_scope.
Local Open Scope prog_scope.

Definition get {A} (f : World -> A) : M A := fun w => Ret (f w) w.
Definition modify (f : World -> World) : M unit := fun w => Ret tt (f w).
Definition exit {A} (code : Z) : M A := fun w => Exited code w.

(** The world an outcome ends in. *)
Definition final {A} (o : Outcome A) : World :=
  match o with
  | Ret _ w | Blocked w | Crashed w | Exited _ w => w
  end.

Definition returned {A} (o : Outcome A) : bool :=
  match o with Ret _ _ => true | _ => false end.
Definition blocked {A} (o : Outcome A) : bool :=
  match o with Blocked _ => true | _ => false end.
Definition crashed {A} (o : Outcome A) : bool :=
  match o with Crashed _ => true | _ => false end.

(** ** The clock

    [std::chrono::high_resolution_clock::now()] on the control thread: the
    next reading of the environment's clock, in nanosecond ticks. *)
Definition now : M Z :=
  fun w => Ret (clock w (reads w)) (set_reads (S (reads w)) w).

(** [duration_cast<microseconds>(b - a).count()] stored in a [uint64_t]. *)
Definition micros (a b : Z) : Z := wrap64 (Z.quot (b - a) 1000).

(** ** Transport primitives *)

(** [Node::Advertise]: the publisher it returns is valid when the transport
    accepts the topic. *)
Definition Node_Advertise (n : NodeId) (topic : string) : M (option string) :=
  fun w =>
    Ret (if advertise_ok w topic then Some topic else None)
        (act (Advertise n topic) w).

(** [Node::Subscribe] *)
Definition Node_Subscribe (n : NodeId) (topic : string) (cb : Callback)
  : M bool :=
  fun w =>
    let w1 := act (Subscribe n topic cb) w in
    if subscribe_ok w topic
    then Ret true (set_subscriptions (subscriptions w1 ++ [(topic, cb)]) w1)
    else Ret false w1.

(** [Publisher::HasConnections] *)
Definition HasConnections (pub : option string) (w : World) : bool :=
  match pub with
  | Some topic => existsb (String.eqb topic) (connected w)
  | None => false
  end.

(** ** Callbacks of the measuring side *)

(** [PubTester::ThroughputCb] *)
Definition PubTester_ThroughputCb (t : Z) (p : PubTester) : PubTester :=
  let p1 := set_totalBytes (wrap64 (totalBytes p + dataSize p)) p in
  let p2 := set_msgCount (wrap64 (msgCount p1 + 1)) p1 in
  if sentMsgs p2 <=? msgCount p2 then set_timeEnd t p2 else p2.

(** [PubTester::LatencyCb] *)
Definition PubTester_LatencyCb (t : Z) (p : PubTester) : PubTester :=
  set_timeEnd t p.

(** [PubTester::OnMsgPublished]: the returned buffer is swapped into [msg]. *)
Definition PubTester_OnMsgPublished (_msg : option Bytes) (_result : bool)
    (p : PubTester) : PubTester :=
  set_msg _msg p.

(** [PubTester::Stop] *)
Definition PubTester_Stop (p : PubTester) : PubTester := set_stop true p.

(** [signalHandler] *)
Definition signalHandler (_signal : Z) (w : World) : World :=
  if (_signal =? SIGINT) || (_signal =? SIGTERM)
  then upd_pub PubTester_Stop (set_gStop true w)
  else w.

(** ** Callbacks of the relay side *)

(** The lambda [throughputCb] that [ReplyTester::Start] subscribes. *)
Definition Relay_throughput_lambda (size : Z) (_msg : Bytes) (w : World) : World :=
  upd_relay (set_sizeReceived size)
    (act (Cout ("Received throughput cb for size " ++ to_string size)) w).

(** The lambda [latencyCb] that [ReplyTester::Start] subscribes. *)
Definition Relay_latency_lambda (size : Z) (_msg : Bytes) (w : World) : World :=
  upd_relay (set_sizeReceived size)
    (act (Cout ("Received latency cb for size " ++ to_string size)) w).

Definition run_callback (cb : Callback) (m : Bytes) (t : Z) (w : World) : World :=
  match cb with
  | Pub_ThroughputCb => upd_pub (PubTester_ThroughputCb t) w
  | Pub_LatencyCb => upd_pub (PubTester_LatencyCb t) w
  | Relay_throughputCb size => Relay_throughput_lambda size m w
  | Relay_latencyCb size => Relay_latency_lambda size m w
  end.

(** ** Events and waiting *)

(** The effect of one external event. *)
Definition handle (e : Event) (w : World) : World :=
  match e with
  | Connect topic => set_connected (topic :: connected w) w
  | Deliver topic m t =>
      fold_left
        (fun w' s =>
           if String.eqb (fst s) topic then run_callback (snd s) m t w' else w')
        (subscriptions w) w
  | PublishDone result =>
      match inflight w with
      | [] => w
      | b :: rest =>
          upd_pub (PubTester_OnMsgPublished b result) (set_inflight rest w)
      end
  | Signal s => signalHandler s w
  end.

(** [condition_variable::wait(lk, pred)]: return at once when [pred] holds,
    otherwise let external events happen one at a time until it does.  When
    the environment has nothing more to offer the wait never returns.
    In [wait_on] the callbacks and the handler run at the waits, where the
    control thread has given up the mutex.  [Throughput] also runs
    statements without the mutex; for the events that the other threads
    handle between those, see [Throughput_class_at]. *)
Fixpoint wait_on (pred : World -> bool) (evs : list Event) (w : World)
  : Outcome unit :=
  if pred w then Ret tt (set_pending evs w)
  else match evs with
       | [] => Blocked (set_pending [] w)
       | e :: evs' => wait_on pred evs' (handle e w)
       end.

Definition wait (pred : World -> bool) : M unit :=
  fun w => wait_on pred (pending w) w.

(** The predicates of the suspension points of [PubTester]. *)

(** [while (!pub.HasConnections() && !this->stop) sleep_for(500ms)] leaves the
    loop when this holds. *)
Definition connection_pred (pub : PubTester -> option string) (w : World) : bool :=
  HasConnections (pub (gPubTester w)) w || stop (gPubTester w).

(** [gStop || this->msgCount >= this->sentMsgs] *)
Definition throughput_pred (w : World) : bool :=
  gStop w || (sentMsgs (gPubTester w) <=? msgCount (gPubTester w)).

(** [gStop || this->timeEnd > timeStart] *)
Definition latency_pred (timeStart : Z) (w : World) : bool :=
  gStop w || (timeStart <? timeEnd (gPubTester w)).

(** [this->msg != nullptr] *)
Definition recycled_pred (w : World) : bool :=
  match msg (gPubTester w) with Some _ => true | None => false end.

Section Program.

Context `{PB : Protobuf}.

(** ** Tester *)

(** [Tester::PrepMsg]; [_dataSize] is an [unsigned int]. *)
Definition Tester_PrepMsg (_size : Z) (_msg : Bytes) : Bytes * Z :=
  let m := set_data (fill_buffer _size ++ c_string_tail _size) _msg in
  (m, Z.of_nat (List.length (SerializeToString m)) mod 2 ^ 32).

(** [map[key] = value] on a [std::map] kept as an association list. *)
Fixpoint map_set {V} (key : Z) (v : V) (m : list (Z * V)) : list (Z * V) :=
  match m with
  | [] => [(key, v)]
  | (k, v') :: m' =>
      if k =? key then (k, v) :: m' else (k, v') :: map_set key v m'
  end.

(** [Tester::Tester]: one prepared message per size of the sweep. *)
Definition Tester_ctor : ReplyTester :=
  fold_left
    (fun r size =>
       let '(m, dataSize) := Tester_PrepMsg size (mkBytes []) in
       mkReplyTester (map_set size m (msgs r))
         (map_set size dataSize (dataSizes r))
         (r_throughputPub r) (r_latencyPub r) (sizeReceived r))
    Tester_msgSizes
    (mkReplyTester [] [] None None 0).

(** ** ReplyTester *)

Definition relay_field {A} (f : ReplyTester -> A) (d : A) (w : World) : A :=
  match replyTester w with Some r => f r | None => d end.

(** The loop [while (true)] at the end of the body of the [for] of [Start]:
    wait for [sizeReceived > 0], clear it, and go round again.  The body ends
    in an unfinished statement, which does nothing here.  Each round uses up
    at least one event, so the number of pending events bounds the rounds
    before the loop waits for good. *)
Fixpoint Start_while_true (fuel : nat) : M unit :=
  match fuel with
  | O => fun w => Blocked w
  | S fuel' =>
      wait (fun w => 0 <? relay_field sizeReceived 0 w) ;;
      modify (upd_relay (set_sizeReceived 0)) ;;
      Start_while_true fuel'
  end.

(** The body of the [for] loop of [ReplyTester::Start] for one size; [false]
    is the [return] after an error. *)
Definition Start_body (size : Z) : M bool :=
  let throughputTopicReply := Topic.throughputTopicReply size in
  let latencyTopicReply := Topic.latencyTopicReply size in
  pub <- Node_Advertise RelayNode throughputTopicReply ;;
  modify (upd_relay (set_r_throughputPub pub)) ;;
  match pub with
  | None =>
      modify (act (Cerr ("Error advertising topic [" ++ throughputTopicReply ++ "]"))) ;;
      ret false
  | Some _ =>
      pub <- Node_Advertise RelayNode latencyTopicReply ;;
      modify (upd_relay (set_r_latencyPub pub)) ;;
      match pub with
      | None =>
          modify (act (Cerr ("Error advertising topic [" ++ latencyTopicReply ++ "]"))) ;;
          ret false
      | Some _ =>
          let throughputTopicRequest := Topic.throughputTopicRequest size in
          let latencyTopicRequest := Topic.latencyTopicRequest size in
          ok <- Node_Subscribe RelayNode throughputTopicRequest
                  (Relay_throughputCb size) ;;
          if negb ok then
            modify (act (Cerr ("Error subscribing to topic [" ++ throughputTopicRequest ++ "]"))) ;;
            ret false
          else
            ok <- Node_Subscribe RelayNode latencyTopicRequest
                    (Relay_latencyCb size) ;;
            if negb ok then
              modify (act (Cerr ("Error subscribing to topic [" ++ latencyTopicRequest ++ "]"))) ;;
              ret false
            else
              n <- get (fun w => S (List.length (pending w))) ;;
              Start_while_true n ;;
              ret true
      end
  end.

Fixpoint Start_for (sizes : list Z) : M bool :=
  match sizes with
  | [] => ret true
  | size :: rest =>
      continue <- Start_body size ;;
      if continue then Start_for rest else ret false
  end.

(** [ReplyTester::Start] *)
Definition ReplyTester_Start : M unit :=
  continue <- Start_for Tester_msgSizes ;;
  if continue then modify (act (TopicList RelayNode)) else ret tt.

(** [ReplyTester::ThroughputReply] *)
Definition ReplyTester_ThroughputReply (_msg : Bytes) : M unit :=
  modify (fun w =>
            act (Publish RelayNode (relay_field r_throughputPub None w)
                   (Some _msg) false) w).

(** [ReplyTester::LatencyCb]: a new message around a one-char buffer. *)
Definition ReplyTester_LatencyCb (_msg : Bytes) : M unit :=
  let payloadSize := 1 in
  let msg := set_data (fill_buffer payloadSize ++ c_string_tail payloadSize)
               (mkBytes []) in
  modify (fun w =>
            act (Publish RelayNode (relay_field r_latencyPub None w)
                   (Some msg) true) w).

(** ** PubTester *)

Definition pub_field {A} (f : PubTester -> A) : M A :=
  get (fun w => f (gPubTester w)).

(** [PubTester::SetOutputFilename] *)
Definition PubTester_SetOutputFilename (_filename : string) : M unit :=
  modify (upd_pub (set_filename _filename)).

(** [PubTester::SetIterations] *)
Definition PubTester_SetIterations (_iters : Z) : M unit :=
  modify (upd_pub (set_sentMsgs _iters)).

(** [PubTester::PrepMsg]: [msg->set_data] dereferences [msg]. *)
Definition PubTester_PrepMsg (_size : Z) : M unit :=
  fun w =>
    match msg (gPubTester w) with
    | None => Crashed w
    | Some m0 =>
        let m := set_data (fill_buffer _size ++ c_string_tail _size) m0 in
        Ret tt
          (upd_pub
             (fun p =>
                set_dataSize (Z.of_nat (List.length (SerializeToString m)))
                  (set_msg (Some m) p))
             w)
    end.

(** Modelled from the spec: [Publisher::Publish] on a [unique_ptr] is declared
    in the transport library, outside the example.  Ownership of the outbound
    message transfers to the transport on publish, which leaves [this->msg]
    null, and the buffer comes back only through the completion callback.
    The move happens at the call: [std::move(this->msg)] has to be converted
    from a pointer to [Bytes] to the pointer to [google::protobuf::Message]
    that the callback type of [OnMsgPublished] shows. *)
Definition Publish_move (pub : PubTester -> option string) (with_cb : bool)
  : M unit :=
  modify
    (fun w =>
       let p := gPubTester w in
       let w1 := act (Publish PubNode (pub p) (msg p) with_cb) w in
       let w2 := if with_cb
                 then set_inflight (inflight w1 ++ [msg p]) w1
                 else w1 in
       upd_pub (set_msg None) w2).

(** [PubTester::Init] *)
Definition PubTester_Init : M unit :=
  modify (upd_pub (set_msg (Some (mkBytes [])))) ;;
  pub <- Node_Advertise PubNode Topic.pubThroughputRequest ;;
  modify (upd_pub (set_throughputPub pub)) ;;
  match pub with
  | None =>
      modify (act (Cerr "Error advertising topic /benchmark/throughput/request"))
  | Some _ =>
      pub <- Node_Advertise PubNode Topic.pubLatencyRequest ;;
      modify (upd_pub (set_latencyPub pub)) ;;
      match pub with
      | None =>
          modify (act (Cerr "Error advertising topic /benchmark/latency/request"))
      | Some _ =>
          ok <- Node_Subscribe PubNode Topic.pubThroughputReply Pub_ThroughputCb ;;
          if negb ok then
            modify (act (Cerr "Error subscribing to topic /benchmark/throughput/reply"))
          else
            ok <- Node_Subscribe PubNode Topic.pubLatencyReply Pub_LatencyCb ;;
            if negb ok then
              modify (act (Cerr "Error subscribing to topic /benchmark/latency/reply"))
            else
              modify (act (TopicList PubNode))
      end
  end.

(** [PubTester::OutputHeader] followed by the column header line. *)
Definition OutputHeader (columns : string) : M unit :=
  modify (emit HeaderLines) ;;
  modify (emit (ColumnHeader columns)).

(** The publish loop of [Throughput]:
    [for (int i = 0; i < sentMsgs && !stop; ++i) Publish(std::move(msg), nullptr)].
    The counter is an [int]; iteration counts of 2^31 and more overflow it and
    are outside the model. *)
Fixpoint Throughput_for (n : nat) : M unit :=
  match n with
  | O => ret tt
  | S n' =>
      stopped <- pub_field stop ;;
      if stopped then ret tt
      else Publish_move throughputPub false ;; Throughput_for n'
  end.

(** One round of the size loop of [Throughput], after its [stop] check. *)
Definition Throughput_class (msgSize testNum : Z) : M unit :=
  (* Reset counters *)
  modify (upd_pub (set_totalBytes 0)) ;;
  modify (upd_pub (set_msgCount 0)) ;;
  (* Create the message of the given size *)
  PubTester_PrepMsg msgSize ;;
  (* Start the clock *)
  timeStart <- now ;;
  (* Send all the messages as fast as possible *)
  n <- pub_field sentMsgs ;;
  Throughput_for (Z.to_nat n) ;;
  (* Wait for all the reply messages *)
  wait throughput_pred ;;
  p <- pub_field (fun p => p) ;;
  let duration := micros timeStart (timeEnd p) in
  let seconds := DMul (DU64 duration) (DLit lit_1e_6) in
  modify
    (emit
       (ThroughputRow testNum (dataSize p)
          (DDiv (DMul (DU64 (totalBytes p)) (DLit lit_1e_6)) seconds)
          (DDiv (DMul (DU64 (msgCount p)) (DLit lit_1e_3)) seconds))).

Fixpoint Throughput_sweep (sizes : list Z) (testNum : Z) : M unit :=
  match sizes with
  | [] => ret tt
  | msgSize :: rest =>
      stopped <- pub_field stop ;;
      if stopped then ret tt
      else Throughput_class msgSize testNum ;;
           Throughput_sweep rest (testNum + 1)
  end.

(** [PubTester::Throughput] *)
Definition PubTester_Throughput : M unit :=
  (* Wait for subscriber *)
  wait (connection_pred throughputPub) ;;
  stopped <- pub_field stop ;;
  if stopped then ret tt
  else
    OutputHeader throughput_columns ;;
    Throughput_sweep PubTester_msgSizes 1.

(** ** Throughput: the statements that run without the mutex

    [Throughput] holds the mutex only from its wait to the end of the round,
    while the callbacks and the signal handler run on other threads.  Up to
    the wait, their effects can therefore fall between any two statements of
    a size class, not only into a wait.  [Throughput_class_at] is
    [Throughput_class] with these points made explicit: an [Interleaving]
    gives the events handled at each of them, and with none at any of them
    the two are the same.  An event is handled as a whole between two
    statements of the control thread; a callback that overlaps a statement
    is a data race and outside the model.  From the return of the wait to
    the written row the control thread holds the mutex, which
    [ThroughputCb], [OnMsgPublished] and [Stop] take before they touch a
    member: of an event handled there only the part that runs without the
    mutex takes effect ([handle_locked]); the rest runs after the row, like
    an event of the next round. *)

(** The events handled at one point, in order. *)
Definition async (evs : list Event) : M unit :=
  modify (fun w => fold_left (fun w' e => handle e w') evs w).

(** What a callback does before it needs the mutex of the tester:
    [ThroughputCb] nothing, [LatencyCb] its store to [timeEnd]; the lambdas
    of the relay do not take it. *)
Definition callback_unlocked (cb : Callback) (m : Bytes) (t : Z) (w : World)
  : World :=
  match cb with
  | Pub_ThroughputCb => w
  | _ => run_callback cb m t w
  end.

(** The effect of an event while the control thread holds the mutex:
    [signalHandler] sets [gStop] and then waits in [Stop]. *)
Definition handle_locked (e : Event) (w : World) : World :=
  match e with
  | Connect topic => set_connected (topic :: connected w) w
  | Deliver topic m t =>
      fold_left
        (fun w' s =>
           if String.eqb (fst s) topic
           then callback_unlocked (snd s) m t w' else w')
        (subscriptions w) w
  | PublishDone _ => w
  | Signal s =>
      if (s =? SIGINT) || (s =? SIGTERM) then set_gStop true w else w
  end.

Definition async_locked (evs : list Event) : M unit :=
  modify (fun w => fold_left (fun w' e => handle_locked e w') evs w).

(** The events handled after the [stop] test of the round, after
    [totalBytes = 0], after [msgCount = 0], in [PrepMsg] after [set_data] and
    after [SerializeToString], after the store to [dataSize], after the
    reading of the clock, after each call of [Publish], and, with the mutex
    held, after the return of the wait. *)
Record Interleaving : Type := mkInterleaving {
  at_entry : list Event;
  at_totalBytes : list Event;
  at_msgCount : list Event;
  at_set_data : list Event;
  at_serialize : list Event;
  at_dataSize : list Event;
  at_now : list Event;
  at_publish : list (list Event);
  at_wake : list Event
}.

(** Nothing happens in between. *)
Definition uninterrupted : Interleaving :=
  mkInterleaving [] [] [] [] [] [] [] [] [].

(** [PubTester::PrepMsg], statement by statement: [msg->set_data],
    [this->msg->SerializeToString(&data)], [this->dataSize = data.size()]. *)
Definition PubTester_PrepMsg_at (evs1 evs2 : list Event) (_size : Z) : M unit :=
  m0 <- pub_field msg ;;
  match m0 with
  | None => fun w => Crashed w
  | Some m0 =>
      modify
        (upd_pub
           (set_msg
              (Some (set_data (fill_buffer _size ++ c_string_tail _size) m0)))) ;;
      async evs1 ;;
      m <- pub_field msg ;;
      match m with
      | None => fun w => Crashed w
      | Some m =>
          let data := SerializeToString m in
          async evs2 ;;
          modify (upd_pub (set_dataSize (Z.of_nat (List.length data))))
      end
  end.

(** The publish loop, with the events handled after each call. *)
Fixpoint Throughput_for_at (batches : list (list Event)) (n : nat) : M unit :=
  match n with
  | O => ret tt
  | S n' =>
      stopped <- pub_field stop ;;
      if stopped then ret tt
      else
        Publish_move throughputPub false ;;
        async (hd [] batches) ;;
        Throughput_for_at (tl batches) n'
  end.

(** One round of the size loop of [Throughput], after its [stop] check. *)
Definition Throughput_class_at (il : Interleaving) (msgSize testNum : Z)
  : M unit :=
  async (at_entry il) ;;
  (* Reset counters *)
  modify (upd_pub (set_totalBytes 0)) ;;
  async (at_totalBytes il) ;;
  modify (upd_pub (set_msgCount 0)) ;;
  async (at_msgCount il) ;;
  (* Create the message of the given size *)
  PubTester_PrepMsg_at (at_set_data il) (at_serialize il) msgSize ;;
  async (at_dataSize il) ;;
  (* Start the clock *)
  timeStart <- now ;;
  async (at_now il) ;;
  (* Send all the messages as fast as possible *)
  n <- pub_field sentMsgs ;;
  Throughput_for_at (at_publish il) (Z.to_nat n) ;;
  (* Wait for all the reply messages *)
  wait throughput_pred ;;
  async_locked (at_wake il) ;;
  p <- pub_field (fun p => p) ;;
  let duration := micros timeStart (timeEnd p) in
  let seconds := DMul (DU64 duration) (DLit lit_1e_6) in
  modify
    (emit
       (ThroughputRow testNum (dataSize p)
          (DDiv (DMul (DU64 (totalBytes p)) (DLit lit_1e_6)) seconds)
          (DDiv (DMul (DU64 (msgCount p)) (DLit lit_1e_3)) seconds))).

(** ** Latency *)

(** The locals of [Latency] that the iterations update. *)
Record LatAcc : Type := mkLatAcc {
  sum : Z;
  minLatency : Z;
  maxLatency : Z
}.

(** The body of the iteration loop of [Latency]. *)
Definition Latency_iteration (acc : LatAcc) : M LatAcc :=
  (* Start the clock *)
  timeStart <- now ;;
  modify (upd_pub (set_timeEnd timeStart)) ;;
  (* Send the message. *)
  Publish_move latencyPub true ;;
  (* Wait for the response. *)
  wait (latency_pred timeStart) ;;
  m <- pub_field msg ;;
  match m with
  | None => wait recycled_pred
  | Some _ => ret tt
  end ;;
  (* Compute the number of microseconds *)
  te <- pub_field timeEnd ;;
  let duration := micros timeStart te in
  modify (act (Measured duration)) ;;
  ret (mkLatAcc
         (wrap64 (sum acc + duration))
         (if duration <? minLatency acc then duration else minLatency acc)
         (if maxLatency acc <? duration then duration else maxLatency acc)).

(** [for (int i = 0; i < sentMsgs && !stop; ++i)] around the body. *)
Fixpoint Latency_for (n : nat) (acc : LatAcc) : M LatAcc :=
  match n with
  | O => ret acc
  | S n' =>
      stopped <- pub_field stop ;;
      if stopped then ret acc
      else acc' <- Latency_iteration acc ;; Latency_for n' acc'
  end.

(** One round of the size loop of [Latency], after its [stop] check;
    [minLatency0] and [maxLatency0] are the values, on entry, of the locals
    [minLatency] and [maxLatency] declared before that loop. *)
Definition Latency_class (msgSize testNum minLatency0 maxLatency0 : Z) : M LatAcc :=
  (* Create the message of the given size *)
  PubTester_PrepMsg msgSize ;;
  n <- pub_field sentMsgs ;;
  acc <- Latency_for (Z.to_nat n) (mkLatAcc 0 minLatency0 maxLatency0) ;;
  (* Output data. *)
  p <- pub_field (fun p => p) ;;
  modify
    (emit
       (LatencyRow testNum (dataSize p)
          (DMul (DDiv (DU64 (sum acc)) (DU64 (sentMsgs p))) (DLit lit_0_5))
          (DMul (DU64 (acc.(minLatency))) (DLit lit_0_5))
          (DMul (DU64 (acc.(maxLatency))) (DLit lit_0_5)))) ;;
  ret acc.

Fixpoint Latency_sweep (sizes : list Z) (testNum minLatency0 maxLatency0 : Z)
  : M unit :=
  match sizes with
  | [] => ret tt
  | msgSize :: rest =>
      stopped <- pub_field stop ;;
      if stopped then ret tt
      else
        acc <- Latency_class msgSize testNum minLatency0 maxLatency0 ;;
        Latency_sweep rest (testNum + 1) acc.(minLatency) acc.(maxLatency)
  end.

(** [PubTester::Latency] *)
Definition PubTester_Latency : M unit :=
  (* Wait for subscriber *)
  wait (connection_pred latencyPub) ;;
  stopped <- pub_field stop ;;
  if stopped then ret tt
  else
    OutputHeader latency_columns ;;
    Latency_sweep PubTester_msgSizes 1 UINT64_MAX 0.

(** ** main *)

Record Flags : Type := mkFlags {
  FLAGS_h : bool;
  FLAGS_t : bool;
  FLAGS_l : bool;
  FLAGS_r : bool;
  FLAGS_p : bool;
  FLAGS_i : Z;
  FLAGS_o : string
}.

(** [main], from the parsed flags.  With [-h], gflags prints the usage and
    ends the process in [HandleCommandLineHelpFlags]. *)
Definition main (f : Flags) : M Z :=
  (if FLAGS_h f then exit 1 else ret tt) ;;
  (* Set the number of iterations. *)
  PubTester_SetIterations (FLAGS_i f) ;;
  PubTester_SetOutputFilename (FLAGS_o f) ;;
  (if FLAGS_r f then
     (* Run the responder *)
     modify (set_replyTester (Some Tester_ctor)) ;;
     wait gStop ;;
     modify (set_replyTester None)
   else if FLAGS_p f then
     (* Run the publisher *)
     PubTester_Init ;;
     (if FLAGS_t f then PubTester_Throughput else PubTester_Latency)
   else
     (* Single process with both publisher and responder *)
     modify (set_replyTester (Some Tester_ctor)) ;;
     PubTester_Init ;;
     (if FLAGS_t f then PubTester_Throughput else PubTester_Latency) ;;
     modify (set_replyTester None)) ;;
  ret 0.

End Program.

(** The state at program start: [gStop] and the members of the global
    [gPubTester] hold their initializers. *)
Definition PubTester_initial : PubTester :=
  mkPubTester None 0 0 0 100 None None false 0 "".

Definition initial_world (adv sub : string -> bool) (clk : nat -> Z)
    (evs : list Event) : World :=
  mkWorld false PubTester_initial None [] [] [] adv sub clk 0%nat evs [] [].

(** ** A concrete serializer

    For runs on concrete inputs: the protobuf wire format of a [Bytes] whose
    only set field is [data] (field 2, length-delimited: tag, varint length,
    payload; an empty field is left out), and a NUL right after every
    buffer.  What follows a buffer from [new char[n]] is up to the
    allocator, and runs of the program show payloads longer than the size;
    [wire_Protobuf] is the one environment in which [set_data] copies the
    size and no more.  It is used for runs on concrete inputs only: the
    theorems that are not about one run hold for every [Protobuf]. *)

Fixpoint varint (fuel : nat) (n : N) : list ascii :=
  match fuel with
  | O => []
  | S fuel' =>
      if (n <? 128)%N then [ascii_of_N n]
      else ascii_of_N (128 + n mod 128)%N :: varint fuel' (n / 128)%N
  end.

Definition wire_Bytes (m : Bytes) : list ascii :=
  match data m with
  | [] => []
  | _ => (ascii_of_N 18 :: varint 10 (N.of_nat (List.length (data m))) ++ data m)%list
  end.

#[export] Instance wire_Protobuf : Protobuf := {|
  SerializeToString := wire_Bytes;
  c_string_tail := fun _ => []
|}.

(** The same serializer in an environment where two bytes other than NUL
    follow every buffer before the first NUL. *)
Definition padded_Protobuf : Protobuf := {|
  SerializeToString := wire_Bytes;
  c_string_tail := fun _ => ["#"%char; "#"%char]
|}.

(** * Observations and invariants *)

(** ** Invariants of runs *)

(** [I] holds however the call ends, when it held before. *)
Definition preserves {A} (I : World -> Prop) (m : M A) : Prop :=
  forall w, I w -> I (final (m w)).

(** The stop flag of the tester is set. *)
Definition stopped (w : World) : Prop := stop (gPubTester w) = true.

(** [msg] is null and the transport holds no buffer with a completion
    callback. *)
Definition msg_lost (w : World) : Prop :=
  msg (gPubTester w) = None /\ inflight w = [].

(** While a size class is measured, the report, the serialized size and the
    iteration count stay as they are, and the byte counter is the message
    counter times the serialized size (in [uint64_t] arithmetic). *)
Definition counters_inv (o0 : list Line) (d0 n0 : Z) (w : World) : Prop :=
  out w = o0 /\
  dataSize (gPubTester w) = d0 /\
  sentMsgs (gPubTester w) = n0 /\
  totalBytes (gPubTester w) = wrap64 (msgCount (gPubTester w) * d0).

(** ** The relay's part in a run *)

(** Transport requests of the relay node, and lines on [std::cout], which
    only the relay callbacks write. *)
Definition relay_action (a : Action) : bool :=
  match a with
  | Advertise RelayNode _ | Subscribe RelayNode _ _
  | Publish RelayNode _ _ _ | TopicList RelayNode | Cout _ => true
  | _ => false
  end.

(** The lambdas of [ReplyTester::Start]. *)
Definition relay_callback (cb : Callback) : bool :=
  match cb with
  | Relay_throughputCb _ | Relay_latencyCb _ => true
  | _ => false
  end.

(** Nothing in the trace was done by the relay, and none of its lambdas is
    subscribed. *)
Definition no_relay (w : World) : Prop :=
  existsb relay_action (trace w) = false /\
  existsb (fun s => relay_callback (snd s)) (subscriptions w) = false.

(** The events that make [signalHandler] raise the stop flags. *)
Definition stop_signal (e : Event) : bool :=
  match e with
  | Signal s => (s =? SIGINT) || (s =? SIGTERM)
  | _ => false
  end.

(** ** Payloads, publications and measured durations *)

(** The serialized size that [PrepMsg] stores in [dataSize]. *)
Definition serializedSize `{PB : Protobuf} (S : Z) : Z :=
  Z.of_nat
    (List.length
       (SerializeToString (mkBytes (fill_buffer S ++ c_string_tail S)))).

(** The payload that [PrepMsg] builds for a size when a NUL follows the
    buffer. *)
Definition payload (S : Z) : Bytes := mkBytes (fill_buffer S).

(** The buffers handed to [Publish] by a node, in order. *)
Definition published (n : NodeId) (tr : list Action) : list (option Bytes) :=
  flat_map
    (fun a =>
       match a, n with
       | Publish PubNode _ m _, PubNode
       | Publish RelayNode _ m _, RelayNode => [m]
       | _, _ => []
       end)
    tr.

(** The durations recorded in a trace, oldest first. *)
Definition measured (tr : list Action) : list Z :=
  flat_map (fun a => match a with Measured d => [d] | _ => [] end) tr.

(** Sum of a list of durations. *)
Definition Zsum (ds : list Z) : Z := fold_right Z.add 0 ds.

(** What the waits and the publishing of a latency iteration leave alone. *)
Definition lat_frame (o0 : list Line) (d0 n0 : Z) (l0 : list Z) (w : World)
  : Prop :=
  out w = o0 /\
  dataSize (gPubTester w) = d0 /\
  sentMsgs (gPubTester w) = n0 /\
  measured (trace w) = l0.

(** The statistics over the completed iterations alone, as in the
    specification: average, minimum and maximum of their durations,
    halved. *)
Definition completed_avg (ds : list Z) : Q :=
  (inject_Z (Zsum ds) / inject_Z (Z.of_nat (List.length ds)) * lit_0_5)%Q.
Definition completed_min (ds : list Z) : Q :=
  (inject_Z (fold_right Z.min UINT64_MAX ds) * lit_0_5)%Q.
Definition completed_max (ds : list Z) : Q :=
  (inject_Z (fold_right Z.max 0%Z ds) * lit_0_5)%Q.

(** ** Report rows *)

(** Test number and size column of a report row. *)
Definition row_key (l : Line) : option (Z * Z) :=
  match l with
  | ThroughputRow testNum size _ _ | LatencyRow testNum size _ _ _ =>
      Some (testNum, size)
  | _ => None
  end.

(** One row per size, numbered from [testNum] in the order of the sweep. *)
Fixpoint expected_keys `{PB : Protobuf} (sizes : list Z) (testNum : Z)
  : list (option (Z * Z)) :=
  match sizes with
  | [] => []
  | msgSize :: rest =>
      Some (testNum, serializedSize msgSize) :: expected_keys rest (testNum + 1)
  end.

(** ** Channel names *)

(** The two metrics and the two directions of an exchange. *)
Inductive Mode : Type := LatencyMode | ThroughputMode.
Inductive Direction : Type := Request | Reply.

(** The name [ReplyTester::Start] builds for a size, by mode and direction. *)
Definition relay_topic (m : Mode) (d : Direction) (S : Z) : string :=
  match m, d with
  | ThroughputMode, Reply => Topic.throughputTopicReply S
  | LatencyMode, Reply => Topic.latencyTopicReply S
  | ThroughputMode, Request => Topic.throughputTopicRequest S
  | LatencyMode, Request => Topic.latencyTopicRequest S
  end.

(** The name [PubTester::Init] uses, by mode and direction. *)
Definition pub_topic (m : Mode) (d : Direction) : string :=
  match m, d with
  | ThroughputMode, Request => Topic.pubThroughputRequest
  | LatencyMode, Request => Topic.pubLatencyRequest
  | ThroughputMode, Reply => Topic.pubThroughputReply
  | LatencyMode, Reply => Topic.pubLatencyReply
  end.

(** The topics a node advertised or subscribed to, in order. *)
Definition topics_used (n : NodeId) (tr : list Action) : list string :=
  flat_map
    (fun a =>
       match a, n with
       | Advertise PubNode topic, PubNode
       | Advertise RelayNode topic, RelayNode
       | Subscribe PubNode topic _, PubNode
       | Subscribe RelayNode topic _, RelayNode => [topic]
       | _, _ => []
       end)
    tr.

(** The topics a node has used so far are exactly [l]. *)
Definition topics_frame (n : NodeId) (l : list string) (w : World) : Prop :=
  topics_used n (trace w) = l.

(** The topics of a node stay within [allowed]. *)
Definition topics_within (n : NodeId) (allowed : list string) (w : World)
  : Prop :=
  incl (topics_used n (trace w)) allowed.

(** Decimal digits, and the split of a string after its leading digits. *)
Definition is_digit (c : ascii) : bool :=
  ((48 <=? nat_of_ascii c) && (nat_of_ascii c <=? 57))%nat.

Fixpoint all_digits (s : string) : bool :=
  match s with
  | EmptyString => true
  | String c s' => is_digit c && all_digits s'
  end.

Fixpoint take_digits (s : string) : string :=
  match s with
  | EmptyString => EmptyString
  | String c s' => if is_digit c then String c (take_digits s') else EmptyString
  end.

Fixpoint drop_digits (s : string) : string :=
  match s with
  | EmptyString => EmptyString
  | String c s' => if is_digit c then drop_digits s' else s
  end.

Definition starts_with_letter (s : string) : bool :=
  match s with
  | EmptyString => true
  | String c _ => negb (is_digit c)
  end.

(** ** Concrete environments *)

(** A transport that accepts every topic, and a clock that the control
    thread reads at 0 ms, 1 ms, 2 ms, ... (in nanoseconds). *)
Definition accept_all (_ : string) : bool := true.
Definition clock_ms (k : nat) : Z := 1000000 * Z.of_nat k.

(** An echoing peer for [n] latency exchanges: each reply is stamped 7
    microseconds after the request and the message is handed back. *)
Fixpoint echo_events (n : nat) (k : Z) : list Event :=
  match n with
  | O => []
  | S n' =>
      Deliver "/benchmark/latency/reply" (mkBytes []) (1000000 * k + 7000)
        :: PublishDone true :: echo_events n' (k + 1)
  end.

(** A state in which the measurement of the first size class of throughput
    mode starts: [Init] done, two iterations, two replies on their way. *)
Definition throughput_example : World :=
  final
    (PubTester_Init
       (upd_pub (set_sentMsgs 2)
          (initial_world accept_all accept_all clock_ms
             [Deliver "/benchmark/throughput/reply" (payload 256) 4000;
              Deliver "/benchmark/throughput/reply" (payload 256) 10500]))).

(** ** Lookups and message ownership *)

(** [map.find(key)] on a [std::map] kept as an association list. *)
Fixpoint map_get {V} (key : Z) (m : list (Z * V)) : option V :=
  match m with
  | [] => None
  | (k, v) :: m' => if k =? key then Some v else map_get key m'
  end.

(** The message [PrepMsg] leaves in a tester for a size, and the serialized
    size the constructor of [Tester] stores for it (an [unsigned int]). *)
Definition prepared `{PB : Protobuf} (size : Z) : Bytes :=
  mkBytes (fill_buffer size ++ c_string_tail size).

Definition Tester_dataSize `{PB : Protobuf} (size : Z) : Z :=
  Z.of_nat (List.length (SerializeToString (prepared size))) mod 2 ^ 32.

(** The tester holds message [m] and the transport holds none of its
    buffers. *)
Definition held (m : Bytes) (w : World) : Prop :=
  msg (gPubTester w) = Some m /\ inflight w = [].

(** Message [m] is either held by the tester or the one buffer the transport
    has yet to hand back. *)
Definition held_or_in_flight (m : Bytes) (w : World) : Prop :=
  held m w \/ (msg (gPubTester w) = None /\ inflight w = [Some m]).

(** No call of the driver's [Publish] was given a null pointer. *)
Definition publishes_no_null (w : World) : Prop :=
  Forall (fun b => b <> None) (published PubNode (trace w)).

(** A call started where [P] holds does not dereference a null pointer; when
    it returns [Q] holds, and when it ends in any other way [R] holds. *)
Definition triple {A} (P : World -> Prop) (m : M A)
    (Q : A -> World -> Prop) (R : World -> Prop) : Prop :=
  forall w, P w ->
    match m w with
    | Ret a w' => Q a w'
    | Crashed _ => False
    | Blocked w' | Exited _ w' => R w'
    end.

(** Connection events. *)
Definition is_connect (e : Event) : bool :=
  match e with Connect _ => true | _ => false end.

(** Both stop flags are up. *)
Definition all_stopped (w : World) : Prop :=
  gStop w = true /\ stop (gPubTester w) = true.

(** A line on [std::cerr]. *)
Definition is_cerr (a : Action) : bool :=
  match a with Cerr _ => true | _ => false end.

(** * The C publisher ([example/publisher_c.cc])

    The program publishes one serialized [StringMsg] on [/foo] once a second
    until SIGINT or SIGTERM.  The message library and the C interface of the
    transport are outside the file: the serialization and the type name are
    parameters, and the calls into the C interface are recorded.  So is the
    platform: [main] installs a handler for SIGINT and for SIGTERM only, and
    what any other signal does is its default action, which either ends the
    process or does not.  A run starts when both handlers are installed and
    is given by the signals that arrive between one recorded call and the
    next; allocation failure is not modelled. *)

Module PublisherC.

Class StringMsgLib : Type := {
  SerializeToArray : string -> list ascii;   (* the bytes of a StringMsg with this data *)
  GetTypeName : string
}.

(** The default action of a signal: [true] when it ends the process. *)
Class Platform : Type := {
  ends_process : Z -> bool
}.

Inductive Action : Type :=
| NodeCreate                                  (* ignTransportNodeCreate *)
| Publish (topic : string) (buffer : list ascii) (msgType : string)
| Printf (line : string)
| Sleep (seconds : Z)
| Free (buffer : list ascii)
| NodeDestroy.                                (* ignTransportNodeDestroy *)

(** [alive] is false once a signal has ended the process. *)
Record State : Type := mkState {
  g_terminatePub : bool;
  alive : bool;
  trace : list Action
}.

(** How a run stands at the end of the signals it is given. *)
Inductive Ending : Type :=
| Running                                     (* still in the loop *)
| Returned                                    (* [main] returned 0 *)
| Killed.                                     (* ended by a signal *)

(** The signals between two recorded calls of one pass of the loop: from
    the call of [ignTransportPublish] to [printf], from [printf] to
    [sleep], and from [sleep] to the next test of the loop. *)
Record Pass : Type := mkPass {
  at_publish : list Z;
  at_printf : list Z;
  at_sleep : list Z
}.

(** The signals of a run: before [ignTransportNodeCreate], from there to the
    first test of the loop, in each pass, from the test that leaves the loop
    to [free], and from [free] to [ignTransportNodeDestroy]. *)
Record Run : Type := mkRun {
  at_start : list Z;
  at_create : list Z;
  passes : list Pass;
  at_exit : list Z;
  at_free : list Z
}.

(** [signalHandler] *)
Definition signalHandler (_signal : Z) (s : State) : State :=
  if (_signal =? SIGINT) || (_signal =? SIGTERM)
  then mkState true (alive s) (trace s)
  else s.

(** [signal(SIGINT, signalHandler); signal(SIGTERM, signalHandler)]: the
    signals the handler is installed for. *)
Definition handled (_signal : Z) : bool :=
  (_signal =? SIGINT) || (_signal =? SIGTERM).

Section Runs.

Context `{L : StringMsgLib} `{P : Platform}.

(** One signal: the handler when one is installed, the default action
    otherwise. *)
Definition arrive (sg : Z) (s : State) : State :=
  if negb (alive s) then s
  else if handled sg then signalHandler sg s
  else if ends_process sg then mkState (g_terminatePub s) false (trace s)
  else s.

(** The signals of one stretch of the run, in order. *)
Definition deliver (sigs : list Z) (s : State) : State :=
  fold_left (fun s' sg => arrive sg s') sigs s.

Definition act (a : Action) (s : State) : State :=
  if alive s then mkState (g_terminatePub s) true (trace s ++ [a]) else s.

(** A recorded call, and the signals from there to the next one. *)
Definition step (a : Action) (sigs : list Z) (s : State) : State :=
  deliver sigs (act a s).

Definition newline : string := String (ascii_of_nat 10) EmptyString.

(** One pass of the body of [while (!g_terminatePub)]: publish, print,
    sleep. *)
Definition loop_body (topic : string) (buffer : list ascii) (msgType : string)
    (p : Pass) (s : State) : State :=
  let s1 := step (Publish topic buffer msgType) (at_publish p) s in
  let s2 := step (Printf ("Publishing hello on topic " ++ topic ++ "." ++ newline))
              (at_printf p) s1 in
  step (Sleep 1) (at_sleep p) s2.

(** The loop over the passes the run is given; [false] when the loop is
    still going after the last of them, [true] when it was left through its
    test or the process is gone. *)
Fixpoint while_loop (topic : string) (buffer : list ascii) (msgType : string)
    (ps : list Pass) (s : State) : State * bool :=
  if negb (alive s) || g_terminatePub s then (s, true)
  else match ps with
       | [] => (s, false)
       | p :: rest =>
           while_loop topic buffer msgType rest
             (loop_body topic buffer msgType p s)
       end.

(** [main], from the point where both handlers are installed. *)
Definition main (r : Run) : State * Ending :=
  let s0 := deliver (at_start r) (mkState false true []) in
  let topic := "/foo" in
  let buffer := SerializeToArray "HELLO" in
  let s1 := step NodeCreate (at_create r) s0 in
  let '(s2, over) := while_loop topic buffer GetTypeName (passes r) s1 in
  if over then
    let s3 := step (Free buffer) (at_free r) (deliver (at_exit r) s2) in
    let s4 := act NodeDestroy s3 in
    (s4, if alive s4 then Returned else Killed)
  else (s2, Running).

(** A stretch of the run with no SIGINT, no SIGTERM and no signal that ends
    the process. *)
Definition harmless (sigs : list Z) : bool :=
  forallb (fun sg => negb (handled sg) && negb (ends_process sg)) sigs.

(** A stretch of the run with no signal that ends the process. *)
Definition survivable (sigs : list Z) : bool :=
  forallb (fun sg => handled sg || negb (ends_process sg)) sigs.

(** The signals of a pass, in order. *)
Definition signals_of (p : Pass) : list Z :=
  (at_publish p ++ at_printf p ++ at_sleep p)%list.

End Runs.

(** What [n] passes of the loop record. *)
Fixpoint passes_trace (topic : string) (buffer : list ascii) (msgType : string)
    (n : nat) : list Action :=
  match n with
  | O => []
  | S n' =>
      Publish topic buffer msgType
        :: Printf ("Publishing hello on topic " ++ topic ++ "." ++ newline)
        :: Sleep 1 :: passes_trace topic buffer msgType n'
  end.

(** The wire format of a [StringMsg] whose only set field is [data]. *)
#[export] Instance wire_StringMsg : StringMsgLib := {|
  SerializeToArray := fun d =>
    match d with
    | EmptyString => []
    | _ => (ascii_of_N 18 :: varint 10 (N.of_nat (String.length d))
              ++ list_ascii_of_string d)%list
    end;
  GetTypeName := "ignition.msgs.StringMsg"
|}.

(** The default actions of Linux: SIGCHLD (17), SIGURG (23) and SIGWINCH (28)
    are ignored, SIGCONT (18) continues and SIGSTOP, SIGTSTP, SIGTTIN and
    SIGTTOU (19 to 22) stop the process, which resumes on SIGCONT; every
    other signal ends it. *)
#[export] Instance linux_Platform : Platform := {|
  ends_process := fun sg =>
    negb (((17 <=? sg) && (sg <=? 23)) || (sg =? 28))
|}.

End PublisherC.

(** * Further observations *)

(** ** The constructor of Tester *)

(** The step of the loop of the constructor. *)
Definition Tester_ctor_step `{PB : Protobuf} (r : ReplyTester) (size : Z)
  : ReplyTester :=
  let '(m, dataSize) := Tester_PrepMsg size (mkBytes []) in
  mkReplyTester (map_set size m (msgs r))
    (map_set size dataSize (dataSizes r))
    (r_throughputPub r) (r_latencyPub r) (sizeReceived r).

(** ** What a call adds to the trace *)

(** A line on [std::cout]. *)
Definition is_cout (a : Action) : bool :=
  match a with Cout _ => true | _ => false end.

(** A call of [TopicList]. *)
Definition is_topic_list (a : Action) : bool :=
  match a with TopicList _ => true | _ => false end.

(** The trace of [w] is [tr0] followed by actions that all satisfy [P]. *)
Definition extends_by (P : Action -> bool) (tr0 : list Action) (w : World)
  : Prop :=
  exists l, trace w = (tr0 ++ l)%list /\ forallb P l = true.

(** The four channel names of the relay for a size. *)
Definition relay_names (size : Z) : list string :=
  [Topic.throughputTopicReply size; Topic.latencyTopicReply size;
   Topic.throughputTopicRequest size; Topic.latencyTopicRequest size].

(** ** Ownership of the outbound message *)

(** No publication so far was given a null pointer, and the transport holds
    either nothing or, while [msg] is null, the one buffer it has yet to
    hand back. *)
Definition msg_accounted (w : World) : Prop :=
  publishes_no_null w /\
  (inflight w = [] \/
   (msg (gPubTester w) = None /\ exists m, inflight w = [Some m])).

(** As [msg_accounted], with the message back in [msg]. *)
Definition msg_at_hand (w : World) : Prop :=
  msg_accounted w /\ recycled_pred w = true.

(** Message [m] is accounted for, and the publications so far are [pl]. *)
Definition flight_frame (m : Bytes) (pl : list (option Bytes)) (w : World)
  : Prop :=
  held_or_in_flight m w /\ published PubNode (trace w) = pl.

(** ** Calls that return *)

(** Started where [P] holds, the call returns, in a state where [Q] holds. *)
Definition returns_with {A} (P : World -> Prop) (m : M A)
    (Q : A -> World -> Prop) : Prop :=
  forall w, P w -> exists a w', m w = Ret a w' /\ Q a w'.

(** Both stop flags are up; report, publications and pending events are as
    given. *)
Definition shut_down (o0 : list Line) (p0 : list (option Bytes))
    (e0 : list Event) (w : World) : Prop :=
  all_stopped w /\ out w = o0 /\ published PubNode (trace w) = p0 /\
  pending w = e0.

(** The stop flags that were up in [w0] are up. *)
Definition flags_kept (w0 w : World) : Prop :=
  (gStop w0 = true -> gStop w = true) /\
  (stop (gPubTester w0) = true -> stop (gPubTester w) = true).

(** Started where [I] holds, the call ends with [Q] when it returns and with
    [I] still holding when it ends in any other way. *)
Definition frames_until {A} (I : World -> Prop) (m : M A)
    (Q : A -> World -> Prop) : Prop :=
  forall w, I w ->
    match m w with
    | Ret a w' => Q a w'
    | Blocked w' | Crashed w' | Exited _ w' => I w'
    end.


(** ** Further concrete environments *)

(** [Init] done on an accepting transport; no subscriber ever connects, one
    stray reply and then SIGTERM arrive. *)
Definition no_peer_example : World :=
  final
    (PubTester_Init
       (initial_world accept_all accept_all clock_ms
          [Deliver "/benchmark/throughput/reply" (mkBytes []) 5000;
           Signal SIGTERM])).

(** [./bench -t -p -i 1] with a subscriber that never replies and a SIGINT. *)
Definition interrupted_throughput_flags : Flags :=
  mkFlags false true false false true 1 "".
Definition interrupted_throughput_world : World :=
  initial_world accept_all accept_all clock_ms
    [Connect "/benchmark/throughput/request"; Signal SIGINT].

(** [Init] done, two iterations, an echoing peer for both. *)
Definition latency_class_example : World :=
  final
    (PubTester_Init
       (upd_pub (set_sentMsgs 2)
          (initial_world accept_all accept_all clock_ms (echo_events 2 0)))).

(** [Init] done, one iteration, a subscriber and an echoing peer for the
    whole sweep. *)
Definition latency_sweep_example : World :=
  final
    (PubTester_Init
       (upd_pub (set_sentMsgs 1)
          (initial_world accept_all accept_all clock_ms
             (Connect "/benchmark/latency/request" :: echo_events 15 0)))).

(** [./bench -l -p -i 2] against an echoing peer that is there for the first
    size class only. *)
Definition short_latency_flags : Flags :=
  mkFlags false false true false true 2 "".
Definition short_latency_world : World :=
  initial_world accept_all accept_all clock_ms
    (Connect "/benchmark/latency/request" :: echo_events 2 0).

(** The program start after a SIGINT: both stop flags up, nothing else
    done. *)
Definition interrupted_start : World :=
  signalHandler SIGINT
    (initial_world accept_all accept_all clock_ms
       [Connect "/benchmark/throughput/request"]).

(** [Init] done, one iteration, a subscriber and the reply to the one
    message of the first size class. *)
Definition throughput_run_example : World :=
  final
    (PubTester_Init
       (upd_pub (set_sentMsgs 1)
          (initial_world accept_all accept_all clock_ms
             [Connect "/benchmark/throughput/request";
              Deliver "/benchmark/throughput/reply" (payload 256) 10500]))).


(** ** Events between the unlocked statements of throughput mode *)

(** A message delivery. *)
Definition is_deliver (e : Event) : bool :=
  match e with Deliver _ _ _ => true | _ => false end.

(** The events handled between the reset of the byte counter and the store
    to [dataSize]. *)
Definition reset_window (il : Interleaving) : list Event :=
  (at_totalBytes il ++ at_msgCount il ++ at_set_data il ++ at_serialize il)%list.

(** What no event changes while a size class of throughput mode runs: the
    report, the iteration count, the clock of the control thread, and that
    the transport holds no buffer. *)
Definition class_frame (w0 w : World) : Prop :=
  out w = out w0 /\
  sentMsgs (gPubTester w) = sentMsgs (gPubTester w0) /\
  inflight w = [] /\
  clock w = clock w0 /\
  reads w = reads w0.

(** A call of the signal handler. *)
Definition is_signal (e : Event) : bool :=
  match e with Signal _ => true | _ => false end.

(** All events handled between the statements of a size class up to its
    wait. *)
Definition events_of (il : Interleaving) : list Event :=
  (at_entry il ++ at_totalBytes il ++ at_msgCount il ++ at_set_data il ++
   at_serialize il ++ at_dataSize il ++ at_now il ++
   List.concat (at_publish il))%list.

(** Before the publish loop of a size class: the publications so far, no
    buffer with the transport, the iteration count, the message at hand, and
    the stop flag down when [calm] says that no signal comes in between. *)
Definition sending (pl : list (option Bytes)) (n0 : Z) (x : option Bytes)
    (calm : bool) (w : World) : Prop :=
  published PubNode (trace w) = pl /\
  inflight w = [] /\
  sentMsgs (gPubTester w) = n0 /\
  msg (gPubTester w) = x /\
  (calm = true -> stop (gPubTester w) = false).

(** From the publish loop on: [k] of the [n] calls of [Publish] were made,
    the first with [x] and the others with null; fewer than [n] only with
    the stop flag up, and never when [calm]. *)
Definition sent (pl : list (option Bytes)) (n : nat) (x : option Bytes)
    (calm : bool) (w : World) : Prop :=
  exists k : nat,
    (k <= n)%nat /\
    published PubNode (trace w) = (pl ++ firstn k (x :: repeat None n))%list /\
    ((k < n)%nat -> stop (gPubTester w) = true) /\
    (calm = true -> k = n).

(** [Init] done, two iterations, and the second reply still on its way when
    the class waits. *)
Definition throughput_race_example : World :=
  final
    (PubTester_Init
       (upd_pub (set_sentMsgs 2)
          (initial_world accept_all accept_all clock_ms
             [Deliver "/benchmark/throughput/reply" (payload 256) 10500]))).

(** A size class during which the other threads are busy: a stray reply
    before the counters are reset, a subscriber that connects and a
    completion between the resets and the store to [dataSize], the first
    reply right after the first call of [Publish], and a stray reply and a
    SIGTERM while the row is written. *)
Definition throughput_race_interleaving : Interleaving :=
  mkInterleaving
    [Deliver "/benchmark/throughput/reply" (payload 256) 500]
    [Connect "/benchmark/throughput/request"]
    []
    [PublishDone true]
    []
    []
    [Connect "/benchmark/throughput/request"]
    [[Deliver "/benchmark/throughput/reply" (payload 256) 4000]; []]
    [Deliver "/benchmark/throughput/reply" (payload 256) 11000; Signal SIGTERM].

(** A size class with a SIGINT handled right after the first call of
    [Publish]. *)
Definition interrupted_sending : Interleaving :=
  mkInterleaving [] [] [] [] [] [] [] [[Signal SIGINT]] [].

(** [Init] done, one iteration, nothing on its way. *)
Definition single_iteration_example : World :=
  final
    (PubTester_Init
       (upd_pub (set_sentMsgs 1)
          (initial_world accept_all accept_all clock_ms []))).

(** A size class with a stray reply handled between [msgCount = 0] and
    [PrepMsg]. *)
Definition stray_reply_interleaving : Interleaving :=
  mkInterleaving [] []
    [Deliver "/benchmark/throughput/reply" (payload 256) 7000]
    [] [] [] [] [] [].

(** * Reasoning about runs *)

Local Open Scope prog_scope.

(** ** Properties that hold however a call ends *)

Section Preserves.

Variable I : World -> Prop.

Lemma preserves_ret {A} (a : A) : preserves I (ret a).
Proof. intros w Hw; exact Hw. Qed.

Lemma preserves_get {A} (f : World -> A) : preserves I (get f).
Proof. intros w Hw; exact Hw. Qed.

Lemma preserves_exit {A} c : preserves I (@exit A c).
Proof. intros w Hw; exact Hw. Qed.

Lemma preserves_modify (f : World -> World) :
  (forall w, I w -> I (f w)) -> preserves I (modify f).
Proof. intros Hf w Hw; simpl; auto. Qed.

Lemma preserves_bind {A B} (m : M A) (k : A -> M B) :
  preserves I m -> (forall a, preserves I (k a)) -> preserves I (bind m k).
Proof.
  intros Hm Hk w Hw; unfold bind.
  specialize (Hm w Hw).
  destruct (m w) as [a w'| w' | w' | c w']; simpl in *; auto.
  apply Hk; exact Hm.
Qed.

Hypothesis I_handle : forall e w, I w -> I (handle e w).
Hypothesis I_pending : forall evs w, I w -> I (set_pending evs w).

Lemma preserves_wait_on pred evs :
  forall w, I w -> I (final (wait_on pred evs w)).
Proof.
  induction evs as [|e evs IH]; intros w Hw; simpl;
    destruct (pred w); simpl; auto.
Qed.

Lemma preserves_wait pred : preserves I (wait pred).
Proof. intros w Hw; apply preserves_wait_on; exact Hw. Qed.

End Preserves.

Lemma bind_Ret {A B} (m : M A) (k : A -> M B) w b w'' :
  bind m k w = Ret b w'' ->
  exists a w', m w = Ret a w' /\ k a w' = Ret b w''.
Proof.
  unfold bind; destruct (m w) as [a w'| | |]; try discriminate.
  intros H; exists a, w'; auto.
Qed.

(** ** No relay activity *)

Lemma no_relay_same w w' :
  trace w' = trace w -> subscriptions w' = subscriptions w ->
  no_relay w -> no_relay w'.
Proof. unfold no_relay; intros -> ->; auto. Qed.

Lemma no_relay_act a w :
  relay_action a = false -> no_relay w -> no_relay (act a w).
Proof.
  unfold no_relay; simpl; intros Ha [Ht Hs]; split; auto.
  rewrite existsb_app, Ht; simpl; rewrite Ha; reflexivity.
Qed.

Lemma run_callback_pub cb m t w :
  relay_callback cb = false ->
  trace (run_callback cb m t w) = trace w /\
  subscriptions (run_callback cb m t w) = subscriptions w /\
  gStop (run_callback cb m t w) = gStop w.
Proof. destruct cb; simpl; intros H; try discriminate; auto. Qed.

Lemma deliver_pub topic m t subs :
  existsb (fun s => relay_callback (snd s)) subs = false ->
  forall w,
    let w' := fold_left
                (fun w' (s : string * Callback) =>
                   if String.eqb (fst s) topic
                   then run_callback (snd s) m t w' else w')
                subs w in
    trace w' = trace w /\ subscriptions w' = subscriptions w /\
    gStop w' = gStop w.
Proof.
  induction subs as [|s subs IH]; simpl; intros Hs w; auto.
  apply orb_false_iff in Hs; destruct Hs as [Hcb Hs].
  destruct (IH Hs (if String.eqb (fst s) topic
                   then run_callback (snd s) m t w else w)) as (Ht & Hsub & Hg).
  rewrite Ht, Hsub, Hg.
  destruct (String.eqb (fst s) topic); auto.
  apply run_callback_pub; exact Hcb.
Qed.

Lemma handle_no_relay e w :
  no_relay w ->
  trace (handle e w) = trace w /\ subscriptions (handle e w) = subscriptions w.
Proof.
  intros [Ht Hs]; destruct e as [topic | topic m t | result | s]; simpl.
  - auto.
  - destruct (deliver_pub topic m t _ Hs w) as (H1 & H2 & _); auto.
  - destruct (inflight w); auto.
  - unfold signalHandler; destruct ((s =? SIGINT) || (s =? SIGTERM)); auto.
Qed.

Lemma no_relay_handle e w : no_relay w -> no_relay (handle e w).
Proof.
  intros H; destruct (handle_no_relay e w H) as [Ht Hs].
  eapply no_relay_same; eauto.
Qed.

Lemma no_relay_pending evs w : no_relay w -> no_relay (set_pending evs w).
Proof. apply no_relay_same; reflexivity. Qed.

Ltac pres_step :=
  match goal with
  | |- preserves _ (bind _ _) => apply preserves_bind; [ | intros ]
  | |- preserves _ (ret _) => apply preserves_ret
  | |- preserves _ (get _) => apply preserves_get
  | |- preserves _ (pub_field _) => apply preserves_get
  | |- preserves _ (exit _) => apply preserves_exit
  | |- preserves _ (if ?b then _ else _) => destruct b
  | |- preserves _ (match ?x with _ => _ end) => destruct x
  end.

Create HintDb no_relay.

Section NoRelay.

Context `{PB : Protobuf}.

Lemma no_relay_wait pred : preserves no_relay (wait pred).
Proof.
  apply preserves_wait; [apply no_relay_handle | apply no_relay_pending].
Qed.

Lemma no_relay_modify f :
  (forall w, trace (f w) = trace w /\ subscriptions (f w) = subscriptions w) ->
  preserves no_relay (modify f).
Proof.
  intros Hf; apply preserves_modify; intros w Hw.
  destruct (Hf w); eapply no_relay_same; eauto.
Qed.

Lemma no_relay_modify_act a :
  relay_action a = false -> preserves no_relay (modify (act a)).
Proof. intros Ha; apply preserves_modify; intros; apply no_relay_act; auto. Qed.

Lemma no_relay_now : preserves no_relay now.
Proof. intros w Hw; exact Hw. Qed.

Lemma no_relay_Advertise topic :
  preserves no_relay (Node_Advertise PubNode topic).
Proof. intros w Hw; simpl; apply no_relay_act; auto. Qed.

Lemma no_relay_Subscribe topic cb :
  relay_callback cb = false ->
  preserves no_relay (Node_Subscribe PubNode topic cb).
Proof.
  intros Hcb w Hw; unfold Node_Subscribe.
  assert (H1 : no_relay (act (Subscribe PubNode topic cb) w))
    by (apply no_relay_act; auto).
  destruct (subscribe_ok w topic); simpl; auto.
  destruct H1 as [Ht Hs]; split; simpl in *; auto.
  rewrite existsb_app, Hs; simpl; rewrite Hcb; reflexivity.
Qed.

Lemma no_relay_PrepMsg size : preserves no_relay (PubTester_PrepMsg size).
Proof.
  intros w Hw; unfold PubTester_PrepMsg.
  destruct (msg (gPubTester w)); simpl; auto.
Qed.

Lemma no_relay_Publish_move pub cb : preserves no_relay (Publish_move pub cb).
Proof.
  intros w Hw; unfold Publish_move, modify; simpl.
  assert (H1 : no_relay (act (Publish PubNode (pub (gPubTester w))
                                (msg (gPubTester w)) cb) w))
    by (apply no_relay_act; auto).
  destruct cb; eapply no_relay_same; try exact H1; reflexivity.
Qed.

Hint Resolve no_relay_wait no_relay_now no_relay_Advertise
  no_relay_Subscribe no_relay_PrepMsg no_relay_Publish_move : no_relay.

Ltac no_relay_tac :=
  repeat first
    [ pres_step
    | solve [auto with no_relay]
    | apply no_relay_modify_act; reflexivity
    | apply no_relay_modify; intros; split; reflexivity ].

Lemma no_relay_Init : preserves no_relay PubTester_Init.
Proof. unfold PubTester_Init; no_relay_tac. Qed.

Lemma no_relay_Throughput_for n : preserves no_relay (Throughput_for n).
Proof. induction n; simpl; no_relay_tac. Qed.

Lemma no_relay_Throughput_sweep sizes :
  forall testNum, preserves no_relay (Throughput_sweep sizes testNum).
Proof.
  induction sizes as [|s sizes IH]; intros testNum; simpl.
  - no_relay_tac.
  - unfold Throughput_class.
    pose proof no_relay_Throughput_for.
    no_relay_tac; auto.
Qed.

Lemma no_relay_Throughput : preserves no_relay PubTester_Throughput.
Proof.
  unfold PubTester_Throughput, OutputHeader.
  pose proof no_relay_Throughput_sweep.
  no_relay_tac; auto.
Qed.

Lemma no_relay_Latency_for n :
  forall acc, preserves no_relay (Latency_for n acc).
Proof.
  induction n; intros acc; simpl; unfold Latency_iteration;
    no_relay_tac; auto.
Qed.

Lemma no_relay_Latency_sweep sizes :
  forall testNum mn mx, preserves no_relay (Latency_sweep sizes testNum mn mx).
Proof.
  induction sizes as [|s sizes IH]; intros testNum mn mx; simpl.
  - no_relay_tac.
  - unfold Latency_class.
    pose proof no_relay_Latency_for.
    no_relay_tac; auto.
Qed.

Lemma no_relay_Latency : preserves no_relay PubTester_Latency.
Proof.
  unfold PubTester_Latency, OutputHeader.
  pose proof no_relay_Latency_sweep.
  no_relay_tac; auto.
Qed.

Lemma no_relay_main f : preserves no_relay (main f).
Proof.
  unfold main, PubTester_SetIterations, PubTester_SetOutputFilename.
  pose proof no_relay_Init.
  pose proof no_relay_Throughput.
  pose proof no_relay_Latency.
  no_relay_tac; auto.
Qed.

End NoRelay.

(** ** Waiting for the stop flag *)

Lemma out_run_callback cb m t w : out (run_callback cb m t w) = out w.
Proof. destruct cb; reflexivity. Qed.

Lemma out_deliver topic m t subs :
  forall w,
    out (fold_left
           (fun w' (s : string * Callback) =>
              if String.eqb (fst s) topic
              then run_callback (snd s) m t w' else w')
           subs w) = out w.
Proof.
  induction subs as [|x subs IH]; simpl; intros w; auto.
  rewrite IH; destruct (String.eqb (fst x) topic); auto.
  apply out_run_callback.
Qed.

Lemma out_handle e w : out (handle e w) = out w.
Proof.
  destruct e as [topic | topic m t | result | s]; simpl; auto.
  - apply out_deliver.
  - destruct (inflight w); auto.
  - unfold signalHandler; destruct ((s =? SIGINT) || (s =? SIGTERM)); auto.
Qed.

Lemma gStop_handle e w :
  no_relay w -> gStop (handle e w) = stop_signal e || gStop w.
Proof.
  intros [Ht Hs]; destruct e as [topic | topic m t | result | s]; simpl; auto.
  - destruct (deliver_pub topic m t _ Hs w) as (_ & _ & Hg); exact Hg.
  - destruct (inflight w); auto.
  - unfold signalHandler; destruct ((s =? SIGINT) || (s =? SIGTERM)); auto.
Qed.

Lemma wait_on_gStop evs :
  forall w, no_relay w ->
    let o := wait_on gStop evs w in
    trace (final o) = trace w /\
    subscriptions (final o) = subscriptions w /\
    out (final o) = out w /\
    returned o = (gStop w || existsb stop_signal evs) /\
    blocked o = negb (gStop w || existsb stop_signal evs) /\
    gStop (final o) = (gStop w || existsb stop_signal evs).
Proof.
  induction evs as [|e evs IH]; intros w Hw; simpl.
  - destruct (gStop w) eqn:Hg; simpl; rewrite ?Hg; auto 10.
  - destruct (gStop w) eqn:Hg; simpl; rewrite ?Hg; auto 10.
    destruct (IH (handle e w) (no_relay_handle e w Hw))
      as (H1 & H2 & H3 & H4 & H5 & H6).
    destruct (handle_no_relay e w Hw) as [Ht Hs].
    rewrite H1, H2, H3, H4, H5, H6, Ht, Hs, out_handle, gStop_handle, Hg by auto.
    rewrite orb_false_r; auto 10.
Qed.

Section MainRelay.

Context `{PB : Protobuf}.

(** C2.  Whatever the flags and whatever the environment does, a run of
    [main] contains no transport request of the relay node and no line
    logged by a relay callback, and no relay callback is ever subscribed:
    [ReplyTester::Start] is not called.  With [-r] (and without [-h]) no
    transport request is made and no report line is written at all; [main]
    returns when the environment sends SIGINT or SIGTERM, which raises the
    global stop flag, and waits for ever otherwise. *)
Theorem main_never_starts_relay :
  forall adv sub clk evs,
    (forall f,
        let o := main f (initial_world adv sub clk evs) in
        existsb relay_action (trace (final o)) = false /\
        existsb (fun s => relay_callback (snd s))
          (subscriptions (final o)) = false) /\
    (forall t l p i outfile,
        let o := main (mkFlags false t l true p i outfile)
                   (initial_world adv sub clk evs) in
        trace (final o) = [] /\
        subscriptions (final o) = [] /\
        out (final o) = [] /\
        returned o = existsb stop_signal evs /\
        blocked o = negb (existsb stop_signal evs) /\
        gStop (final o) = existsb stop_signal evs).
Proof.
  intros adv sub clk evs; split.
  - intros f; apply (no_relay_main f); split; reflexivity.
  - intros t l p i outfile.
    set (w1 := set_replyTester (Some Tester_ctor)
                 (upd_pub (set_filename outfile)
                    (upd_pub (set_sentMsgs i)
                       (initial_world adv sub clk evs)))).
    assert (Hw1 : no_relay w1) by (split; reflexivity).
    pose proof (wait_on_gStop evs w1 Hw1) as H; simpl in H.
    assert (Hmain :
              main (mkFlags false t l true p i outfile)
                (initial_world adv sub clk evs)
              = match wait_on gStop evs w1 with
                | Ret _ w' => Ret 0 (set_replyTester None w')
                | Blocked w' => Blocked w'
                | Crashed w' => Crashed w'
                | Exited c w' => Exited c w'
                end).
    { unfold main, bind, wait; simpl. fold w1.
      destruct (wait_on gStop evs w1); reflexivity. }
    cbv zeta; rewrite Hmain.
    destruct (wait_on gStop evs w1); simpl in *; exact H.
Qed.

End MainRelay.

(** ** Throughput: the counters of one size class *)

Lemma wrap64_add_l a b : wrap64 (wrap64 a + b) = wrap64 (a + b).
Proof. unfold wrap64; apply Zplus_mod_idemp_l. Qed.

Lemma wrap64_mul_l a b : wrap64 (wrap64 a * b) = wrap64 (a * b).
Proof. unfold wrap64; apply Zmult_mod_idemp_l. Qed.

Lemma wrap64_small a : 0 <= a < 2 ^ 64 -> wrap64 a = a.
Proof. intros H; unfold wrap64; apply Z.mod_small; exact H. Qed.

Lemma deliver_ind (I : World -> Prop) topic m t :
  (forall cb w, I w -> I (run_callback cb m t w)) ->
  forall subs w,
    I w ->
    I (fold_left
         (fun w' (s : string * Callback) =>
            if String.eqb (fst s) topic
            then run_callback (snd s) m t w' else w')
         subs w).
Proof.
  intros Hcb; induction subs as [|x subs IH]; simpl; intros w Hw; auto.
  apply IH; destruct (String.eqb (fst x) topic); auto.
Qed.

Lemma counters_inv_callback o0 d0 n0 cb m t w :
  counters_inv o0 d0 n0 w -> counters_inv o0 d0 n0 (run_callback cb m t w).
Proof.
  intros (Ho & Hd & Hn & Ht).
  destruct cb; simpl; unfold counters_inv; simpl; auto.
  unfold PubTester_ThroughputCb; simpl.
    assert (Hinv : wrap64 (totalBytes (gPubTester w) + dataSize (gPubTester w))
                   = wrap64 (wrap64 (msgCount (gPubTester w) + 1) * d0)).
    { rewrite Ht, Hd, wrap64_add_l, wrap64_mul_l. f_equal; ring. }
    destruct (sentMsgs (gPubTester w) <=? wrap64 (msgCount (gPubTester w) + 1));
      simpl; auto.
Qed.

Lemma counters_inv_handle o0 d0 n0 e w :
  counters_inv o0 d0 n0 w -> counters_inv o0 d0 n0 (handle e w).
Proof.
  intros Hw; destruct e as [topic | topic m t | result | s]; simpl.
  - exact Hw.
  - apply deliver_ind; auto.
    intros; apply counters_inv_callback; auto.
  - destruct (inflight w); auto.
  - unfold signalHandler; destruct ((s =? SIGINT) || (s =? SIGTERM)); auto.
Qed.

Lemma counters_inv_wait o0 d0 n0 pred :
  preserves (counters_inv o0 d0 n0) (wait pred).
Proof.
  apply preserves_wait; intros; [apply counters_inv_handle|]; auto.
Qed.

Tactic Notation "bind_inv" hyp(H) "as" ident(a) ident(w) ident(H1) :=
  apply bind_Ret in H; destruct H as (a & w & H1 & H).

Lemma modify_Ret f w a w' : modify f w = Ret a w' -> w' = f w.
Proof. unfold modify; intros H; inversion H; reflexivity. Qed.

Lemma get_Ret {A} (f : World -> A) w a w' :
  get f w = Ret a w' -> a = f w /\ w' = w.
Proof. unfold get; intros H; inversion H; auto. Qed.

Lemma now_Ret w a w' :
  now w = Ret a w' -> a = clock w (reads w) /\ w' = set_reads (S (reads w)) w.
Proof. unfold now; intros H; inversion H; auto. Qed.

Lemma preserves_Ret {A} (I : World -> Prop) (m : M A) w a w' :
  preserves I m -> I w -> m w = Ret a w' -> I w'.
Proof. intros Hm Hw Hr; specialize (Hm w Hw); rewrite Hr in Hm; exact Hm. Qed.

Section ThroughputClass.

Context `{PB : Protobuf}.

Lemma PrepMsg_Ret size w a w' :
  PubTester_PrepMsg size w = Ret a w' ->
  w' = upd_pub
         (fun p =>
            set_dataSize (serializedSize size)
              (set_msg (Some (mkBytes (fill_buffer size ++ c_string_tail size))) p))
         w.
Proof.
  unfold PubTester_PrepMsg; destruct (msg (gPubTester w)); intros H;
    inversion H; reflexivity.
Qed.

Lemma counters_inv_Publish_move o0 d0 n0 pub cb :
  preserves (counters_inv o0 d0 n0) (Publish_move pub cb).
Proof.
  apply preserves_modify; intros w Hw; destruct cb; exact Hw.
Qed.

Lemma counters_inv_Throughput_for o0 d0 n0 n :
  preserves (counters_inv o0 d0 n0) (Throughput_for n).
Proof.
  induction n; simpl; repeat pres_step; auto.
  apply counters_inv_Publish_move.
Qed.


End ThroughputClass.

(** ** Latency: the iterations of one size class *)

Lemma measured_app tr1 tr2 :
  measured (tr1 ++ tr2) = (measured tr1 ++ measured tr2)%list.
Proof. unfold measured; apply flat_map_app. Qed.

Lemma lat_frame_callback o0 d0 n0 l0 cb m t w :
  lat_frame o0 d0 n0 l0 w -> lat_frame o0 d0 n0 l0 (run_callback cb m t w).
Proof.
  intros (Ho & Hd & Hn & Hl).
  destruct cb; simpl; unfold lat_frame; simpl; auto.
  - unfold PubTester_ThroughputCb; simpl.
    destruct (sentMsgs (gPubTester w) <=? wrap64 (msgCount (gPubTester w) + 1));
      simpl; auto.
  - rewrite measured_app, Hl; simpl; rewrite app_nil_r; auto.
  - rewrite measured_app, Hl; simpl; rewrite app_nil_r; auto.
Qed.

Lemma lat_frame_handle o0 d0 n0 l0 e w :
  lat_frame o0 d0 n0 l0 w -> lat_frame o0 d0 n0 l0 (handle e w).
Proof.
  intros Hw; destruct e as [topic | topic m t | result | s]; simpl.
  - exact Hw.
  - apply deliver_ind; auto.
    intros; apply lat_frame_callback; auto.
  - destruct (inflight w); auto.
  - unfold signalHandler; destruct ((s =? SIGINT) || (s =? SIGTERM)); auto.
Qed.

Lemma lat_frame_wait o0 d0 n0 l0 pred :
  preserves (lat_frame o0 d0 n0 l0) (wait pred).
Proof.
  apply preserves_wait; intros; [apply lat_frame_handle|]; auto.
Qed.

Lemma lat_frame_Publish_move o0 d0 n0 l0 pub cb :
  preserves (lat_frame o0 d0 n0 l0) (Publish_move pub cb).
Proof.
  apply preserves_modify; intros w (Ho & Hd & Hn & Hl).
  destruct cb; unfold lat_frame; simpl;
    rewrite measured_app, Hl; simpl; rewrite app_nil_r; auto.
Qed.

Lemma Zmin_code a d : (if d <? a then d else a) = Z.min a d.
Proof. destruct (Z.ltb_spec d a); lia. Qed.

Lemma Zmax_code a d : (if a <? d then d else a) = Z.max a d.
Proof. destruct (Z.ltb_spec a d); lia. Qed.

Section LatencyClass.

Context `{PB : Protobuf}.

Lemma Latency_iteration_Ret acc w acc' w' o0 d0 n0 l0 :
  Latency_iteration acc w = Ret acc' w' ->
  lat_frame o0 d0 n0 l0 w ->
  exists d,
    acc' = mkLatAcc (wrap64 (sum acc + d)) (Z.min (minLatency acc) d)
             (Z.max (maxLatency acc) d) /\
    lat_frame o0 d0 n0 (l0 ++ [d]) w'.
Proof.
  intros H Hw; unfold Latency_iteration in H.
  bind_inv H as timeStart w1 H1. apply now_Ret in H1; destruct H1 as [_ H1].
  bind_inv H as u2 w2 H2. apply modify_Ret in H2.
  bind_inv H as u3 w3 H3.
  bind_inv H as u4 w4 H4.
  bind_inv H as m w5 H5. apply get_Ret in H5; destruct H5 as [_ H5].
  bind_inv H as u6 w6 H6.
  bind_inv H as te w7 H7. apply get_Ret in H7; destruct H7 as [_ H7].
  bind_inv H as u8 w8 H8. apply modify_Ret in H8.
  inversion H; subst acc' w'; clear H.
  assert (F2 : lat_frame o0 d0 n0 l0 w2) by (subst w2 w1; exact Hw).
  eapply preserves_Ret in H3; [ | apply lat_frame_Publish_move | exact F2 ].
  eapply preserves_Ret in H4; [ | apply lat_frame_wait | exact H3 ].
  assert (F6 : lat_frame o0 d0 n0 l0 w6).
  { subst w5; destruct m.
    - inversion H6; subst; exact H4.
    - eapply preserves_Ret in H6; [exact H6 | apply lat_frame_wait | exact H4]. }
  exists (micros timeStart te); split.
  - rewrite Zmin_code, Zmax_code; reflexivity.
  - subst w8 w7; destruct F6 as (Ho & Hd & Hn & Hl).
    unfold lat_frame; simpl; rewrite measured_app, Hl; auto.
Qed.

Lemma Latency_for_Ret n :
  forall acc w acc' w' o0 d0 n0 l0,
    Latency_for n acc w = Ret acc' w' ->
    lat_frame o0 d0 n0 l0 w ->
    wrap64 (sum acc) = sum acc ->
    exists ds,
      lat_frame o0 d0 n0 (l0 ++ ds) w' /\
      (List.length ds <= n)%nat /\
      ((List.length ds < n)%nat -> stop (gPubTester w') = true) /\
      sum acc' = wrap64 (sum acc + Zsum ds) /\
      minLatency acc' = fold_left Z.min ds (minLatency acc) /\
      maxLatency acc' = fold_left Z.max ds (maxLatency acc).
Proof.
  induction n as [|n IH]; intros acc w acc' w' o0 d0 n0 l0 H Hw Hr;
    simpl in H.
  - inversion H; subst; exists []; rewrite app_nil_r; simpl.
    rewrite Z.add_0_r, Hr.
    split; [exact Hw | repeat split; auto; intros; lia].
  - bind_inv H as stopped w1 H1. apply get_Ret in H1; destruct H1 as [Hs H1].
    subst w1; destruct stopped.
    + inversion H; subst; exists []; rewrite app_nil_r; simpl.
      rewrite Z.add_0_r, Hr.
      split; [exact Hw | repeat split; auto; intros; lia].
    + bind_inv H as acc1 w1 H1.
      destruct (Latency_iteration_Ret _ _ _ _ _ _ _ _ H1 Hw) as (d & Hacc & F1).
      assert (Hr1 : wrap64 (sum acc1) = sum acc1).
      { subst acc1; simpl; unfold wrap64; apply Z.mod_mod; lia. }
      destruct (IH _ _ _ _ _ _ _ _ H F1 Hr1)
        as (ds & F & Hlen & Hstop & Hsum & Hmin & Hmax).
      exists (d :: ds); rewrite <- app_assoc in F; simpl in *.
      subst acc1; simpl in *.
      split; [exact F | repeat split; auto; try lia].
      * intros Hlt; apply Hstop; lia.
      * rewrite Hsum, wrap64_add_l; f_equal; lia.
Qed.

(** The row that the measurement of a size class appends, in terms of the
    durations of the iterations that ran. *)
Lemma Latency_class_row :
  forall msgSize testNum min0 max0 w acc w',
    Latency_class msgSize testNum min0 max0 w = Ret acc w' ->
    let N := sentMsgs (gPubTester w) in
    exists ds,
      measured (trace w') = (measured (trace w) ++ ds)%list /\
      (List.length ds <= Z.to_nat N)%nat /\
      ((List.length ds < Z.to_nat N)%nat -> stop (gPubTester w') = true) /\
      out w' = (out w ++
                [LatencyRow testNum (serializedSize msgSize)
                   (DMul (DDiv (DU64 (wrap64 (Zsum ds))) (DU64 N))
                      (DLit lit_0_5))
                   (DMul (DU64 (fold_left Z.min ds min0)) (DLit lit_0_5))
                   (DMul (DU64 (fold_left Z.max ds max0)) (DLit lit_0_5))])%list.
Proof.
  intros msgSize testNum min0 max0 w acc w' H N.
  unfold Latency_class in H.
  bind_inv H as u1 w1 H1. apply PrepMsg_Ret in H1.
  bind_inv H as n w2 H2. apply get_Ret in H2; destruct H2 as [Hn H2].
  bind_inv H as acc1 w3 H3.
  bind_inv H as p w4 H4. apply get_Ret in H4; destruct H4 as [Hp H4].
  bind_inv H as u5 w5 H5. apply modify_Ret in H5.
  inversion H; subst acc1 w'; clear H.
  assert (F : lat_frame (out w) (serializedSize msgSize) N
                (measured (trace w)) w2).
  { subst w2 w1; unfold lat_frame; simpl; auto. }
  destruct (Latency_for_Ret _ _ _ _ _ _ _ _ _ H3 F eq_refl)
    as (ds & (Ho & Hd & Hs & Hl) & Hlen & Hstop & Hsum & Hmin & Hmax).
  assert (HnN : n = N) by (subst n w2 w1; reflexivity).
  exists ds; subst w5 w4 p; unfold emit; cbn [out trace gPubTester].
  rewrite <- HnN, Hl, Ho, Hd, Hs, Hsum, Hmin, Hmax; simpl.
  rewrite HnN in *; auto.
Qed.

(** Once the stop flag of the tester is up, the iteration loop runs no
    iteration. *)
Lemma Latency_for_stopped n acc w :
  stop (gPubTester w) = true -> Latency_for n acc w = Ret acc w.
Proof.
  intros Hs; destruct n; simpl; auto.
  unfold bind, pub_field, get; rewrite Hs; reflexivity.
Qed.

End LatencyClass.

(** ** Channel names *)

Lemma span_digits ds suffix :
  all_digits ds = true -> starts_with_letter suffix = true ->
  take_digits (ds ++ suffix) = ds /\ drop_digits (ds ++ suffix) = suffix.
Proof.
  intros Hd Hs; induction ds as [|c ds IH]; simpl in *.
  - destruct suffix as [|c s]; simpl in *; auto.
    apply negb_true_iff in Hs; rewrite Hs; auto.
  - apply andb_true_iff in Hd; destruct Hd as [Hc Hd].
    rewrite Hc; destruct (IH Hd) as [-> ->]; auto.
Qed.

Lemma string_of_uint_digits d :
  all_digits (NilEmpty.string_of_uint d) = true.
Proof. induction d; simpl; auto. Qed.

Lemma to_string_digits n : all_digits (to_string n) = true.
Proof.
  unfold to_string, NilZero.string_of_uint.
  destruct (N.to_uint (Z.to_N n)); try reflexivity;
    apply (string_of_uint_digits (_ _)).
Qed.

Lemma to_string_nonempty n :
  exists c s, to_string n = String c s /\ is_digit c = true.
Proof.
  pose proof (to_string_digits n) as H.
  unfold to_string, NilZero.string_of_uint in *.
  destruct (N.to_uint (Z.to_N n)); simpl in *;
    try (apply andb_true_iff in H; destruct H as [H _]); eauto.
Qed.

Lemma N_to_uint_nonnil n : N.to_uint n <> Decimal.Nil.
Proof.
  destruct n; simpl; [discriminate | apply DecimalPos.Unsigned.to_uint_nonnil].
Qed.

Lemma to_string_inj a b : 0 <= a -> 0 <= b -> to_string a = to_string b -> a = b.
Proof.
  intros Ha Hb H; unfold to_string in H.
  apply (f_equal NilZero.uint_of_string) in H.
  rewrite !NilZero.usu in H by apply N_to_uint_nonnil.
  injection H as H; apply DecimalN.Unsigned.to_uint_inj in H; lia.
Qed.

Lemma sized_name_inj a b suffix suffix' :
  0 <= a -> 0 <= b ->
  starts_with_letter suffix = true -> starts_with_letter suffix' = true ->
  to_string a ++ suffix = to_string b ++ suffix' -> a = b /\ suffix = suffix'.
Proof.
  intros Ha Hb Hs Hs' H.
  destruct (span_digits _ _ (to_string_digits a) Hs) as [T D].
  destruct (span_digits _ _ (to_string_digits b) Hs') as [T' D'].
  rewrite H in T, D; split.
  - apply to_string_inj; congruence.
  - congruence.
Qed.

Lemma unsized_name_differs a suffix suffix' :
  starts_with_letter suffix' = true -> suffix' <> EmptyString ->
  suffix' <> to_string a ++ suffix.
Proof.
  intros Hs Hne H.
  destruct (to_string_nonempty a) as (c & s & Hc & Hd).
  rewrite Hc in H; destruct suffix'; [congruence|].
  simpl in *; injection H as -> _; rewrite Hd in Hs; discriminate.
Qed.

Lemma topics_used_app n tr1 tr2 :
  topics_used n (tr1 ++ tr2) = (topics_used n tr1 ++ topics_used n tr2)%list.
Proof. unfold topics_used; apply flat_map_app. Qed.

Lemma topics_frame_handle n l e w :
  topics_frame n l w -> topics_frame n l (handle e w).
Proof.
  intros Hw; destruct e as [topic | topic m t | result | s]; simpl.
  - exact Hw.
  - apply deliver_ind; auto.
    intros cb w0 H0; destruct cb; simpl; auto;
      unfold topics_frame in *; simpl;
      rewrite topics_used_app, H0; simpl; apply app_nil_r.
  - destruct (inflight w); auto.
  - unfold signalHandler; destruct ((s =? SIGINT) || (s =? SIGTERM)); auto.
Qed.

Lemma topics_frame_wait n l pred : preserves (topics_frame n l) (wait pred).
Proof.
  apply preserves_wait; intros; [apply topics_frame_handle|]; auto.
Qed.

Lemma unsized_topic_differs prefix a suffix suffix' :
  starts_with_letter suffix' = true -> suffix' <> EmptyString ->
  prefix ++ suffix' <> prefix ++ to_string a ++ suffix.
Proof.
  intros Hs Hne H; induction prefix as [|c p IH]; simpl in H.
  - exact (unsized_name_differs a suffix suffix' Hs Hne H).
  - injection H as H; auto.
Qed.

Lemma prefix_cancel p a b : p ++ a = p ++ b -> a = b.
Proof. induction p as [|c p IH]; simpl; intros H; [|injection H as H]; auto. Qed.

Section ChannelNames.

Context `{PB : Protobuf}.

Lemma topics_frame_Start_while_true n l fuel :
  preserves (topics_frame n l) (Start_while_true fuel).
Proof.
  induction fuel as [|fuel IH]; simpl.
  - intros w Hw; exact Hw.
  - repeat pres_step; auto.
    + apply topics_frame_wait.
    + apply preserves_modify; intros w Hw; exact Hw.
Qed.

Lemma topics_within_same n allowed w w' :
  trace w' = trace w -> topics_within n allowed w -> topics_within n allowed w'.
Proof. unfold topics_within; intros ->; auto. Qed.

Lemma topics_within_act n allowed a w :
  incl (topics_used n [a]) allowed ->
  topics_within n allowed w -> topics_within n allowed (act a w).
Proof.
  unfold topics_within; simpl; intros Ha Hw.
  rewrite topics_used_app; apply incl_app; auto.
Qed.

Lemma topics_within_wait n allowed pred :
  preserves (topics_within n allowed) (wait pred).
Proof.
  apply preserves_wait; intros; auto.
  unfold topics_within.
  rewrite (topics_frame_handle n _ e w eq_refl); auto.
Qed.

Lemma topics_within_Start_while_true n allowed fuel :
  preserves (topics_within n allowed) (Start_while_true fuel).
Proof.
  induction fuel as [|fuel IH]; simpl.
  - intros w Hw; exact Hw.
  - repeat pres_step; auto.
    + apply topics_within_wait.
    + apply preserves_modify; intros w Hw; exact Hw.
Qed.

Lemma topics_within_Advertise n allowed topic :
  In topic allowed ->
  preserves (topics_within n allowed) (Node_Advertise n topic).
Proof.
  intros Hin w Hw; simpl; apply topics_within_act; auto.
  destruct n; simpl; intros x [<-|[]]; auto.
Qed.

Lemma topics_within_Subscribe n allowed topic cb :
  In topic allowed ->
  preserves (topics_within n allowed) (Node_Subscribe n topic cb).
Proof.
  intros Hin w Hw; unfold Node_Subscribe.
  assert (H1 : topics_within n allowed (act (Subscribe n topic cb) w)).
  { apply topics_within_act; auto.
    destruct n; simpl; intros x [<-|[]]; auto. }
  destruct (subscribe_ok w topic); simpl; auto.
Qed.

Lemma topics_within_Cerr n allowed line :
  preserves (topics_within n allowed) (modify (act (Cerr line))).
Proof.
  apply preserves_modify; intros w Hw; apply topics_within_act; auto.
  destruct n; simpl; intros x [].
Qed.

Lemma Start_body_topics S allowed :
  incl [relay_topic ThroughputMode Reply S; relay_topic LatencyMode Reply S;
        relay_topic ThroughputMode Request S;
        relay_topic LatencyMode Request S] allowed ->
  preserves (topics_within RelayNode allowed) (Start_body S).
Proof.
  intros Hall; unfold Start_body.
  assert (H1 : In (Topic.throughputTopicReply S) allowed)
    by (apply Hall; simpl; auto).
  assert (H2 : In (Topic.latencyTopicReply S) allowed)
    by (apply Hall; simpl; auto).
  assert (H3 : In (Topic.throughputTopicRequest S) allowed)
    by (apply Hall; simpl; auto).
  assert (H4 : In (Topic.latencyTopicRequest S) allowed)
    by (apply Hall; simpl; auto).
  repeat first
    [ pres_step
    | apply topics_within_Advertise; assumption
    | apply topics_within_Subscribe; assumption
    | apply topics_within_Cerr
    | apply topics_within_Start_while_true
    | apply preserves_modify; intros w Hw; exact Hw ].
Qed.

Lemma Init_topics allowed :
  incl [pub_topic ThroughputMode Request; pub_topic LatencyMode Request;
        pub_topic ThroughputMode Reply; pub_topic LatencyMode Reply] allowed ->
  preserves (topics_within PubNode allowed) PubTester_Init.
Proof.
  intros Hall; unfold PubTester_Init.
  assert (H1 : In Topic.pubThroughputRequest allowed)
    by (apply Hall; simpl; auto).
  assert (H2 : In Topic.pubLatencyRequest allowed)
    by (apply Hall; simpl; auto).
  assert (H3 : In Topic.pubThroughputReply allowed)
    by (apply Hall; simpl; auto).
  assert (H4 : In Topic.pubLatencyReply allowed)
    by (apply Hall; simpl; auto).
  repeat first
    [ pres_step
    | apply topics_within_Advertise; assumption
    | apply topics_within_Subscribe; assumption
    | apply topics_within_Cerr
    | apply preserves_modify; intros w Hw; exact Hw
    | apply preserves_modify; intros w Hw; apply topics_within_act;
      [intros x [] | exact Hw] ].
Qed.

(** The loop at the end of the body of [Start] has no exit: whatever the
    fuel, it does not return. *)
Lemma Start_while_true_never_returns fuel :
  forall w, returned (Start_while_true fuel w) = false.
Proof.
  induction fuel as [|fuel IH]; intros w; simpl; auto.
  unfold bind.
  destruct (wait (fun w0 => 0 <? relay_field sizeReceived 0 w0) w); simpl; auto.
Qed.

(** So the body of the [for] loop of [Start] returns only through one of
    its error exits, and [Start] never gets to a second size. *)
Lemma Start_body_never_continues size w b w' :
  Start_body size w = Ret b w' -> b = false.
Proof.
  unfold Start_body; intros H.
  bind_inv H as pub1 w1 H1. bind_inv H as u2 w2 H2.
  destruct pub1; [|bind_inv H as u w3 H3; inversion H; reflexivity].
  bind_inv H as pub2 w3 H3. bind_inv H as u4 w4 H4.
  destruct pub2; [|bind_inv H as u w5 H5; inversion H; reflexivity].
  bind_inv H as ok1 w5 H5.
  destruct ok1; simpl in H;
    [|bind_inv H as u w6 H6; inversion H; reflexivity].
  bind_inv H as ok2 w6 H6.
  destruct ok2; simpl in H;
    [|bind_inv H as u w7 H7; inversion H; reflexivity].
  bind_inv H as n w7 H7.
  bind_inv H as u8 w8 H8.
  pose proof (Start_while_true_never_returns n w7) as Hn.
  rewrite H8 in Hn; discriminate Hn.
Qed.

(** X1.  The four names [ReplyTester::Start] builds for a size determine
    the mode, the direction and the size, so no relay channel is shared between
    two sizes, and the loop body for a size advertises and subscribes to
    those four names only.  [PubTester::Init] advertises and subscribes to
    four fixed names without a size, and none of them is a name of the relay
    for any size. *)
Theorem relay_topics_namespaced_by_size :
  (forall m d m' d' S S',
      0 <= S -> 0 <= S' ->
      relay_topic m d S = relay_topic m' d' S' ->
      m = m' /\ d = d' /\ S = S') /\
  (forall m d m' d' S, pub_topic m d <> relay_topic m' d' S) /\
  (forall S w,
      incl (topics_used RelayNode (trace (final (Start_body S w))))
        (topics_used RelayNode (trace w) ++
         [relay_topic ThroughputMode Reply S; relay_topic LatencyMode Reply S;
          relay_topic ThroughputMode Request S;
          relay_topic LatencyMode Request S])) /\
  (forall w,
      incl (topics_used PubNode (trace (final (PubTester_Init w))))
        (topics_used PubNode (trace w) ++
         [pub_topic ThroughputMode Request; pub_topic LatencyMode Request;
          pub_topic ThroughputMode Reply; pub_topic LatencyMode Reply])).
Proof.
  split; [|split; [|split]].
  - intros m d m' d' S S' HS HS' H.
    destruct m, d, m', d'; unfold relay_topic, Topic.throughputTopicReply,
      Topic.latencyTopicReply, Topic.throughputTopicRequest,
      Topic.latencyTopicRequest in H;
      try (exfalso; simpl in H; discriminate H);
      apply prefix_cancel in H;
      apply sized_name_inj in H; try reflexivity; try assumption;
      destruct H as [HSS Hsuf]; try discriminate Hsuf; auto.
  - intros m d m' d' S H.
    destruct m, d, m', d'; unfold pub_topic, relay_topic,
      Topic.pubThroughputRequest, Topic.pubLatencyRequest,
      Topic.pubThroughputReply, Topic.pubLatencyReply,
      Topic.throughputTopicReply, Topic.latencyTopicReply,
      Topic.throughputTopicRequest, Topic.latencyTopicRequest in H;
      try (simpl in H; discriminate H);
      first
        [ exact (unsized_topic_differs "/benchmark/throughput/" S
                   "reply" "request" eq_refl ltac:(discriminate) H)
        | exact (unsized_topic_differs "/benchmark/throughput/" S
                   "request" "request" eq_refl ltac:(discriminate) H)
        | exact (unsized_topic_differs "/benchmark/throughput/" S
                   "reply" "reply" eq_refl ltac:(discriminate) H)
        | exact (unsized_topic_differs "/benchmark/throughput/" S
                   "request" "reply" eq_refl ltac:(discriminate) H)
        | exact (unsized_topic_differs "/benchmark/latency/" S
                   "reply" "request" eq_refl ltac:(discriminate) H)
        | exact (unsized_topic_differs "/benchmark/latency/" S
                   "request" "request" eq_refl ltac:(discriminate) H)
        | exact (unsized_topic_differs "/benchmark/latency/" S
                   "reply" "reply" eq_refl ltac:(discriminate) H)
        | exact (unsized_topic_differs "/benchmark/latency/" S
                   "request" "reply" eq_refl ltac:(discriminate) H) ].
  - intros S w.
    apply (Start_body_topics S); [apply incl_appr, incl_refl|].
    apply incl_appl, incl_refl.
  - intros w.
    apply (Init_topics _ (incl_appr _ (incl_refl _))).
    apply incl_appl, incl_refl.
Qed.

End ChannelNames.

(** * Runs on concrete inputs *)

(** ** The relay *)

(** C1.  A relay that has run [Start] receives the 256-byte payload on
    [/benchmark/latency/256request]: the subscribed lambda logs a line and
    publishes nothing, and [Start] keeps waiting.  The member function
    [LatencyCb], which no subscription names, would publish a fresh
    one-character message on the reply channel, not the payload received. *)
Theorem relay_callbacks_do_not_echo :
  let request := payload 256 in
  let w0 := set_replyTester (Some Tester_ctor)
              (initial_world accept_all accept_all clock_ms
                 [Deliver "/benchmark/latency/256request" request 5]) in
  let o := ReplyTester_Start w0 in
  blocked o = true /\
  trace (final o) =
    [Advertise RelayNode "/benchmark/throughput/256reply";
     Advertise RelayNode "/benchmark/latency/256reply";
     Subscribe RelayNode "/benchmark/throughput/256request" (Relay_throughputCb 256);
     Subscribe RelayNode "/benchmark/latency/256request" (Relay_latencyCb 256);
     Cout "Received latency cb for size 256"] /\
  published RelayNode (trace (final o)) = [] /\
  published RelayNode (trace (final (ReplyTester_LatencyCb request (final o))))
    = [Some (mkBytes ["0"%char])] /\
  mkBytes ["0"%char] <> request.
Proof.
  cbv zeta; repeat split; try (vm_compute; reflexivity).
  vm_compute; discriminate.
Qed.

(** ** Throughput *)

(** C3.  [./bench -t -p -i 2] with a subscriber connected: the first size
    class publishes twice before it waits; the first call carries the
    256-byte payload and the second a null pointer, because the first call
    moved the message out of [msg]. *)
Theorem throughput_second_publish_is_null :
  let o := main (mkFlags false true false false true 2 "")
             (initial_world accept_all accept_all clock_ms
                [Connect "/benchmark/throughput/request"]) in
  blocked o = true /\
  published PubNode (trace (final o)) = [Some (payload 256); None].
Proof. cbv zeta; split; vm_compute; reflexivity. Qed.

(** C10.  [./bench -t -p -i 1] with a subscriber connected and the reply to
    the one message of the first size class delivered, and no signal: the
    report gets the row of size 256 only, and the run then dereferences the
    null [msg] in [PrepMsg] for size 512.  The sweep of the driver has the
    fifteen sizes of the sweep of [Tester]. *)
Theorem throughput_sweep_stops_after_first_row :
  let o := main (mkFlags false true false false true 1 "")
             (initial_world accept_all accept_all clock_ms
                [Connect "/benchmark/throughput/request";
                 Deliver "/benchmark/throughput/reply" (payload 256) 10500]) in
  crashed o = true /\
  gStop (final o) = false /\
  stop (gPubTester (final o)) = false /\
  msg (gPubTester (final o)) = None /\
  out (final o) =
    [HeaderLines;
     ColumnHeader throughput_columns;
     ThroughputRow 1 259
       (DDiv (DMul (DU64 259) (DLit lit_1e_6)) (DMul (DU64 10) (DLit lit_1e_6)))
       (DDiv (DMul (DU64 1) (DLit lit_1e_3)) (DMul (DU64 10) (DLit lit_1e_6)))] /\
  PubTester_msgSizes = Tester_msgSizes /\
  List.length PubTester_msgSizes = 15%nat.
Proof. cbv zeta; repeat split; vm_compute; reflexivity. Qed.


(** ** Latency *)

(** C4.  [./bench -l -p -i 3]: the first exchange completes in 10
    microseconds, SIGINT arrives while the second waits for its reply.  The
    loop stops after the second iteration and the row is written, but its
    average is 10/3 halved, not the 10 of the one completed exchange halved,
    and its minimum is the 0 of the interrupted iteration. *)
Theorem latency_average_not_over_completed :
  let o := main (mkFlags false false true false true 3 "")
             (initial_world accept_all accept_all clock_ms
                [Connect "/benchmark/latency/request";
                 Deliver "/benchmark/latency/reply" (payload 256) 10500;
                 PublishDone true;
                 Signal SIGINT;
                 PublishDone true]) in
  let avg := DMul (DDiv (DU64 10) (DU64 3)) (DLit lit_0_5) in
  let mn := DMul (DU64 0) (DLit lit_0_5) in
  let mx := DMul (DU64 10) (DLit lit_0_5) in
  returned o = true /\
  measured (trace (final o)) = [10; 0] /\
  out (final o) =
    [HeaderLines;
     ColumnHeader latency_columns;
     LatencyRow 1 259 avg mn mx] /\
  ~ Qeq (dexact avg) (completed_avg [10]) /\
  ~ Qeq (dexact mn) (completed_min [10]).
Proof.
  cbv zeta; repeat split; try (vm_compute; reflexivity);
    intros H; vm_compute in H; discriminate H.
Qed.

(** C5.  [./bench -l -p -i 1]: the exchange of the first size class takes
    10 microseconds and that of the second 20.  The second row has the
    average of its class, but its minimum is the 10 of the first class. *)
Theorem latency_row_min_from_earlier_class :
  let o := main (mkFlags false false true false true 1 "")
             (initial_world accept_all accept_all clock_ms
                [Connect "/benchmark/latency/request";
                 Deliver "/benchmark/latency/reply" (payload 256) 10500;
                 PublishDone true;
                 Deliver "/benchmark/latency/reply" (payload 512) 1020999;
                 PublishDone true]) in
  let mn2 := DMul (DU64 10) (DLit lit_0_5) in
  measured (trace (final o)) = [10; 20] /\
  out (final o) =
    [HeaderLines;
     ColumnHeader latency_columns;
     LatencyRow 1 259
       (DMul (DDiv (DU64 10) (DU64 1)) (DLit lit_0_5))
       (DMul (DU64 10) (DLit lit_0_5))
       (DMul (DU64 10) (DLit lit_0_5));
     LatencyRow 2 515
       (DMul (DDiv (DU64 20) (DU64 1)) (DLit lit_0_5))
       mn2
       (DMul (DU64 20) (DLit lit_0_5))] /\
  ~ Qeq (dexact mn2) (completed_min [20]).
Proof.
  cbv zeta; repeat split; try (vm_compute; reflexivity);
    intros H; vm_compute in H; discriminate H.
Qed.

(** C7.  [./bench -l -p -i 1]: the exchange of the first size class takes
    30 microseconds and that of the second 20.  The sum starts again from
    zero for the second class, but its row reports the maximum of the first
    class: [minLatency] and [maxLatency] are not reset between classes. *)
Theorem latency_max_carried_into_next_class :
  let o := main (mkFlags false false true false true 1 "")
             (initial_world accept_all accept_all clock_ms
                [Connect "/benchmark/latency/request";
                 Deliver "/benchmark/latency/reply" (payload 256) 30999;
                 PublishDone true;
                 Deliver "/benchmark/latency/reply" (payload 512) 1020000;
                 PublishDone true]) in
  let mx2 := DMul (DU64 30) (DLit lit_0_5) in
  measured (trace (final o)) = [30; 20] /\
  out (final o) =
    [HeaderLines;
     ColumnHeader latency_columns;
     LatencyRow 1 259
       (DMul (DDiv (DU64 30) (DU64 1)) (DLit lit_0_5))
       (DMul (DU64 30) (DLit lit_0_5))
       (DMul (DU64 30) (DLit lit_0_5));
     LatencyRow 2 515
       (DMul (DDiv (DU64 20) (DU64 1)) (DLit lit_0_5))
       (DMul (DU64 20) (DLit lit_0_5))
       mx2] /\
  ~ Qeq (dexact mx2) (completed_max [20]).
Proof.
  cbv zeta; repeat split; try (vm_compute; reflexivity);
    intros H; vm_compute in H; discriminate H.
Qed.

(** C8.  [./bench -l -p -i 1]: SIGINT arrives while the first exchange waits
    for its reply, before the transport has handed the message back.  Both
    stop flags are set and the predicates of the other three suspension
    points hold, but the wait for the recycled message tests [msg] alone:
    the run stays blocked there, also through a second signal. *)
Theorem recycled_wait_ignores_stop_flag :
  let o := main (mkFlags false false true false true 1 "")
             (initial_world accept_all accept_all clock_ms
                [Connect "/benchmark/latency/request";
                 Signal SIGINT;
                 Signal SIGTERM]) in
  let w := final o in
  blocked o = true /\
  gStop w = true /\
  stop (gPubTester w) = true /\
  connection_pred latencyPub w = true /\
  throughput_pred w = true /\
  latency_pred (timeEnd (gPubTester w)) w = true /\
  recycled_pred w = false /\
  pending w = [].
Proof. cbv zeta; repeat split; vm_compute; reflexivity. Qed.

(** ** Channels *)

(** C9.  With a transport that accepts every topic, [Init] advertises the
    request channels without a size, while [Start] subscribes to the
    size-qualified ones; the name the driver publishes latency requests on
    is not the name the relay listens on for size 256, nor any name the
    relay uses. *)
Theorem pub_request_topic_not_sized :
  let w := final (PubTester_Init
                    (initial_world accept_all accept_all clock_ms [])) in
  let r := final (ReplyTester_Start
                    (set_replyTester (Some Tester_ctor)
                       (initial_world accept_all accept_all clock_ms []))) in
  topics_used PubNode (trace w) =
    ["/benchmark/throughput/request"; "/benchmark/latency/request";
     "/benchmark/throughput/reply"; "/benchmark/latency/reply"] /\
  topics_used RelayNode (trace r) =
    ["/benchmark/throughput/256reply"; "/benchmark/latency/256reply";
     "/benchmark/throughput/256request"; "/benchmark/latency/256request"] /\
  latencyPub (gPubTester w) = Some (pub_topic LatencyMode Request) /\
  throughputPub (gPubTester w) = Some (pub_topic ThroughputMode Request) /\
  pub_topic LatencyMode Request <> relay_topic LatencyMode Request 256 /\
  pub_topic ThroughputMode Request <> relay_topic ThroughputMode Request 256 /\
  ~ In (pub_topic LatencyMode Request) (topics_used RelayNode (trace r)).
Proof.
  cbv zeta; repeat split; try (vm_compute; reflexivity);
    try (vm_compute; discriminate).
  vm_compute; intros H; repeat (destruct H as [H|H]; [discriminate H|]);
    exact H.
Qed.

(** * Whole sweeps *)

(** ** The stop flag of the tester is never lowered *)

Lemma stopped_handle e w : stopped w -> stopped (handle e w).
Proof.
  intros Hw; destruct e as [topic | topic m t | result | s]; simpl.
  - exact Hw.
  - apply (deliver_ind stopped); auto.
    intros cb w0 H0; destruct cb; simpl; auto.
    unfold stopped, PubTester_ThroughputCb in *; simpl.
    destruct (sentMsgs (gPubTester w0) <=? wrap64 (msgCount (gPubTester w0) + 1));
      simpl; auto.
  - destruct (inflight w); auto.
  - unfold signalHandler; destruct ((s =? SIGINT) || (s =? SIGTERM)); auto.
    reflexivity.
Qed.

Lemma stopped_wait pred : preserves stopped (wait pred).
Proof. apply preserves_wait; intros; [apply stopped_handle|]; auto. Qed.

(** ** Once the message is gone, throughput mode never gets it back *)

Lemma msg_lost_handle e w : msg_lost w -> msg_lost (handle e w).
Proof.
  intros Hw; destruct e as [topic | topic m t | result | s]; simpl.
  - exact Hw.
  - apply (deliver_ind msg_lost); auto.
    intros cb w0 H0; destruct cb; simpl; auto.
    unfold msg_lost, PubTester_ThroughputCb in *; simpl.
    destruct (sentMsgs (gPubTester w0) <=? wrap64 (msgCount (gPubTester w0) + 1));
      simpl; auto.
  - destruct Hw as [Hm Hi]; rewrite Hi; split; auto.
  - unfold signalHandler; destruct ((s =? SIGINT) || (s =? SIGTERM)); auto.
Qed.

Lemma msg_lost_wait pred : preserves msg_lost (wait pred).
Proof. apply preserves_wait; intros; [apply msg_lost_handle|]; auto. Qed.

Lemma inflight_handle e w : inflight w = [] -> inflight (handle e w) = [].
Proof.
  intros Hw; destruct e as [topic | topic m t | result | s]; simpl.
  - exact Hw.
  - apply (deliver_ind (fun w => inflight w = [])); auto.
    intros cb w0 H0; destruct cb; simpl; auto.
  - rewrite Hw; exact Hw.
  - unfold signalHandler; destruct ((s =? SIGINT) || (s =? SIGTERM)); auto.
Qed.

Lemma sentMsgs_handle e w :
  sentMsgs (gPubTester (handle e w)) = sentMsgs (gPubTester w).
Proof.
  destruct e as [topic | topic m t | result | s]; simpl; auto.
  - apply (deliver_ind
             (fun w0 => sentMsgs (gPubTester w0) = sentMsgs (gPubTester w)));
      auto.
    intros cb w0 H0; destruct cb; simpl; auto.
    unfold PubTester_ThroughputCb; simpl.
    destruct (sentMsgs (gPubTester w0) <=? wrap64 (msgCount (gPubTester w0) + 1));
      simpl; auto.
  - destruct (inflight w); auto.
  - unfold signalHandler; destruct ((s =? SIGINT) || (s =? SIGTERM)); auto.
Qed.

Section Sweeps.

Context `{PB : Protobuf}.

Lemma stopped_Publish_move pub cb : preserves stopped (Publish_move pub cb).
Proof. apply preserves_modify; intros w Hw; destruct cb; exact Hw. Qed.

Lemma stopped_PrepMsg size : preserves stopped (PubTester_PrepMsg size).
Proof.
  intros w Hw; unfold PubTester_PrepMsg.
  destruct (msg (gPubTester w)); simpl; auto.
Qed.

Lemma stopped_Throughput_for n : preserves stopped (Throughput_for n).
Proof.
  induction n; simpl; repeat pres_step; auto.
  apply stopped_Publish_move.
Qed.

Lemma stopped_Throughput_class size testNum :
  preserves stopped (Throughput_class size testNum).
Proof.
  unfold Throughput_class.
  repeat first
    [ pres_step
    | apply stopped_PrepMsg
    | apply stopped_Throughput_for
    | apply stopped_wait
    | apply preserves_modify; intros w Hw; exact Hw
    | intros w Hw; exact Hw ].
Qed.

(** The publish loop hands over [msg] with its first call and null pointers
    with all later ones. *)
Lemma Throughput_for_published n :
  forall w,
    stop (gPubTester w) = false ->
    published PubNode (trace (final (Throughput_for n w)))
    = (published PubNode (trace w)
       ++ firstn n (msg (gPubTester w) :: repeat None (Nat.pred n)))%list.
Proof.
  assert (Hnone : forall n w,
             stop (gPubTester w) = false -> msg (gPubTester w) = None ->
             published PubNode (trace (final (Throughput_for n w)))
             = (published PubNode (trace w) ++ repeat None n)%list).
  { clear n; induction n as [|n IH]; intros w Hs Hm; simpl.
    - rewrite app_nil_r; reflexivity.
    - unfold bind, pub_field, get; rewrite Hs; simpl.
      rewrite IH by (simpl; auto); simpl.
      unfold published; rewrite flat_map_app, Hm; simpl.
      rewrite <- app_assoc; reflexivity. }
  destruct n as [|n]; intros w Hs; simpl.
  - rewrite app_nil_r; reflexivity.
  - unfold bind, pub_field, get; rewrite Hs; simpl.
    rewrite Hnone by (simpl; auto); simpl.
    unfold published; rewrite flat_map_app; simpl.
    rewrite <- app_assoc; simpl.
    rewrite firstn_all2 by (rewrite repeat_length; lia); reflexivity.
Qed.

Lemma stopped_Throughput_sweep sizes :
  forall testNum, preserves stopped (Throughput_sweep sizes testNum).
Proof.
  induction sizes as [|s sizes IH]; intros testNum; simpl.
  - apply preserves_ret.
  - repeat pres_step; auto.
    apply stopped_Throughput_class.
Qed.

Lemma not_stopped_before {A} (m : M A) w a w' :
  preserves stopped m -> m w = Ret a w' ->
  stop (gPubTester w') = false -> stop (gPubTester w) = false.
Proof.
  intros Hm Hr Hs; destruct (stop (gPubTester w)) eqn:E; auto.
  pose proof (preserves_Ret stopped m w a w' Hm E Hr) as H.
  unfold stopped in H; congruence.
Qed.

Lemma msg_lost_Throughput_for n : preserves msg_lost (Throughput_for n).
Proof.
  induction n; simpl; repeat pres_step; auto.
  apply preserves_modify; intros w [Hm Hi]; split; simpl; auto.
Qed.

(** A size class of throughput mode that publishes at all ends with [msg]
    null. *)
Lemma Throughput_class_loses_msg size testNum w w' :
  Throughput_class size testNum w = Ret tt w' ->
  inflight w = [] ->
  1 <= sentMsgs (gPubTester w) ->
  stop (gPubTester w') = false ->
  msg_lost w'.
Proof.
  intros H Hi HN Hs; unfold Throughput_class in H.
  bind_inv H as u1 w1 H1. apply modify_Ret in H1.
  bind_inv H as u2 w2 H2. apply modify_Ret in H2.
  bind_inv H as u3 w3 H3. apply PrepMsg_Ret in H3.
  bind_inv H as timeStart w4 H4. apply now_Ret in H4; destruct H4 as [_ H4].
  bind_inv H as n w5 H5. apply get_Ret in H5; destruct H5 as [Hn H5].
  bind_inv H as u6 w6 H6.
  bind_inv H as u7 w7 H7.
  bind_inv H as p w8 H8. apply get_Ret in H8; destruct H8 as [_ H8].
  apply modify_Ret in H.
  assert (Hs7 : stop (gPubTester w7) = false) by (subst w' w8; exact Hs).
  assert (Hs6 : stop (gPubTester w6) = false)
    by (eapply not_stopped_before; [apply stopped_wait | exact H7 | exact Hs7]).
  assert (Hs5 : stop (gPubTester w5) = false)
    by (eapply not_stopped_before;
        [apply stopped_Throughput_for | exact H6 | exact Hs6]).
  assert (HnN : n = sentMsgs (gPubTester w))
    by (subst n w5 w4 w3 w2 w1; reflexivity).
  destruct (Z.to_nat n) as [|k] eqn:Ek; [lia|].
  simpl in H6.
  bind_inv H6 as st w5' H5'. apply get_Ret in H5'; destruct H5' as [Hst H5'].
  subst w5'; rewrite Hst, Hs5 in H6.
  bind_inv H6 as u9 w9 H9. apply modify_Ret in H9.
  assert (L9 : msg_lost w9).
  { subst w9 w5 w4 w3 w2 w1; split; simpl; auto. }
  eapply preserves_Ret in H6; [ | apply msg_lost_Throughput_for | exact L9 ].
  eapply preserves_Ret in H7; [ | apply msg_lost_wait | exact H6 ].
  subst w' w8; exact H7.
Qed.

Lemma Throughput_sweep_cons msgSize rest testNum :
  Throughput_sweep (msgSize :: rest) testNum
  = (stopped <- pub_field stop ;;
     if stopped then ret tt
     else Throughput_class msgSize testNum ;;
          Throughput_sweep rest (testNum + 1)).
Proof. reflexivity. Qed.

(** An uninterrupted run of throughput mode does not get through its sweep:
    with one iteration or more, [Throughput] returns only with the stop flag
    of the tester set. *)
Lemma Throughput_sweep_needs_stop s1 s2 rest testNum w w' :
  Throughput_sweep (s1 :: s2 :: rest) testNum w = Ret tt w' ->
  inflight w = [] ->
  1 <= sentMsgs (gPubTester w) ->
  stop (gPubTester w') = true.
Proof.
  intros H Hi HN; destruct (stop (gPubTester w')) eqn:Hs; auto; exfalso.
  pose proof (not_stopped_before _ _ _ _
                (stopped_Throughput_sweep _ _) H Hs) as Hs0.
  rewrite Throughput_sweep_cons in H.
  bind_inv H as st w0 H0. apply get_Ret in H0; destruct H0 as [Hst H0].
  subst w0; rewrite Hst, Hs0 in H.
  bind_inv H as u1 w1 H1. destruct u1.
  pose proof (not_stopped_before _ _ _ _
                (stopped_Throughput_sweep _ _) H Hs) as Hs1.
  destruct (Throughput_class_loses_msg _ _ _ _ H1 Hi HN Hs1) as [Hm _].
  rewrite Throughput_sweep_cons in H.
  bind_inv H as st1 w1' H1'. apply get_Ret in H1'; destruct H1' as [Hst1 H1'].
  subst w1'; rewrite Hst1, Hs1 in H.
  bind_inv H as u2 w2 H2.
  unfold Throughput_class in H2.
  bind_inv H2 as u3 w3 H3. apply modify_Ret in H3.
  bind_inv H2 as u4 w4 H4. apply modify_Ret in H4.
  bind_inv H2 as u5 w5 H5.
  unfold PubTester_PrepMsg in H5.
  subst w4 w3; simpl in H5; rewrite Hm in H5; discriminate H5.
Qed.

Lemma PubTester_Throughput_needs_stop w w' :
  PubTester_Throughput w = Ret tt w' ->
  inflight w = [] ->
  1 <= sentMsgs (gPubTester w) ->
  stop (gPubTester w') = true.
Proof.
  intros H Hi HN; unfold PubTester_Throughput in H.
  bind_inv H as u1 w1 H1.
  assert (Hi1 : inflight w1 = []).
  { eapply (preserves_Ret (fun w => inflight w = [])); [ | exact Hi | exact H1 ].
    apply preserves_wait; intros; [apply inflight_handle|]; auto. }
  assert (HN1 : sentMsgs (gPubTester w1) = sentMsgs (gPubTester w)).
  { eapply (preserves_Ret
              (fun w0 => sentMsgs (gPubTester w0) = sentMsgs (gPubTester w)));
      [ | reflexivity | exact H1 ].
    apply preserves_wait; intros; [rewrite sentMsgs_handle|]; auto. }
  bind_inv H as st w2 H2. apply get_Ret in H2; destruct H2 as [Hst H2].
  subst w2; destruct st.
  - inversion H; subst; auto.
  - unfold OutputHeader in H.
    bind_inv H as u3 w3 H3.
    bind_inv H3 as u4 w4 H4. apply modify_Ret in H4. apply modify_Ret in H3.
    unfold PubTester_msgSizes in H.
    apply Throughput_sweep_needs_stop in H; auto.
    + subst w3 w4; exact Hi1.
    + subst w3 w4; simpl; rewrite HN1; exact HN.
Qed.

(** ** Latency mode gets through its sweep *)

Lemma stopped_Latency_for n : forall acc, preserves stopped (Latency_for n acc).
Proof.
  induction n; intros acc; simpl; unfold Latency_iteration;
    repeat first
      [ pres_step
      | apply stopped_wait
      | apply stopped_Publish_move
      | apply preserves_modify; intros w Hw; exact Hw
      | intros w Hw; exact Hw ];
    auto.
Qed.

Lemma stopped_Latency_class size testNum mn mx :
  preserves stopped (Latency_class size testNum mn mx).
Proof.
  unfold Latency_class.
  repeat first
    [ pres_step
    | apply stopped_PrepMsg
    | apply stopped_Latency_for
    | apply preserves_modify; intros w Hw; exact Hw ].
Qed.

Lemma stopped_Latency_sweep sizes :
  forall testNum mn mx, preserves stopped (Latency_sweep sizes testNum mn mx).
Proof.
  induction sizes as [|s sizes IH]; intros testNum mn mx; simpl.
  - apply preserves_ret.
  - repeat pres_step; auto.
    apply stopped_Latency_class.
Qed.

Lemma Latency_sweep_cons msgSize rest testNum mn mx :
  Latency_sweep (msgSize :: rest) testNum mn mx
  = (stopped <- pub_field stop ;;
     if stopped then ret tt
     else
       acc <- Latency_class msgSize testNum mn mx ;;
       Latency_sweep rest (testNum + 1) acc.(minLatency) acc.(maxLatency)).
Proof. reflexivity. Qed.

(** A latency sweep that returns with the stop flag unset has written one
    row per size, in the order of the sweep. *)
Lemma Latency_sweep_rows sizes :
  forall testNum mn mx w w',
    Latency_sweep sizes testNum mn mx w = Ret tt w' ->
    stop (gPubTester w') = false ->
    exists rows,
      out w' = (out w ++ rows)%list /\
      map row_key rows = expected_keys sizes testNum.
Proof.
  induction sizes as [|s sizes IH]; intros testNum mn mx w w' H Hs.
  - inversion H; subst; exists []; rewrite app_nil_r; auto.
  - pose proof (not_stopped_before _ _ _ _
                  (stopped_Latency_sweep _ _ _ _) H Hs) as Hs0.
    rewrite Latency_sweep_cons in H.
    bind_inv H as st w0 H0. apply get_Ret in H0; destruct H0 as [Hst H0].
    subst w0; rewrite Hst, Hs0 in H.
    bind_inv H as acc w1 H1.
    destruct (Latency_class_row _ _ _ _ _ _ _ H1) as (ds & _ & _ & _ & Ho).
    destruct (IH _ _ _ _ _ H Hs) as (rows & Hrows & Hkeys).
    eexists; split.
    + rewrite Hrows, Ho, <- app_assoc; reflexivity.
    + simpl; rewrite Hkeys; reflexivity.
Qed.

End Sweeps.

Example latency_full_sweep :
  let o := main (mkFlags false false true false true 1 "")
             (initial_world accept_all accept_all clock_ms
                (Connect "/benchmark/latency/request" :: echo_events 15 0)) in
  returned o = true /\
  stop (gPubTester (final o)) = false /\
  map row_key (skipn 2 (out (final o))) = expected_keys PubTester_msgSizes 1 /\
  map (fun k => option_map fst k) (expected_keys PubTester_msgSizes 1)
  = map Some [1; 2; 3; 4; 5; 6; 7; 8; 9; 10; 11; 12; 13; 14; 15].
Proof. cbv zeta; repeat split; vm_compute; reflexivity. Qed.

(** * Further properties *)

(** ** The column headers *)

(** The headers are 29 and 42 characters long, tabs and line feed
    included. *)
Lemma column_header_lengths :
  String.length throughput_columns = 29%nat /\
  String.length latency_columns = 42%nat.
Proof. split; reflexivity. Qed.

(** ** The C publisher *)

Section PublisherCRuns.

Context `{L : PublisherC.StringMsgLib} `{P : PublisherC.Platform}.

Lemma PublisherC_state_eq (s : PublisherC.State) g a tr :
  PublisherC.g_terminatePub s = g -> PublisherC.alive s = a ->
  PublisherC.trace s = tr ->
  s = PublisherC.mkState g a tr.
Proof. destruct s; simpl; intros -> -> ->; reflexivity. Qed.

(** A gone process takes no signal. *)
Lemma PublisherC_deliver_dead sigs :
  forall s, PublisherC.alive s = false -> PublisherC.deliver sigs s = s.
Proof.
  unfold PublisherC.deliver; induction sigs as [|sg sigs IH]; intros s Hs;
    cbn [fold_left]; [reflexivity|].
  unfold PublisherC.arrive at 2; rewrite Hs; cbn [negb]; apply IH; exact Hs.
Qed.

Lemma PublisherC_deliver_app sigs1 sigs2 s :
  PublisherC.deliver (sigs1 ++ sigs2) s
  = PublisherC.deliver sigs2 (PublisherC.deliver sigs1 s).
Proof. unfold PublisherC.deliver; apply fold_left_app. Qed.

(** Signals that do not end the process leave it alive and leave the trace;
    the flag is up afterwards when it was up before or one of them is SIGINT
    or SIGTERM. *)
Lemma PublisherC_deliver_survivable sigs :
  forall s,
    PublisherC.alive s = true ->
    PublisherC.survivable sigs = true ->
    PublisherC.deliver sigs s
    = PublisherC.mkState
        (PublisherC.g_terminatePub s || existsb PublisherC.handled sigs)
        true (PublisherC.trace s).
Proof.
  unfold PublisherC.deliver, PublisherC.survivable.
  induction sigs as [|sg sigs IH]; intros s Ha Hs; cbn [fold_left existsb].
  - rewrite orb_false_r; apply PublisherC_state_eq; auto.
  - cbn [forallb] in Hs; apply andb_true_iff in Hs; destruct Hs as [Hsg Hs].
    assert (E : PublisherC.arrive sg s
                = PublisherC.mkState
                    (PublisherC.g_terminatePub s || PublisherC.handled sg)
                    true (PublisherC.trace s)).
    { unfold PublisherC.arrive; rewrite Ha; cbn [negb].
      unfold PublisherC.signalHandler; fold (PublisherC.handled sg).
      destruct (PublisherC.handled sg) eqn:Hh.
      - rewrite Ha, orb_true_r; reflexivity.
      - cbn [orb] in Hsg; apply negb_true_iff in Hsg; rewrite Hsg.
        rewrite orb_false_r; apply PublisherC_state_eq; auto. }
    rewrite E, IH by (auto; reflexivity).
    cbn [PublisherC.g_terminatePub PublisherC.trace].
    rewrite orb_assoc; reflexivity.
Qed.

Lemma PublisherC_harmless_survivable sigs :
  PublisherC.harmless sigs = true ->
  PublisherC.survivable sigs = true /\ existsb PublisherC.handled sigs = false.
Proof.
  unfold PublisherC.harmless, PublisherC.survivable.
  induction sigs as [|sg sigs IH]; cbn [forallb existsb]; auto.
  intros H; apply andb_true_iff in H; destruct H as [Hsg H].
  apply andb_true_iff in Hsg; destruct Hsg as [H1 H2].
  destruct (IH H) as [IH1 IH2]; rewrite IH1, IH2, H2.
  apply negb_true_iff in H1; rewrite H1; auto.
Qed.

Lemma PublisherC_deliver_harmless sigs s :
  PublisherC.alive s = true ->
  PublisherC.harmless sigs = true ->
  PublisherC.deliver sigs s = s.
Proof.
  intros Ha Hh; destruct (PublisherC_harmless_survivable sigs Hh) as [Hs He].
  rewrite PublisherC_deliver_survivable, He, orb_false_r by assumption.
  symmetry; apply PublisherC_state_eq; auto.
Qed.

Lemma PublisherC_harmless_app sigs1 sigs2 :
  PublisherC.harmless (sigs1 ++ sigs2)
  = PublisherC.harmless sigs1 && PublisherC.harmless sigs2.
Proof. unfold PublisherC.harmless; apply forallb_app. Qed.

Lemma PublisherC_survivable_app sigs1 sigs2 :
  PublisherC.survivable (sigs1 ++ sigs2)
  = PublisherC.survivable sigs1 && PublisherC.survivable sigs2.
Proof. unfold PublisherC.survivable; apply forallb_app. Qed.

Lemma PublisherC_step_survivable a sigs g tr :
  PublisherC.survivable sigs = true ->
  PublisherC.step a sigs (PublisherC.mkState g true tr)
  = PublisherC.mkState (g || existsb PublisherC.handled sigs) true
      (tr ++ [a]).
Proof.
  intros Hs; unfold PublisherC.step, PublisherC.act; cbn [PublisherC.alive].
  rewrite PublisherC_deliver_survivable by (auto; reflexivity).
  reflexivity.
Qed.

(** One pass in which no signal ends the process. *)
Lemma PublisherC_loop_body_survivable topic buffer ty p g tr :
  PublisherC.survivable (PublisherC.signals_of p) = true ->
  PublisherC.loop_body topic buffer ty p (PublisherC.mkState g true tr)
  = PublisherC.mkState
      (g || existsb PublisherC.handled (PublisherC.signals_of p)) true
      (tr ++ PublisherC.passes_trace topic buffer ty 1).
Proof.
  unfold PublisherC.signals_of; intros Hs.
  rewrite !PublisherC_survivable_app in Hs.
  apply andb_true_iff in Hs; destruct Hs as [H1 Hs].
  apply andb_true_iff in Hs; destruct Hs as [H2 H3].
  unfold PublisherC.loop_body; cbv zeta.
  rewrite (PublisherC_step_survivable _ _ _ _ H1).
  rewrite (PublisherC_step_survivable _ _ _ _ H2).
  rewrite (PublisherC_step_survivable _ _ _ _ H3).
  cbn [PublisherC.passes_trace].
  rewrite !existsb_app, <- !app_assoc, <- !orb_assoc; reflexivity.
Qed.

Lemma PublisherC_passes_trace_snoc topic buffer ty n :
  PublisherC.passes_trace topic buffer ty (S n)
  = (PublisherC.passes_trace topic buffer ty n
     ++ PublisherC.passes_trace topic buffer ty 1)%list.
Proof.
  induction n as [|n IH]; [reflexivity|].
  change (PublisherC.passes_trace topic buffer ty (S (S n)))
    with (PublisherC.Publish topic buffer ty
            :: PublisherC.Printf
                 ("Publishing hello on topic " ++ topic ++ "."
                  ++ PublisherC.newline)
            :: PublisherC.Sleep 1
            :: PublisherC.passes_trace topic buffer ty (S n)).
  rewrite IH at 1; reflexivity.
Qed.

(** Passes without SIGINT, SIGTERM and a signal that ends the process. *)
Lemma PublisherC_calm_passes topic buffer ty pre :
  forall rest tr,
    forallb (fun p => PublisherC.harmless (PublisherC.signals_of p)) pre = true ->
    PublisherC.while_loop topic buffer ty (pre ++ rest)
      (PublisherC.mkState false true tr)
    = PublisherC.while_loop topic buffer ty rest
        (PublisherC.mkState false true
           (tr ++ PublisherC.passes_trace topic buffer ty (List.length pre))).
Proof.
  induction pre as [|p pre IH]; intros rest tr Hq.
  - cbn [app List.length PublisherC.passes_trace]; rewrite app_nil_r.
    reflexivity.
  - cbn [forallb] in Hq; apply andb_true_iff in Hq; destruct Hq as [Hp Hq].
    destruct (PublisherC_harmless_survivable _ Hp) as [Hs He].
    cbn [app PublisherC.while_loop PublisherC.alive PublisherC.g_terminatePub
         negb orb].
    rewrite PublisherC_loop_body_survivable, He by exact Hs.
    cbn [orb]; rewrite IH by exact Hq.
    rewrite <- app_assoc; reflexivity.
Qed.

Lemma PublisherC_start at_start at_create :
  PublisherC.harmless at_start = true ->
  PublisherC.survivable at_create = true ->
  PublisherC.step PublisherC.NodeCreate at_create
    (PublisherC.deliver at_start (PublisherC.mkState false true []))
  = PublisherC.mkState (existsb PublisherC.handled at_create) true
      [PublisherC.NodeCreate].
Proof.
  intros H1 H2.
  rewrite PublisherC_deliver_harmless by (auto; reflexivity).
  rewrite (PublisherC_step_survivable _ _ _ _ H2); reflexivity.
Qed.

Lemma PublisherC_finish buffer at_exit at_free tr :
  PublisherC.survivable at_exit = true ->
  PublisherC.survivable at_free = true ->
  PublisherC.act PublisherC.NodeDestroy
    (PublisherC.step (PublisherC.Free buffer) at_free
       (PublisherC.deliver at_exit (PublisherC.mkState true true tr)))
  = PublisherC.mkState true true
      (tr ++ [PublisherC.Free buffer; PublisherC.NodeDestroy]).
Proof.
  intros H1 H2.
  rewrite PublisherC_deliver_survivable by (auto; reflexivity).
  cbn [PublisherC.g_terminatePub PublisherC.trace orb].
  rewrite (PublisherC_step_survivable _ _ _ _ H2).
  unfold PublisherC.act; cbn [PublisherC.alive PublisherC.g_terminatePub
                              PublisherC.trace orb].
  rewrite <- app_assoc; reflexivity.
Qed.



(** X16.  A signal that the program installs no handler for and whose
    default action ends the process, arriving during the sleep of a pass
    after [n] passes without a stop signal, ends the run on the spot: [n + 1]
    publications, and the buffer is never freed nor the node destroyed,
    also when a SIGINT or SIGTERM came earlier in the same sleep. *)
Theorem publisher_c_killed_by_uncaught_signal :
  forall at_start at_create pre before sg after post at_exit at_free,
    PublisherC.harmless at_start = true ->
    PublisherC.harmless at_create = true ->
    forallb (fun q => PublisherC.harmless (PublisherC.signals_of q)) pre = true ->
    PublisherC.survivable before = true ->
    PublisherC.handled sg = false ->
    PublisherC.ends_process sg = true ->
    let buffer := PublisherC.SerializeToArray "HELLO" in
    PublisherC.main
      (PublisherC.mkRun at_start at_create
         (pre ++ PublisherC.mkPass [] [] (before ++ sg :: after) :: post)
         at_exit at_free)
    = (PublisherC.mkState (existsb PublisherC.handled before) false
         (PublisherC.NodeCreate
            :: PublisherC.passes_trace "/foo" buffer PublisherC.GetTypeName
                 (S (List.length pre))),
       PublisherC.Killed).
Proof.
  intros at_start at_create pre before sg after post at_exit at_free
    Hs Hc Hpre Hb Hh Hk buffer; subst buffer.
  destruct (PublisherC_harmless_survivable _ Hc) as [Hc1 Hc2].
  unfold PublisherC.main;
    cbn [PublisherC.at_start PublisherC.at_create PublisherC.passes
         PublisherC.at_exit PublisherC.at_free].
  rewrite PublisherC_start, Hc2 by assumption.
  rewrite PublisherC_calm_passes by exact Hpre.
  cbn [PublisherC.while_loop PublisherC.alive PublisherC.g_terminatePub
       negb orb].
  set (tr := ([PublisherC.NodeCreate]
              ++ PublisherC.passes_trace "/foo"
                   (PublisherC.SerializeToArray "HELLO")
                   PublisherC.GetTypeName (List.length pre))%list).
  assert (E : PublisherC.loop_body "/foo" (PublisherC.SerializeToArray "HELLO")
                PublisherC.GetTypeName
                (PublisherC.mkPass [] [] (before ++ sg :: after))
                (PublisherC.mkState false true tr)
              = PublisherC.mkState (existsb PublisherC.handled before) false
                  (tr ++ PublisherC.passes_trace "/foo"
                           (PublisherC.SerializeToArray "HELLO")
                           PublisherC.GetTypeName 1)).
  { unfold PublisherC.loop_body, PublisherC.step; cbv zeta.
    cbn [PublisherC.at_publish PublisherC.at_printf PublisherC.at_sleep].
    unfold PublisherC.deliver at 2 3, PublisherC.act;
      cbn [fold_left PublisherC.alive PublisherC.g_terminatePub
           PublisherC.trace].
    rewrite PublisherC_deliver_app.
    rewrite (PublisherC_deliver_survivable before) by (auto; reflexivity).
    cbn [PublisherC.g_terminatePub PublisherC.trace orb].
    change (PublisherC.deliver (sg :: after) ?s)
      with (PublisherC.deliver after (PublisherC.arrive sg s)).
    unfold PublisherC.arrive at 1; cbn [PublisherC.alive negb].
    rewrite Hh, Hk; cbn [PublisherC.g_terminatePub PublisherC.trace].
    rewrite PublisherC_deliver_dead by reflexivity.
    cbn [PublisherC.passes_trace]; rewrite <- !app_assoc; reflexivity. }
  rewrite E.
  assert (E2 : forall g tr0,
             PublisherC.while_loop "/foo" (PublisherC.SerializeToArray "HELLO")
               PublisherC.GetTypeName post (PublisherC.mkState g false tr0)
             = (PublisherC.mkState g false tr0, true)).
  { intros g tr0; destruct post; reflexivity. }
  rewrite E2.
  rewrite PublisherC_deliver_dead by reflexivity.
  unfold PublisherC.step, PublisherC.act; cbn [PublisherC.alive].
  rewrite PublisherC_deliver_dead by reflexivity.
  cbn [PublisherC.alive]; unfold tr.
  rewrite (PublisherC_passes_trace_snoc "/foo"
             (PublisherC.SerializeToArray "HELLO") PublisherC.GetTypeName
             (List.length pre)), <- !app_assoc.
  reflexivity.
Qed.

End PublisherCRuns.

(** ** The constructor of Tester *)

Lemma map_get_set {V} (a k : Z) (v : V) m :
  map_get k (map_set a v m) = if a =? k then Some v else map_get k m.
Proof.
  induction m as [|[k0 v0] m IH]; simpl.
  - reflexivity.
  - destruct (Z.eqb_spec k0 a) as [->|Hne]; simpl.
    + destruct (a =? k); reflexivity.
    + rewrite IH.
      destruct (Z.eqb_spec k0 k) as [->|Hk]; auto.
      destruct (Z.eqb_spec a k) as [->|Ha]; auto; congruence.
Qed.

Section TesterCtor.

Context `{PB : Protobuf}.

Lemma Tester_ctor_fold sizes :
  forall r k,
    let r' := fold_left Tester_ctor_step sizes r in
    map_get k (msgs r')
    = (if existsb (Z.eqb k) sizes then Some (prepared k)
       else map_get k (msgs r)) /\
    map_get k (dataSizes r')
    = (if existsb (Z.eqb k) sizes then Some (Tester_dataSize k)
       else map_get k (dataSizes r)) /\
    r_throughputPub r' = r_throughputPub r /\
    r_latencyPub r' = r_latencyPub r /\
    sizeReceived r' = sizeReceived r.
Proof.
  induction sizes as [|a sizes IH]; intros r k; simpl.
  - auto.
  - destruct (IH (Tester_ctor_step r a) k) as (H1 & H2 & H3 & H4 & H5).
    cbv zeta in *; rewrite H1, H2, H3, H4, H5.
    unfold Tester_ctor_step, Tester_PrepMsg; simpl.
    rewrite !map_get_set, (Z.eqb_sym k a).
    destruct (Z.eqb_spec a k) as [->|Hne]; simpl.
    + destruct (existsb (Z.eqb k) sizes); auto.
    + auto.
Qed.

(** X4.  The constructor of [Tester] leaves, for each size of the sweep and
    for no other key, a message in [msgs] and its serialized size, cut to 32
    bits, in [dataSizes].  The data of the message starts with that many
    ['0'] characters and goes on with whatever bytes follow the
    unterminated buffer up to the first NUL, so it can be longer than the
    size.  The publishers are still invalid and [sizeReceived] is zero. *)
Theorem Tester_ctor_contents :
  forall size,
    let zeros := repeat "0"%char (Z.to_nat size) in
    let m := mkBytes (zeros ++ c_string_tail size) in
    let in_sweep := existsb (Z.eqb size) Tester_msgSizes in
    map_get size (msgs Tester_ctor) = (if in_sweep then Some m else None) /\
    map_get size (dataSizes Tester_ctor)
    = (if in_sweep
       then Some (Z.of_nat (List.length (SerializeToString m)) mod 2 ^ 32)
       else None) /\
    firstn (Z.to_nat size) (data m) = zeros /\
    skipn (Z.to_nat size) (data m) = c_string_tail size /\
    r_throughputPub Tester_ctor = None /\
    r_latencyPub Tester_ctor = None /\
    sizeReceived Tester_ctor = 0.
Proof.
  intros size zeros m in_sweep.
  destruct (Tester_ctor_fold Tester_msgSizes
              (mkReplyTester [] [] None None 0) size)
    as (H1 & H2 & H3 & H4 & H5).
  assert (Hlen : List.length zeros = Z.to_nat size)
    by apply repeat_length.
  split; [exact H1|]. split; [exact H2|].
  split.
  { cbn [data m]; rewrite <- Hlen, firstn_app, firstn_all, Nat.sub_diag.
    cbn [firstn]; apply app_nil_r. }
  split.
  { cbn [data m]; rewrite <- Hlen, skipn_app, skipn_all, Nat.sub_diag.
    reflexivity. }
  auto.
Qed.

End TesterCtor.

(** ** Running a call forwards *)

Lemma bind_modify {B} f (k : unit -> M B) w :
  bind (modify f) k w = k tt (f w).
Proof. reflexivity. Qed.

Lemma bind_get {A B} (f : World -> A) (k : A -> M B) w :
  bind (get f) k w = k (f w) w.
Proof. reflexivity. Qed.

Lemma bind_ret {A B} (a : A) (k : A -> M B) w : bind (ret a) k w = k a w.
Proof. reflexivity. Qed.

Lemma bind_Advertise {B} n topic (k : option string -> M B) w :
  bind (Node_Advertise n topic) k w
  = k (if advertise_ok w topic then Some topic else None)
      (act (Advertise n topic) w).
Proof. reflexivity. Qed.

Lemma bind_Subscribe {B} n topic cb (k : bool -> M B) w :
  bind (Node_Subscribe n topic cb) k w
  = if subscribe_ok w topic
    then k true (set_subscriptions
                   (subscriptions w ++ [(topic, cb)])
                   (act (Subscribe n topic cb) w))
    else k false (act (Subscribe n topic cb) w).
Proof.
  unfold bind, Node_Subscribe; cbv zeta.
  destruct (subscribe_ok w topic); reflexivity.
Qed.

Lemma if_negb_true {A} (x y : A) : (if negb true then x else y) = y.
Proof. reflexivity. Qed.

Lemma if_negb_false {A} (x y : A) : (if negb false then x else y) = x.
Proof. reflexivity. Qed.

Lemma trace_act a w : trace (act a w) = (trace w ++ [a])%list.
Proof. reflexivity. Qed.
Lemma trace_upd_pub f w : trace (upd_pub f w) = trace w.
Proof. reflexivity. Qed.
Lemma trace_upd_relay f w : trace (upd_relay f w) = trace w.
Proof. reflexivity. Qed.
Lemma trace_set_subscriptions v w : trace (set_subscriptions v w) = trace w.
Proof. reflexivity. Qed.
Lemma subscriptions_act a w : subscriptions (act a w) = subscriptions w.
Proof. reflexivity. Qed.
Lemma subscriptions_upd_pub f w : subscriptions (upd_pub f w) = subscriptions w.
Proof. reflexivity. Qed.
Lemma subscriptions_upd_relay f w :
  subscriptions (upd_relay f w) = subscriptions w.
Proof. reflexivity. Qed.
Lemma subscriptions_set_subscriptions v w :
  subscriptions (set_subscriptions v w) = v.
Proof. reflexivity. Qed.
Lemma gPubTester_act a w : gPubTester (act a w) = gPubTester w.
Proof. reflexivity. Qed.
Lemma gPubTester_upd_pub f w : gPubTester (upd_pub f w) = f (gPubTester w).
Proof. reflexivity. Qed.
Lemma gPubTester_set_subscriptions v w :
  gPubTester (set_subscriptions v w) = gPubTester w.
Proof. reflexivity. Qed.
Lemma advertise_ok_act a w : advertise_ok (act a w) = advertise_ok w.
Proof. reflexivity. Qed.
Lemma advertise_ok_upd_pub f w : advertise_ok (upd_pub f w) = advertise_ok w.
Proof. reflexivity. Qed.
Lemma advertise_ok_upd_relay f w :
  advertise_ok (upd_relay f w) = advertise_ok w.
Proof. reflexivity. Qed.
Lemma advertise_ok_set_subscriptions v w :
  advertise_ok (set_subscriptions v w) = advertise_ok w.
Proof. reflexivity. Qed.
Lemma subscribe_ok_act a w : subscribe_ok (act a w) = subscribe_ok w.
Proof. reflexivity. Qed.
Lemma subscribe_ok_upd_pub f w : subscribe_ok (upd_pub f w) = subscribe_ok w.
Proof. reflexivity. Qed.
Lemma subscribe_ok_upd_relay f w :
  subscribe_ok (upd_relay f w) = subscribe_ok w.
Proof. reflexivity. Qed.
Lemma subscribe_ok_set_subscriptions v w :
  subscribe_ok (set_subscriptions v w) = subscribe_ok w.
Proof. reflexivity. Qed.

Create Rewrite HintDb world.
#[local] Hint Rewrite trace_act trace_upd_pub trace_upd_relay
  trace_set_subscriptions
  subscriptions_act subscriptions_upd_pub subscriptions_upd_relay
  subscriptions_set_subscriptions
  gPubTester_act gPubTester_upd_pub gPubTester_set_subscriptions
  advertise_ok_act advertise_ok_upd_pub advertise_ok_upd_relay
  advertise_ok_set_subscriptions
  subscribe_ok_act subscribe_ok_upd_pub subscribe_ok_upd_relay
  subscribe_ok_set_subscriptions
  : world.

(** ** Set-up of the two testers *)

Ltac init_done E :=
  rewrite ?if_negb_true, ?if_negb_false in E; unfold modify in E;
  cbv zeta; rewrite E;
  unfold final, returned; autorewrite with world;
  cbn [msg throughputPub latencyPub set_msg set_throughputPub set_latencyPub];
  rewrite <- ?app_assoc;
  repeat split; intros; try discriminate; reflexivity.

Section SetUp.

Context `{PB : Protobuf}.

(** X5.  [PubTester::Init] always returns, with a fresh empty message in
    [msg].  It makes its four requests in order (advertise the throughput
    and the latency request topic, subscribe to the throughput and the
    latency reply topic) and stops at the first one the transport refuses,
    with one error line and without kicking discovery; subscriptions made
    before the refusal stay.  When all four are accepted it ends with the
    call to [TopicList]. *)
Theorem Init_stops_at_first_refusal :
  forall w,
    let o := PubTester_Init w in
    let w' := final o in
    let a1 := Advertise PubNode Topic.pubThroughputRequest in
    let a2 := Advertise PubNode Topic.pubLatencyRequest in
    let s1 := Subscribe PubNode Topic.pubThroughputReply Pub_ThroughputCb in
    let s2 := Subscribe PubNode Topic.pubLatencyReply Pub_LatencyCb in
    returned o = true /\
    msg (gPubTester w') = Some (mkBytes []) /\
    (advertise_ok w Topic.pubThroughputRequest = false ->
     trace w' = (trace w ++
       [a1; Cerr "Error advertising topic /benchmark/throughput/request"])%list /\
     subscriptions w' = subscriptions w /\
     throughputPub (gPubTester w') = None /\
     latencyPub (gPubTester w') = latencyPub (gPubTester w)) /\
    (advertise_ok w Topic.pubThroughputRequest = true ->
     advertise_ok w Topic.pubLatencyRequest = false ->
     trace w' = (trace w ++
       [a1; a2; Cerr "Error advertising topic /benchmark/latency/request"])%list /\
     subscriptions w' = subscriptions w /\
     throughputPub (gPubTester w') = Some Topic.pubThroughputRequest /\
     latencyPub (gPubTester w') = None) /\
    (advertise_ok w Topic.pubThroughputRequest = true ->
     advertise_ok w Topic.pubLatencyRequest = true ->
     subscribe_ok w Topic.pubThroughputReply = false ->
     trace w' = (trace w ++
       [a1; a2; s1;
        Cerr "Error subscribing to topic /benchmark/throughput/reply"])%list /\
     subscriptions w' = subscriptions w) /\
    (advertise_ok w Topic.pubThroughputRequest = true ->
     advertise_ok w Topic.pubLatencyRequest = true ->
     subscribe_ok w Topic.pubThroughputReply = true ->
     subscribe_ok w Topic.pubLatencyReply = false ->
     trace w' = (trace w ++
       [a1; a2; s1; s2;
        Cerr "Error subscribing to topic /benchmark/latency/reply"])%list /\
     subscriptions w'
     = (subscriptions w ++ [(Topic.pubThroughputReply, Pub_ThroughputCb)])%list) /\
    (advertise_ok w Topic.pubThroughputRequest = true ->
     advertise_ok w Topic.pubLatencyRequest = true ->
     subscribe_ok w Topic.pubThroughputReply = true ->
     subscribe_ok w Topic.pubLatencyReply = true ->
     trace w' = (trace w ++ [a1; a2; s1; s2; TopicList PubNode])%list /\
     subscriptions w'
     = (subscriptions w ++ [(Topic.pubThroughputReply, Pub_ThroughputCb);
                            (Topic.pubLatencyReply, Pub_LatencyCb)])%list /\
     throughputPub (gPubTester w') = Some Topic.pubThroughputRequest /\
     latencyPub (gPubTester w') = Some Topic.pubLatencyRequest).
Proof.
  intros w.
  pose proof (eq_refl (PubTester_Init w)) as E.
  unfold PubTester_Init at 2 in E.
  rewrite bind_modify, bind_Advertise, bind_modify in E.
  autorewrite with world in E.
  destruct (advertise_ok w Topic.pubThroughputRequest) eqn:A1;
    [|init_done E].
  rewrite bind_Advertise, bind_modify in E.
  autorewrite with world in E.
  destruct (advertise_ok w Topic.pubLatencyRequest) eqn:A2;
    [|init_done E].
  rewrite bind_Subscribe in E.
  autorewrite with world in E.
  destruct (subscribe_ok w Topic.pubThroughputReply) eqn:S1;
    [|init_done E].
  rewrite if_negb_true, bind_Subscribe in E.
  autorewrite with world in E.
  destruct (subscribe_ok w Topic.pubLatencyReply) eqn:S2; init_done E.
Qed.

End SetUp.

(** ** The relay never gets past its first size *)

Lemma extends_by_refl P w : extends_by P (trace w) w.
Proof. exists []; rewrite app_nil_r; auto. Qed.

Lemma extends_by_same P tr0 w w' :
  trace w' = trace w -> extends_by P tr0 w -> extends_by P tr0 w'.
Proof. intros E (l & Hl & HP); exists l; rewrite E; auto. Qed.

Lemma extends_by_act (P : Action -> bool) tr0 a w :
  P a = true -> extends_by P tr0 w -> extends_by P tr0 (act a w).
Proof.
  intros Ha (l & Hl & HP); exists (l ++ [a])%list; split.
  - rewrite trace_act, Hl, app_assoc; reflexivity.
  - rewrite forallb_app, HP; simpl; rewrite Ha; reflexivity.
Qed.

Lemma extends_by_callback tr0 cb m t w :
  extends_by is_cout tr0 w -> extends_by is_cout tr0 (run_callback cb m t w).
Proof.
  intros H; destruct cb; simpl.
  - eapply extends_by_same; [|exact H]; reflexivity.
  - eapply extends_by_same; [|exact H]; reflexivity.
  - unfold Relay_throughput_lambda.
    eapply extends_by_same; [apply trace_upd_relay|].
    apply extends_by_act; auto.
  - unfold Relay_latency_lambda.
    eapply extends_by_same; [apply trace_upd_relay|].
    apply extends_by_act; auto.
Qed.

Lemma extends_by_handle tr0 e w :
  extends_by is_cout tr0 w -> extends_by is_cout tr0 (handle e w).
Proof.
  intros H; destruct e as [topic|topic m t|result|s]; simpl.
  - eapply extends_by_same; [|exact H]; reflexivity.
  - apply (deliver_ind (extends_by is_cout tr0)); auto.
    intros; apply extends_by_callback; auto.
  - destruct (inflight w); exact H.
  - unfold signalHandler.
    destruct ((s =? SIGINT) || (s =? SIGTERM)); exact H.
Qed.

Lemma extends_by_wait tr0 pred : preserves (extends_by is_cout tr0) (wait pred).
Proof.
  apply preserves_wait; intros; [apply extends_by_handle|]; auto.
Qed.

Lemma wait_on_not_crashed pred evs :
  forall w, match wait_on pred evs w with
            | Ret _ _ | Blocked _ => True
            | _ => False
            end.
Proof.
  induction evs as [|e evs IH]; intros w; simpl.
  - destruct (pred w); exact I.
  - destruct (pred w); [exact I | apply IH].
Qed.

Lemma cout_only_facts n l :
  forallb is_cout l = true ->
  existsb is_topic_list l = false /\
  existsb is_cerr l = false /\
  topics_used n l = [].
Proof.
  induction l as [|a l IH]; simpl; auto.
  destruct a; simpl; try discriminate.
  destruct n; exact IH.
Qed.

Section RelayStart.

Context `{PB : Protobuf}.

Lemma Start_while_true_step fuel w :
  Start_while_true (S fuel) w
  = match wait (fun w0 => 0 <? relay_field sizeReceived 0 w0) w with
    | Ret _ w1 => Start_while_true fuel (upd_relay (set_sizeReceived 0) w1)
    | Blocked w1 => Blocked w1
    | Crashed w1 => Crashed w1
    | Exited c w1 => Exited c w1
    end.
Proof. reflexivity. Qed.

Lemma Start_while_true_blocks fuel :
  forall w,
    blocked (Start_while_true fuel w) = true /\
    extends_by is_cout (trace w) (final (Start_while_true fuel w)).
Proof.
  induction fuel as [|fuel IH]; intros w.
  - split; [reflexivity | apply extends_by_refl].
  - rewrite Start_while_true_step.
    pose proof (extends_by_wait (trace w)
                  (fun w0 => 0 <? relay_field sizeReceived 0 w0) w
                  (extends_by_refl _ w)) as Hw.
    pose proof (wait_on_not_crashed
                  (fun w0 => 0 <? relay_field sizeReceived 0 w0)
                  (pending w) w) as Hc.
    unfold wait in *.
    destruct (wait_on _ (pending w) w) as [u w1|w1|w1|c w1];
      try contradiction; cbn [final] in Hw.
    + destruct (IH (upd_relay (set_sizeReceived 0) w1)) as [Hb He].
      split; [exact Hb|].
      destruct Hw as (l1 & E1 & P1), He as (l2 & E2 & P2).
      exists (l1 ++ l2)%list; split.
      * rewrite E2, trace_upd_relay, E1, app_assoc; reflexivity.
      * rewrite forallb_app, P1, P2; reflexivity.
    + split; [reflexivity | exact Hw].
Qed.

Lemma Start_for_cons size rest w :
  Start_for (size :: rest) w
  = match Start_body size w with
    | Ret continue w1 => if continue then Start_for rest w1 else Ret false w1
    | Blocked w1 => Blocked w1
    | Crashed w1 => Crashed w1
    | Exited c w1 => Exited c w1
    end.
Proof.
  cbn [Start_for]; unfold bind.
  destruct (Start_body size w) as [[] ?| | |]; reflexivity.
Qed.

Lemma Start_first_size_only w :
  ReplyTester_Start w
  = match Start_body 256 w with
    | Ret _ w1 => Ret tt w1
    | Blocked w1 => Blocked w1
    | Crashed w1 => Crashed w1
    | Exited c w1 => Exited c w1
    end.
Proof.
  unfold ReplyTester_Start, Tester_msgSizes.
  unfold bind at 1; rewrite Start_for_cons.
  destruct (Start_body 256 w) as [b w1|w1|w1|c w1] eqn:E; try reflexivity.
  apply Start_body_never_continues in E; subst b; reflexivity.
Qed.

Ltac run_step E :=
  first
    [ rewrite bind_modify in E
    | rewrite bind_Advertise in E
    | rewrite bind_Subscribe in E
    | rewrite bind_get in E
    | rewrite if_negb_true in E
    | rewrite if_negb_false in E
    | progress autorewrite with world in E
    | match goal with
      | H : advertise_ok _ _ = _ |- _ => rewrite H in E
      | H : subscribe_ok _ _ = _ |- _ => rewrite H in E
      end ].

Ltac start_failed E :=
  unfold ret in E; rewrite E; clear E;
  cbn [final returned blocked];
  repeat split; intros; try discriminate;
  autorewrite with world; rewrite <- ?app_assoc; reflexivity.

(** X6.  [ReplyTester::Start] never gets past the first size of its sweep
    and never kicks discovery.  It makes its four requests for size 256 in
    order (advertise the throughput and the latency reply topic, subscribe
    to the throughput and the latency request topic).  At the first one the
    transport refuses it writes one error line and returns, with no further
    request; when all four are accepted it stays in the loop that waits for
    [sizeReceived] for good, and all that follows the four requests in the
    trace are lines on [std::cout], which its callbacks print. *)
Theorem Start_never_leaves_first_size :
  forall w,
    let o := ReplyTester_Start w in
    let w' := final o in
    let t1 := Topic.throughputTopicReply 256 in
    let t2 := Topic.latencyTopicReply 256 in
    let t3 := Topic.throughputTopicRequest 256 in
    let t4 := Topic.latencyTopicRequest 256 in
    let a1 := Advertise RelayNode t1 in
    let a2 := Advertise RelayNode t2 in
    let s1 := Subscribe RelayNode t3 (Relay_throughputCb 256) in
    let s2 := Subscribe RelayNode t4 (Relay_latencyCb 256) in
    (advertise_ok w t1 = false ->
     returned o = true /\
     trace w' = (trace w ++
       [a1; Cerr ("Error advertising topic [" ++ t1 ++ "]")])%list /\
     subscriptions w' = subscriptions w) /\
    (advertise_ok w t1 = true ->
     advertise_ok w t2 = false ->
     returned o = true /\
     trace w' = (trace w ++
       [a1; a2; Cerr ("Error advertising topic [" ++ t2 ++ "]")])%list /\
     subscriptions w' = subscriptions w) /\
    (advertise_ok w t1 = true ->
     advertise_ok w t2 = true ->
     subscribe_ok w t3 = false ->
     returned o = true /\
     trace w' = (trace w ++
       [a1; a2; s1; Cerr ("Error subscribing to topic [" ++ t3 ++ "]")])%list /\
     subscriptions w' = subscriptions w) /\
    (advertise_ok w t1 = true ->
     advertise_ok w t2 = true ->
     subscribe_ok w t3 = true ->
     subscribe_ok w t4 = false ->
     returned o = true /\
     trace w' = (trace w ++
       [a1; a2; s1; s2;
        Cerr ("Error subscribing to topic [" ++ t4 ++ "]")])%list /\
     subscriptions w'
     = (subscriptions w ++ [(t3, Relay_throughputCb 256)])%list) /\
    (advertise_ok w t1 = true ->
     advertise_ok w t2 = true ->
     subscribe_ok w t3 = true ->
     subscribe_ok w t4 = true ->
     blocked o = true /\
     exists couts,
       trace w' = (trace w ++ [a1; a2; s1; s2] ++ couts)%list /\
       forallb is_cout couts = true).
Proof.
  intros w; cbv zeta.
  rewrite Start_first_size_only.
  destruct (advertise_ok w (Topic.throughputTopicReply 256)) eqn:A1;
    [destruct (advertise_ok w (Topic.latencyTopicReply 256)) eqn:A2;
     [destruct (subscribe_ok w (Topic.throughputTopicRequest 256)) eqn:S1;
      [destruct (subscribe_ok w (Topic.latencyTopicRequest 256)) eqn:S2|]|]|];
    pose proof (eq_refl (Start_body 256 w)) as E;
    unfold Start_body at 2 in E; cbv zeta in E;
    repeat run_step E;
    [|start_failed E..].
  match type of E with
  | _ = bind (Start_while_true ?n) _ ?W =>
      assert (HW : trace W
                   = (trace w ++
                      [Advertise RelayNode (Topic.throughputTopicReply 256);
                       Advertise RelayNode (Topic.latencyTopicReply 256);
                       Subscribe RelayNode (Topic.throughputTopicRequest 256)
                         (Relay_throughputCb 256);
                       Subscribe RelayNode (Topic.latencyTopicRequest 256)
                         (Relay_latencyCb 256)])%list)
        by (autorewrite with world; rewrite <- ?app_assoc; reflexivity);
      revert E HW; generalize n; generalize W
  end.
  intros W0 n0 E HW.
  destruct (Start_while_true_blocks n0 W0) as [Hb (l & Hl & HP)].
  unfold bind in E.
  destruct (Start_while_true n0 W0) as [u w1|w1|w1|c w1]; try discriminate Hb.
  rewrite E; cbn [final blocked returned].
  cbn [final] in Hl.
  repeat split; intros; try discriminate.
  exists l; split; [|exact HP].
  rewrite Hl, HW, <- app_assoc; reflexivity.
Qed.

End RelayStart.

(** ** Without a subscriber nothing is measured *)

Lemma callback_keeps_pubs cb m t w :
  throughputPub (gPubTester (run_callback cb m t w))
  = throughputPub (gPubTester w) /\
  latencyPub (gPubTester (run_callback cb m t w))
  = latencyPub (gPubTester w) /\
  connected (run_callback cb m t w) = connected w /\
  stop (gPubTester (run_callback cb m t w)) = stop (gPubTester w).
Proof.
  destruct cb; simpl; auto.
  unfold PubTester_ThroughputCb; cbv zeta.
  match goal with |- context [if ?c then _ else _] => destruct c end;
    simpl; auto.
Qed.

Lemma handle_keeps_pubs e w :
  is_connect e = false ->
  throughputPub (gPubTester (handle e w)) = throughputPub (gPubTester w) /\
  latencyPub (gPubTester (handle e w)) = latencyPub (gPubTester w) /\
  connected (handle e w) = connected w /\
  stop (gPubTester (handle e w)) = stop_signal e || stop (gPubTester w).
Proof.
  destruct e as [topic|topic m t|result|s]; simpl; intros He;
    try discriminate.
  - apply (deliver_ind
             (fun w' =>
                throughputPub (gPubTester w') = throughputPub (gPubTester w) /\
                latencyPub (gPubTester w') = latencyPub (gPubTester w) /\
                connected w' = connected w /\
                stop (gPubTester w') = stop (gPubTester w))); auto.
    intros cb w0 (H1 & H2 & H3 & H4).
    destruct (callback_keeps_pubs cb m t w0) as (K1 & K2 & K3 & K4).
    rewrite K1, K2, K3, K4; auto.
  - destruct (inflight w); simpl; auto.
  - unfold signalHandler.
    destruct ((s =? SIGINT) || (s =? SIGTERM)); simpl; auto.
Qed.

Lemma cout_only_published n l :
  forallb is_cout l = true -> published n l = [].
Proof.
  induction l as [|a l IH]; simpl; auto.
  destruct a; simpl; try discriminate.
  destruct n; exact IH.
Qed.

Lemma published_app n tr1 tr2 :
  published n (tr1 ++ tr2) = (published n tr1 ++ published n tr2)%list.
Proof. unfold published; apply flat_map_app. Qed.

(** The wait for a subscriber, when none is connected and none connects:
    it ends exactly when the stop flag is up or a stop signal is pending. *)
Lemma wait_connection_no_peer (pub : PubTester -> option string) evs :
  (forall e w, is_connect e = false ->
               pub (gPubTester (handle e w)) = pub (gPubTester w)) ->
  forall w,
    HasConnections (pub (gPubTester w)) w = false ->
    forallb (fun e => negb (is_connect e)) evs = true ->
    let o := wait_on (connection_pred pub) evs w in
    out (final o) = out w /\
    extends_by is_cout (trace w) (final o) /\
    match o with
    | Ret _ w1 =>
        stop (gPubTester w1) = true /\
        stop (gPubTester w) || existsb stop_signal evs = true
    | Blocked _ => stop (gPubTester w) || existsb stop_signal evs = false
    | _ => False
    end.
Proof.
  intros Hpub; induction evs as [|e evs IH]; intros w Hc He;
    assert (Hp : connection_pred pub w = stop (gPubTester w))
      by (unfold connection_pred; rewrite Hc; reflexivity);
    cbv zeta; cbn [wait_on]; rewrite Hp.
  - destruct (stop (gPubTester w)) eqn:Hs; cbn [final];
      repeat split; auto; exact (extends_by_refl is_cout w).
  - destruct (stop (gPubTester w)) eqn:Hs.
    + cbn [final]; repeat split; auto; exact (extends_by_refl is_cout w).
    + cbn [forallb] in He; apply andb_true_iff in He; destruct He as [He1 He].
      apply negb_true_iff in He1.
      destruct (handle_keeps_pubs e w He1) as (_ & _ & K3 & K4).
      assert (Hc' : HasConnections (pub (gPubTester (handle e w))) (handle e w)
                    = false).
      { rewrite Hpub by exact He1.
        unfold HasConnections in *; rewrite K3; exact Hc. }
      specialize (IH (handle e w) Hc' He); cbv zeta in IH.
      destruct IH as (I1 & I2 & I3).
      rewrite I1, out_handle; split; [reflexivity|]; split.
      * destruct I2 as (l2 & E2 & P2).
        destruct (extends_by_handle (trace w) e w (extends_by_refl _ w))
          as (l1 & E1 & P1).
        exists (l1 ++ l2)%list; rewrite E2, E1, app_assoc, forallb_app, P1, P2.
        auto.
      * rewrite K4, Hs, orb_false_r in I3; cbn [existsb orb].
        exact I3.
Qed.

Section NoPeer.

Context `{PB : Protobuf}.

Lemma run_no_peer (pub : PubTester -> option string) (body : M unit) w :
  (forall e w, is_connect e = false ->
               pub (gPubTester (handle e w)) = pub (gPubTester w)) ->
  HasConnections (pub (gPubTester w)) w = false ->
  forallb (fun e => negb (is_connect e)) (pending w) = true ->
  let o := (wait (connection_pred pub) ;;
            stopped <- pub_field stop ;;
            if stopped then ret tt else body) w in
  out (final o) = out w /\
  published PubNode (trace (final o)) = published PubNode (trace w) /\
  crashed o = false /\
  returned o = stop (gPubTester w) || existsb stop_signal (pending w) /\
  blocked o = negb (stop (gPubTester w) || existsb stop_signal (pending w)).
Proof.
  intros Hpub Hc He o.
  destruct (wait_connection_no_peer pub (pending w) Hpub w Hc He)
    as (H1 & (l & El & Pl) & H3).
  assert (Eo : o = match wait_on (connection_pred pub) (pending w) w with
                   | Ret _ w1 =>
                       if stop (gPubTester w1) then Ret tt w1 else body w1
                   | Blocked w1 => Blocked w1
                   | Crashed w1 => Crashed w1
                   | Exited c w1 => Exited c w1
                   end).
  { subst o; unfold bind, wait, pub_field, get.
    destruct (wait_on (connection_pred pub) (pending w) w); try reflexivity.
    destruct (stop (gPubTester w0)); reflexivity. }
  clearbody o; subst o.
  destruct (wait_on (connection_pred pub) (pending w) w)
    as [u w1|w1|w1|c w1]; try contradiction; cbn [final] in *.
  - destruct H3 as [Hs1 Hs].
    rewrite Hs1, Hs; cbn [final].
    rewrite H1, El, published_app, (cout_only_published _ _ Pl), app_nil_r.
    auto.
  - rewrite H3, H1, El, published_app, (cout_only_published _ _ Pl), app_nil_r.
    auto.
Qed.

(** X7.  With no subscriber on the request topic and none connecting, a
    measurement run ([Throughput] or [Latency]) writes no line of the report
    and publishes nothing.  It returns when the stop flag is already up or a
    SIGINT or SIGTERM arrives, and otherwise stays in its wait for a
    subscriber; it never fails. *)
Theorem no_peer_no_measurement :
  forall (throughput : bool) w,
    let run := if throughput then PubTester_Throughput else PubTester_Latency in
    let pub := if throughput then throughputPub else latencyPub in
    HasConnections (pub (gPubTester w)) w = false ->
    forallb (fun e => negb (is_connect e)) (pending w) = true ->
    let o := run w in
    out (final o) = out w /\
    published PubNode (trace (final o)) = published PubNode (trace w) /\
    crashed o = false /\
    returned o = stop (gPubTester w) || existsb stop_signal (pending w) /\
    blocked o = negb (stop (gPubTester w) || existsb stop_signal (pending w)).
Proof.
  intros [|] w run pub Hc He; subst run pub.
  - apply (run_no_peer throughputPub); auto.
    intros e w0 H; apply (handle_keeps_pubs e w0 H).
  - apply (run_no_peer latencyPub); auto.
    intros e w0 H; apply (handle_keeps_pubs e w0 H).
Qed.

End NoPeer.

(** ** Latency mode keeps track of its message *)

Lemma triple_ret {A} (P : World -> Prop) (a : A) (Q : A -> World -> Prop) R :
  (forall w, P w -> Q a w) -> triple P (ret a) Q R.
Proof. intros H w Hw; apply H; exact Hw. Qed.

Lemma triple_get {A} (P : World -> Prop) (f : World -> A)
    (Q : A -> World -> Prop) R :
  (forall w, P w -> Q (f w) w) -> triple P (get f) Q R.
Proof. intros H w Hw; apply H; exact Hw. Qed.

Lemma triple_modify (P : World -> Prop) f (Q : unit -> World -> Prop) R :
  (forall w, P w -> Q tt (f w)) -> triple P (modify f) Q R.
Proof. intros H w Hw; apply H; exact Hw. Qed.

Lemma triple_now (P : World -> Prop) (Q : Z -> World -> Prop) R :
  (forall w, P w -> Q (clock w (reads w)) (set_reads (S (reads w)) w)) ->
  triple P now Q R.
Proof. intros H w Hw; apply H; exact Hw. Qed.

Lemma triple_bind {A B} (P : World -> Prop) (m : M A) (k : A -> M B)
    (Q : A -> World -> Prop) (Q' : B -> World -> Prop) R :
  triple P m Q R -> (forall a, triple (Q a) (k a) Q' R) ->
  triple P (bind m k) Q' R.
Proof.
  intros Hm Hk w Hw; specialize (Hm w Hw); unfold bind.
  destruct (m w) as [a w1|w1|w1|c w1]; auto.
  apply (Hk a w1 Hm).
Qed.

Lemma triple_weaken {A} (P P' : World -> Prop) (m : M A)
    (Q Q' : A -> World -> Prop) (R R' : World -> Prop) :
  triple P m Q R ->
  (forall w, P' w -> P w) -> (forall a w, Q a w -> Q' a w) ->
  (forall w, R w -> R' w) ->
  triple P' m Q' R'.
Proof.
  intros Hm HP HQ HR w Hw; specialize (Hm w (HP w Hw)).
  destruct (m w); auto.
Qed.

Lemma triple_wait_on (I : World -> Prop) pred :
  (forall e w, I w -> I (handle e w)) ->
  (forall evs w, I w -> I (set_pending evs w)) ->
  (forall evs w, pred (set_pending evs w) = pred w) ->
  forall evs w, I w ->
    match wait_on pred evs w with
    | Ret _ w' => I w' /\ pred w' = true
    | Blocked w' => I w'
    | _ => False
    end.
Proof.
  intros Hh Hp Hq; induction evs as [|e evs IH]; intros w Hw; cbn [wait_on].
  - destruct (pred w) eqn:E; [split; [|rewrite Hq]|]; auto.
  - destruct (pred w) eqn:E; [split; [|rewrite Hq]|]; auto.
    apply IH, Hh, Hw.
Qed.

Lemma triple_wait (I : World -> Prop) pred :
  (forall e w, I w -> I (handle e w)) ->
  (forall evs w, I w -> I (set_pending evs w)) ->
  (forall evs w, pred (set_pending evs w) = pred w) ->
  triple I (wait pred) (fun _ w => I w /\ pred w = true) I.
Proof.
  intros Hh Hp Hq w Hw; unfold wait.
  pose proof (triple_wait_on I pred Hh Hp Hq (pending w) w Hw) as H.
  destruct (wait_on pred (pending w) w); first [exact H | contradiction].
Qed.

Lemma callback_keeps_msg cb m t w :
  msg (gPubTester (run_callback cb m t w)) = msg (gPubTester w) /\
  inflight (run_callback cb m t w) = inflight w.
Proof.
  destruct cb; simpl; auto.
  unfold PubTester_ThroughputCb; cbv zeta.
  match goal with |- context [if ?c then _ else _] => destruct c end;
    simpl; auto.
Qed.

Lemma published_handle e w :
  published PubNode (trace (handle e w)) = published PubNode (trace w).
Proof.
  destruct (extends_by_handle (trace w) e w (extends_by_refl _ w))
    as (l & El & Pl).
  rewrite El, published_app, (cout_only_published _ _ Pl), app_nil_r.
  reflexivity.
Qed.

Lemma msg_accounted_handle e w : msg_accounted w -> msg_accounted (handle e w).
Proof.
  intros [Hn Hm]; split.
  - unfold publishes_no_null in *; rewrite published_handle; exact Hn.
  - destruct e as [topic|topic m t|result|s]; simpl.
    + exact Hm.
    + apply (deliver_ind
               (fun w' =>
                  inflight w' = [] \/
                  msg (gPubTester w') = None /\
                  (exists m0, inflight w' = [Some m0]))); auto.
      intros cb w0 H0.
      destruct (callback_keeps_msg cb m t w0) as [K1 K2].
      rewrite K1, K2; exact H0.
    + destruct Hm as [Hi|(Hm & m0 & Hi)]; rewrite Hi; simpl; auto.
    + unfold signalHandler.
      destruct ((s =? SIGINT) || (s =? SIGTERM)); simpl; auto.
Qed.

Lemma msg_at_hand_inflight w : msg_at_hand w -> inflight w = [].
Proof.
  intros [[_ [Hi|(Hm & _)]] Hr]; auto.
  unfold recycled_pred in Hr; rewrite Hm in Hr; discriminate.
Qed.

Lemma msg_at_hand_handle e w : msg_at_hand w -> msg_at_hand (handle e w).
Proof.
  intros H; pose proof (msg_at_hand_inflight w H) as Hi.
  destruct H as [Ha Hr]; split; [apply msg_accounted_handle; exact Ha|].
  destruct e as [topic|topic m t|result|s]; simpl.
  - exact Hr.
  - apply (deliver_ind (fun w' => recycled_pred w' = true)); auto.
    intros cb w0 H0; unfold recycled_pred in *.
    destruct (callback_keeps_msg cb m t w0) as [K1 _]; rewrite K1; exact H0.
  - rewrite Hi; exact Hr.
  - unfold signalHandler.
    destruct ((s =? SIGINT) || (s =? SIGTERM)); simpl; auto.
Qed.

Lemma msg_at_hand_accounted w : msg_at_hand w -> msg_accounted w.
Proof. intros [H _]; exact H. Qed.

Lemma msg_accounted_same w w' :
  msg (gPubTester w') = msg (gPubTester w) ->
  inflight w' = inflight w ->
  published PubNode (trace w') = published PubNode (trace w) ->
  msg_accounted w -> msg_accounted w'.
Proof.
  unfold msg_accounted, publishes_no_null; intros -> -> ->; auto.
Qed.

Lemma msg_at_hand_same w w' :
  msg (gPubTester w') = msg (gPubTester w) ->
  inflight w' = inflight w ->
  published PubNode (trace w') = published PubNode (trace w) ->
  msg_at_hand w -> msg_at_hand w'.
Proof.
  intros Hm Hi Hp [Ha Hr]; split.
  - eapply msg_accounted_same; eauto.
  - unfold recycled_pred in *; rewrite Hm; exact Hr.
Qed.

Lemma published_quiet_act a w :
  match a with Publish PubNode _ _ _ => False | _ => True end ->
  published PubNode (trace (act a w)) = published PubNode (trace w).
Proof.
  intros Ha; rewrite trace_act, published_app.
  destruct a as [n t|n t c|n t m b| | | |]; try destruct n;
    try contradiction; cbn [published flat_map app]; apply app_nil_r.
Qed.

Lemma triple_inv_bind {A B} (I R : World -> Prop) (m : M A) (k : A -> M B) :
  triple I m (fun _ => I) R ->
  (forall a, triple I (k a) (fun _ => I) R) ->
  triple I (bind m k) (fun _ => I) R.
Proof. intros Hm Hk; eapply triple_bind; [exact Hm | exact Hk]. Qed.

Lemma triple_inv_wait (I R : World -> Prop) pred :
  (forall e w, I w -> I (handle e w)) ->
  (forall evs w, I w -> I (set_pending evs w)) ->
  (forall w, I w -> R w) ->
  triple I (wait pred) (fun _ => I) R.
Proof.
  intros Hh Hp HR w Hw; unfold wait.
  generalize (pending w); intros evs; revert w Hw.
  induction evs as [|e evs IH]; intros w Hw; cbn [wait_on];
    destruct (pred w); auto.
  apply IH, Hh, Hw.
Qed.

Ltac triple_step :=
  match goal with
  | |- triple _ (bind _ _) _ _ => apply triple_inv_bind; [ | intros ? ]
  | |- triple _ (ret _) _ _ => apply triple_ret; intros ? ?; assumption
  | |- triple _ (get _) _ _ => apply triple_get; intros ? ?; assumption
  | |- triple _ (pub_field _) _ _ => apply triple_get; intros ? ?; assumption
  | |- triple _ (if ?b then _ else _) _ _ => destruct b
  | |- triple _ (match ?x with _ => _ end) _ _ => destruct x
  end.

Section LatencyOwnership.

Context `{PB : Protobuf}.

Lemma triple_PrepMsg size :
  triple msg_at_hand (PubTester_PrepMsg size) (fun _ => msg_at_hand)
    msg_accounted.
Proof.
  intros w H; pose proof (msg_at_hand_inflight w H) as Hi.
  destruct H as [[Hn _] Hr]; unfold PubTester_PrepMsg.
  unfold recycled_pred in Hr.
  destruct (msg (gPubTester w)) as [m0|]; [|discriminate].
  split; [split; [exact Hn | left; exact Hi] | reflexivity].
Qed.

Lemma triple_Publish_move pub :
  triple msg_at_hand (Publish_move pub true) (fun _ => msg_accounted)
    msg_accounted.
Proof.
  apply triple_modify; intros w H.
  pose proof (msg_at_hand_inflight w H) as Hi.
  destruct H as [[Hn _] Hr]; unfold recycled_pred in Hr.
  destruct (msg (gPubTester w)) as [m0|] eqn:Hm; [|discriminate].
  split.
  - unfold publishes_no_null in *; cbn [trace act upd_pub set_inflight].
    rewrite published_app; apply Forall_app; split; [exact Hn|].
    cbn [published flat_map app]; rewrite Hm.
    constructor; [discriminate | constructor].
  - right; split; [reflexivity|].
    exists m0; cbn [inflight act upd_pub set_inflight]; rewrite Hi, Hm.
    reflexivity.
Qed.

Lemma triple_Latency_iteration acc :
  triple msg_at_hand (Latency_iteration acc) (fun _ => msg_at_hand)
    msg_accounted.
Proof.
  unfold Latency_iteration.
  eapply triple_bind;
    [apply (triple_now _ (fun _ => msg_at_hand)); intros w H; exact H|].
  intros timeStart; cbv beta.
  eapply triple_bind.
  { apply (triple_modify _ _ (fun _ => msg_at_hand)); intros w H; exact H. }
  intros []; cbv beta.
  eapply triple_bind; [apply triple_Publish_move|]; intros []; cbv beta.
  eapply triple_bind.
  { apply (triple_wait msg_accounted); intros; auto.
    apply msg_accounted_handle; auto. }
  intros []; cbv beta; cbv beta.
  eapply (triple_bind _ _ _ (fun m w => msg_accounted w /\
                                         msg (gPubTester w) = m)).
  { apply triple_get; intros w [H _]; auto. }
  intros m.
  eapply (triple_bind _ _ _ (fun _ => msg_at_hand)).
  { destruct m as [m0|].
    - apply triple_ret; intros w [H Hm]; split; auto.
      unfold recycled_pred; rewrite Hm; reflexivity.
    - eapply triple_weaken.
      + apply (triple_wait msg_accounted recycled_pred); intros; auto.
        apply msg_accounted_handle; auto.
      + intros w [H _]; exact H.
      + intros u w H; exact H.
      + auto. }
  intros []; cbv beta.
  eapply triple_bind.
  { apply (triple_get _ _ (fun _ => msg_at_hand)); auto. }
  intros te; cbv zeta.
  eapply triple_bind.
  { apply (triple_modify _ _ (fun _ => msg_at_hand)).
    intros w [[Hn Hi] Hr]; split; [split|]; auto.
    unfold publishes_no_null in *; rewrite trace_act, published_app.
    cbn [published flat_map app]; rewrite app_nil_r; exact Hn. }
  intros []; cbv beta; apply triple_ret; auto.
Qed.

Lemma triple_Latency_for n :
  forall acc,
    triple msg_at_hand (Latency_for n acc) (fun _ => msg_at_hand)
      msg_accounted.
Proof.
  induction n as [|n IH]; intros acc; cbn [Latency_for];
    repeat triple_step; auto.
  apply triple_Latency_iteration.
Qed.

Lemma triple_Latency_class size testNum mn mx :
  triple msg_at_hand (Latency_class size testNum mn mx)
    (fun _ => msg_at_hand) msg_accounted.
Proof.
  unfold Latency_class; repeat triple_step.
  - apply triple_PrepMsg.
  - apply triple_Latency_for.
  - apply triple_modify; intros w H.
    eapply msg_at_hand_same; [| | |exact H]; reflexivity.
Qed.

Lemma triple_Latency_sweep sizes :
  forall testNum mn mx,
    triple msg_at_hand (Latency_sweep sizes testNum mn mx)
      (fun _ => msg_at_hand) msg_accounted.
Proof.
  induction sizes as [|size sizes IH]; intros testNum mn mx;
    cbn [Latency_sweep]; repeat triple_step; auto.
  apply triple_Latency_class.
Qed.

Lemma triple_at_hand_wait pred :
  triple msg_at_hand (wait pred) (fun _ => msg_at_hand) msg_accounted.
Proof.
  apply triple_inv_wait; intros; auto using msg_at_hand_accounted.
  apply msg_at_hand_handle; auto.
Qed.

Lemma triple_accounted_wait pred :
  triple msg_accounted (wait pred) (fun _ => msg_accounted) msg_accounted.
Proof.
  apply triple_inv_wait; intros; auto.
  apply msg_accounted_handle; auto.
Qed.

Lemma triple_PubTester_Latency :
  triple msg_at_hand PubTester_Latency (fun _ => msg_at_hand) msg_accounted.
Proof.
  unfold PubTester_Latency, OutputHeader; repeat triple_step.
  - apply triple_at_hand_wait.
  - apply triple_modify; intros w H; exact H.
  - apply triple_modify; intros w H; exact H.
  - apply triple_Latency_sweep.
Qed.

Lemma triple_at_hand_act a :
  match a with Publish PubNode _ _ _ => False | _ => True end ->
  triple msg_at_hand (modify (act a)) (fun _ => msg_at_hand) msg_accounted.
Proof.
  intros Ha; apply triple_modify; intros w H.
  eapply msg_at_hand_same; [| | |exact H]; try reflexivity.
  apply published_quiet_act; exact Ha.
Qed.

Lemma triple_at_hand_Advertise n topic :
  triple msg_at_hand (Node_Advertise n topic) (fun _ => msg_at_hand)
    msg_accounted.
Proof.
  intros w H; unfold Node_Advertise.
  eapply msg_at_hand_same; [| | |exact H]; try reflexivity.
  apply published_quiet_act; exact I.
Qed.

Lemma triple_at_hand_Subscribe n topic cb :
  triple msg_at_hand (Node_Subscribe n topic cb) (fun _ => msg_at_hand)
    msg_accounted.
Proof.
  intros w H; unfold Node_Subscribe; cbv zeta.
  destruct (subscribe_ok w topic);
    (eapply msg_at_hand_same; [| | |exact H]; try reflexivity;
     apply (published_quiet_act (Subscribe n topic cb)); exact I).
Qed.

Lemma triple_PubTester_Init :
  triple (fun w => publishes_no_null w /\ inflight w = []) PubTester_Init
    (fun _ => msg_at_hand) msg_accounted.
Proof.
  unfold PubTester_Init.
  eapply triple_bind.
  { apply (triple_modify _ _ (fun _ => msg_at_hand)).
    intros w [Hn Hi]; split; [split; [exact Hn | left; exact Hi]|].
    reflexivity. }
  intros []; repeat triple_step;
    try apply triple_at_hand_Advertise;
    try apply triple_at_hand_Subscribe;
    try (apply triple_at_hand_act; exact I);
    try (apply triple_modify; intros w H; exact H).
Qed.

Lemma triple_main_latency f :
  FLAGS_t f = false ->
  triple (fun w => publishes_no_null w /\ inflight w = []) (main f)
    (fun _ => msg_accounted) msg_accounted.
Proof.
  intros Ht; unfold main, PubTester_SetIterations, PubTester_SetOutputFilename.
  assert (H0 : forall w, publishes_no_null w /\ inflight w = [] ->
                         msg_accounted w).
  { intros w [Hn Hi]; split; auto. }
  eapply (triple_bind _ _ _
            (fun _ w => publishes_no_null w /\ inflight w = [])).
  { destruct (FLAGS_h f).
    - intros w Hw; apply H0; exact Hw.
    - apply triple_ret; auto. }
  intros [].
  eapply (triple_bind _ _ _
            (fun _ w => publishes_no_null w /\ inflight w = [])).
  { apply triple_modify; intros w Hw; exact Hw. }
  intros [].
  eapply (triple_bind _ _ _
            (fun _ w => publishes_no_null w /\ inflight w = [])).
  { apply triple_modify; intros w Hw; exact Hw. }
  intros [].
  eapply (triple_bind _ _ _ (fun _ => msg_accounted));
    [|intros []; apply triple_ret; auto].
  rewrite Ht.
  destruct (FLAGS_r f); [|destruct (FLAGS_p f)].
  - eapply triple_weaken with (P := msg_accounted) (Q := fun _ => msg_accounted);
      [|exact H0|auto|auto].
    repeat triple_step.
    + apply triple_modify; intros w Hw; exact Hw.
    + apply triple_accounted_wait.
    + apply triple_modify; intros w Hw; exact Hw.
    + auto.
  - eapply triple_bind; [apply triple_PubTester_Init|].
    intros [].
    eapply triple_weaken; [apply triple_PubTester_Latency| | |]; auto.
    intros u w Hw; apply msg_at_hand_accounted; exact Hw.
  - eapply (triple_bind _ _ _
              (fun _ w => publishes_no_null w /\ inflight w = [])).
    { apply triple_modify; intros w Hw; exact Hw. }
    intros [].
    eapply triple_bind; [apply triple_PubTester_Init|].
    intros [].
    eapply triple_bind; [apply triple_PubTester_Latency|].
    intros []; apply triple_modify; intros w Hw.
    apply msg_at_hand_accounted; exact Hw.
Qed.

(** X8.  Without [-t] the program never dereferences a null message and
    never hands a null pointer to [Publish], whatever the flags, the
    transport and the environment do: in latency mode every publication is
    followed by the wait for the completion callback, so the message is back
    in [msg] before it is prepared or published again.  At any point the
    transport holds at most the one buffer that [msg] is missing. *)
Theorem latency_mode_keeps_its_message :
  forall f w,
    FLAGS_t f = false ->
    inflight w = [] ->
    publishes_no_null w ->
    let o := main f w in
    crashed o = false /\
    publishes_no_null (final o) /\
    (inflight (final o) = [] \/
     msg (gPubTester (final o)) = None /\
     exists m, inflight (final o) = [Some m]).
Proof.
  intros f w Ht Hi Hn o.
  pose proof (triple_main_latency f Ht w (conj Hn Hi)) as H.
  fold o in H; clearbody o.
  destruct o as [a w1|w1|w1|c w1]; try contradiction; cbn [final crashed];
    destruct H as [H1 H2]; auto.
Qed.

End LatencyOwnership.

(** ** What a size class of latency mode publishes *)

Lemma flight_frame_handle m pl e w :
  flight_frame m pl w -> flight_frame m pl (handle e w).
Proof.
  intros [Hf Hp]; split; [|rewrite published_handle; exact Hp].
  unfold held_or_in_flight, held in *.
  destruct e as [topic|topic m1 t|result|s]; simpl.
  - exact Hf.
  - apply (deliver_ind
             (fun w' =>
                (msg (gPubTester w') = Some m /\ inflight w' = []) \/
                (msg (gPubTester w') = None /\ inflight w' = [Some m]))); auto.
    intros cb w0 H0.
    destruct (callback_keeps_msg cb m1 t w0) as [K1 K2].
    rewrite K1, K2; exact H0.
  - destruct Hf as [[Hm Hi]|[Hm Hi]]; rewrite Hi; simpl; auto.
  - unfold signalHandler.
    destruct ((s =? SIGINT) || (s =? SIGTERM)); simpl; auto.
Qed.

Lemma wait_Ret_frame m pl pred w u w' :
  (forall evs w, pred (set_pending evs w) = pred w) ->
  flight_frame m pl w -> wait pred w = Ret u w' ->
  flight_frame m pl w' /\ pred w' = true.
Proof.
  intros Hq Hw Hr.
  pose proof (triple_wait (flight_frame m pl) pred
                (flight_frame_handle m pl) (fun _ _ H => H) Hq w Hw) as H.
  rewrite Hr in H; exact H.
Qed.

Section LatencyPayload.

Context `{PB : Protobuf}.

Lemma Latency_iteration_payload acc w acc' w' m :
  Latency_iteration acc w = Ret acc' w' ->
  held m w ->
  held m w' /\
  published PubNode (trace w')
  = (published PubNode (trace w) ++ [Some m])%list.
Proof.
  intros H [Hm Hi]; unfold Latency_iteration in H.
  bind_inv H as timeStart w1 H1. apply now_Ret in H1; destruct H1 as [_ H1].
  bind_inv H as u2 w2 H2. apply modify_Ret in H2.
  bind_inv H as u3 w3 H3. apply modify_Ret in H3.
  bind_inv H as u4 w4 H4.
  bind_inv H as m5 w5 H5. apply get_Ret in H5; destruct H5 as [Hm5 H5].
  bind_inv H as u6 w6 H6.
  bind_inv H as te w7 H7. apply get_Ret in H7; destruct H7 as [_ H7].
  bind_inv H as u8 w8 H8. apply modify_Ret in H8.
  inversion H; subst acc' w'; clear H.
  assert (F3 : flight_frame m (published PubNode (trace w) ++ [Some m]) w3).
  { subst w3 w2 w1; split.
    - right; cbn [msg gPubTester upd_pub set_msg inflight act set_inflight
                  set_timeEnd set_reads].
      rewrite Hm, Hi; auto.
    - cbn [trace gPubTester upd_pub set_msg inflight act set_inflight
           set_timeEnd set_reads latencyPub msg].
      rewrite published_app, Hm; reflexivity. }
  destruct (wait_Ret_frame _ _ (latency_pred timeStart) _ _ _
              (fun _ _ => eq_refl) F3 H4) as [F4 _].
  assert (F6 : flight_frame m (published PubNode (trace w) ++ [Some m]) w6 /\
               recycled_pred w6 = true).
  { rewrite H5 in H6; destruct m5 as [m5|].
    - unfold ret in H6; injection H6 as _ E6; rewrite <- E6.
      split; [exact F4|].
      unfold recycled_pred; rewrite <- Hm5; reflexivity.
    - apply (wait_Ret_frame _ _ recycled_pred _ _ _ (fun _ _ => eq_refl) F4 H6). }
  destruct F6 as [[Hf Hp] Hr].
  subst w8 w7; split.
  - unfold held; cbn [msg gPubTester act inflight].
    destruct Hf as [Hh|[Hn _]]; [exact Hh|].
    unfold recycled_pred in Hr; rewrite Hn in Hr; discriminate.
  - rewrite published_quiet_act by exact I; exact Hp.
Qed.

Lemma Latency_for_payload n :
  forall acc w acc' w' m,
    Latency_for n acc w = Ret acc' w' ->
    held m w ->
    exists k,
      held m w' /\
      published PubNode (trace w')
      = (published PubNode (trace w) ++ repeat (Some m) k)%list /\
      List.length (measured (trace w'))
      = (List.length (measured (trace w)) + k)%nat.
Proof.
  induction n as [|n IH]; intros acc w acc' w' m H Hw; cbn [Latency_for] in H.
  - inversion H; subst; exists 0%nat; cbn [repeat].
    rewrite app_nil_r, Nat.add_0_r; auto.
  - bind_inv H as stopped w1 H1. apply get_Ret in H1; destruct H1 as [Hs H1].
    subst w1; destruct stopped.
    + inversion H; subst; exists 0%nat; cbn [repeat].
      rewrite app_nil_r, Nat.add_0_r; auto.
    + bind_inv H as acc1 w1 H1.
      destruct (Latency_iteration_payload _ _ _ _ _ H1 Hw) as [Hh Hp].
      destruct (Latency_iteration_Ret _ _ _ _ _ _ _ (measured (trace w)) H1
                  (conj eq_refl (conj eq_refl (conj eq_refl eq_refl))))
        as (d & _ & _ & _ & _ & Hl).
      destruct (IH _ _ _ _ _ H Hh) as (k & Hh' & Hp' & Hl').
      exists (S k); split; [exact Hh'|]; split.
      * rewrite Hp', Hp, <- app_assoc; reflexivity.
      * rewrite Hl', Hl, length_app; cbn [List.length]; lia.
Qed.


End LatencyPayload.

(** ** Runs that start with the stop flags up *)

Lemma returns_ret {A} (P : World -> Prop) (a : A) (Q : A -> World -> Prop) :
  (forall w, P w -> Q a w) -> returns_with P (ret a) Q.
Proof. intros H w Hw; exists a, w; split; [reflexivity | auto]. Qed.

Lemma returns_get {A} (P : World -> Prop) (f : World -> A)
    (Q : A -> World -> Prop) :
  (forall w, P w -> Q (f w) w) -> returns_with P (get f) Q.
Proof. intros H w Hw; exists (f w), w; split; [reflexivity | auto]. Qed.

Lemma returns_modify (P : World -> Prop) f (Q : unit -> World -> Prop) :
  (forall w, P w -> Q tt (f w)) -> returns_with P (modify f) Q.
Proof. intros H w Hw; exists tt, (f w); split; [reflexivity | auto]. Qed.

Lemma returns_bind {A B} (P : World -> Prop) (m : M A) (k : A -> M B)
    (Q : A -> World -> Prop) (Q' : B -> World -> Prop) :
  returns_with P m Q -> (forall a, returns_with (Q a) (k a) Q') ->
  returns_with P (bind m k) Q'.
Proof.
  intros Hm Hk w Hw; destruct (Hm w Hw) as (a & w1 & E1 & H1).
  destruct (Hk a w1 H1) as (b & w2 & E2 & H2).
  exists b, w2; split; [|exact H2].
  unfold bind; rewrite E1; exact E2.
Qed.

Lemma returns_inv_bind {A B} (I : World -> Prop) (m : M A) (k : A -> M B) :
  returns_with I m (fun _ => I) ->
  (forall a, returns_with I (k a) (fun _ => I)) ->
  returns_with I (bind m k) (fun _ => I).
Proof. intros Hm Hk; eapply returns_bind; [exact Hm | exact Hk]. Qed.

Lemma wait_on_now pred evs w :
  pred w = true -> wait_on pred evs w = Ret tt (set_pending evs w).
Proof. intros H; destruct evs; cbn [wait_on]; rewrite H; reflexivity. Qed.

Lemma shut_down_wait o0 p0 e0 pred :
  (forall w, all_stopped w -> pred w = true) ->
  returns_with (shut_down o0 p0 e0) (wait pred) (fun _ => shut_down o0 p0 e0).
Proof.
  intros Hp w Hw; exists tt, (set_pending (pending w) w); split.
  - unfold wait; apply wait_on_now, Hp, Hw.
  - destruct Hw as (H1 & H2 & H3 & H4); repeat split; auto; apply H1.
Qed.

Lemma shut_down_act o0 p0 e0 a :
  match a with Publish PubNode _ _ _ => False | _ => True end ->
  returns_with (shut_down o0 p0 e0) (modify (act a))
    (fun _ => shut_down o0 p0 e0).
Proof.
  intros Ha; apply returns_modify; intros w (H1 & H2 & H3 & H4).
  repeat split; auto; try apply H1.
  rewrite published_quiet_act by exact Ha; exact H3.
Qed.

Lemma shut_down_Advertise o0 p0 e0 n topic :
  returns_with (shut_down o0 p0 e0) (Node_Advertise n topic)
    (fun _ => shut_down o0 p0 e0).
Proof.
  intros w (H1 & H2 & H3 & H4); unfold Node_Advertise.
  eexists _, _; split; [reflexivity|].
  repeat split; auto; try apply H1.
  rewrite published_quiet_act by exact I; exact H3.
Qed.

Lemma shut_down_Subscribe o0 p0 e0 n topic cb :
  returns_with (shut_down o0 p0 e0) (Node_Subscribe n topic cb)
    (fun _ => shut_down o0 p0 e0).
Proof.
  intros w (H1 & H2 & H3 & H4); unfold Node_Subscribe; cbv zeta.
  destruct (subscribe_ok w topic); (eexists _, _; split; [reflexivity|]);
    repeat split; auto; try apply H1;
    rewrite <- H3; apply (published_quiet_act (Subscribe n topic cb)); exact I.
Qed.

Ltac returns_step :=
  match goal with
  | |- returns_with _ (bind _ _) _ => apply returns_inv_bind; [ | intros ? ]
  | |- returns_with _ (ret _) _ => apply returns_ret; intros ? ?; assumption
  | |- returns_with _ (get _) _ => apply returns_get; intros ? ?; assumption
  | |- returns_with _ (pub_field _) _ =>
      apply returns_get; intros ? ?; assumption
  | |- returns_with _ (if ?b then _ else _) _ => destruct b
  | |- returns_with _ (match ?x with _ => _ end) _ => destruct x
  end.

Section ShutDown.

Context `{PB : Protobuf}.

Lemma shut_down_Init o0 p0 e0 :
  returns_with (shut_down o0 p0 e0) PubTester_Init
    (fun _ => shut_down o0 p0 e0).
Proof.
  unfold PubTester_Init; repeat returns_step;
    try apply shut_down_Advertise;
    try apply shut_down_Subscribe;
    try (apply shut_down_act; exact I);
    try (apply returns_modify; intros w H; exact H).
Qed.

Lemma shut_down_run o0 p0 e0 pub (body : M unit) :
  returns_with (shut_down o0 p0 e0)
    (wait (connection_pred pub) ;;
     stopped <- pub_field stop ;;
     if stopped then ret tt else body)
    (fun _ => shut_down o0 p0 e0).
Proof.
  apply returns_inv_bind.
  - apply shut_down_wait; intros w [_ Hs].
    unfold connection_pred; rewrite Hs; apply orb_true_r.
  - intros _ w Hw; exists tt, w; split; [|exact Hw].
    destruct Hw as ([_ Hs] & _).
    unfold bind, pub_field, get; rewrite Hs; reflexivity.
Qed.

Lemma shut_down_main o0 p0 e0 f :
  FLAGS_h f = false ->
  returns_with (shut_down o0 p0 e0) (main f)
    (fun code w => code = 0 /\ shut_down o0 p0 e0 w).
Proof.
  intros Hh; unfold main, PubTester_SetIterations, PubTester_SetOutputFilename.
  rewrite Hh.
  eapply returns_bind with (Q := fun _ => shut_down o0 p0 e0);
    [apply returns_ret; auto|intros ?].
  eapply returns_bind with (Q := fun _ => shut_down o0 p0 e0);
    [apply returns_modify; intros w H; exact H|intros ?].
  eapply returns_bind with (Q := fun _ => shut_down o0 p0 e0);
    [apply returns_modify; intros w H; exact H|intros ?].
  eapply returns_bind with (Q := fun _ => shut_down o0 p0 e0);
    [|intros ?; apply returns_ret; auto].
  repeat returns_step;
    try (apply returns_modify; intros w H; exact H);
    try apply shut_down_Init;
    try (apply shut_down_wait; intros w [Hg _]; exact Hg);
    try apply (shut_down_run o0 p0 e0 throughputPub);
    try apply (shut_down_run o0 p0 e0 latencyPub).
Qed.


End ShutDown.

(** ** The stop flags are never lowered *)

Lemma callback_keeps_flags cb m t w :
  gStop (run_callback cb m t w) = gStop w /\
  stop (gPubTester (run_callback cb m t w)) = stop (gPubTester w).
Proof.
  destruct cb; simpl; auto.
  unfold PubTester_ThroughputCb; cbv zeta.
  match goal with |- context [if ?c then _ else _] => destruct c end;
    simpl; auto.
Qed.

Lemma flags_kept_handle w0 e w : flags_kept w0 w -> flags_kept w0 (handle e w).
Proof.
  intros H; destruct e as [topic|topic m t|result|s]; simpl.
  - exact H.
  - apply (deliver_ind (flags_kept w0)); auto.
    intros cb w1 H1; unfold flags_kept.
    destruct (callback_keeps_flags cb m t w1) as [K1 K2].
    rewrite K1, K2; exact H1.
  - destruct (inflight w); exact H.
  - unfold signalHandler.
    destruct ((s =? SIGINT) || (s =? SIGTERM)); [|exact H].
    split; reflexivity.
Qed.

Lemma flags_kept_wait w0 pred : preserves (flags_kept w0) (wait pred).
Proof.
  apply preserves_wait; intros; [apply flags_kept_handle|]; auto.
Qed.

Ltac flags_step :=
  first
    [ pres_step
    | apply flags_kept_wait
    | apply preserves_modify; intros ? ?; assumption ].

Section Flags.

Context `{PB : Protobuf}.

Lemma flags_kept_Advertise w0 n topic :
  preserves (flags_kept w0) (Node_Advertise n topic).
Proof. intros w H; exact H. Qed.

Lemma flags_kept_Subscribe w0 n topic cb :
  preserves (flags_kept w0) (Node_Subscribe n topic cb).
Proof.
  intros w H; unfold Node_Subscribe; cbv zeta.
  destruct (subscribe_ok w topic); exact H.
Qed.

Lemma flags_kept_PrepMsg w0 size :
  preserves (flags_kept w0) (PubTester_PrepMsg size).
Proof.
  intros w H; unfold PubTester_PrepMsg.
  destruct (msg (gPubTester w)); exact H.
Qed.

Lemma flags_kept_now w0 : preserves (flags_kept w0) now.
Proof. intros w H; exact H. Qed.

Lemma flags_kept_Publish_move w0 pub cb :
  preserves (flags_kept w0) (Publish_move pub cb).
Proof. apply preserves_modify; intros w H; destruct cb; exact H. Qed.

Lemma flags_kept_Init w0 : preserves (flags_kept w0) PubTester_Init.
Proof.
  unfold PubTester_Init;
    repeat first [flags_step | apply flags_kept_Advertise
                 | apply flags_kept_Subscribe].
Qed.

Lemma flags_kept_Throughput_for w0 n :
  preserves (flags_kept w0) (Throughput_for n).
Proof.
  induction n as [|n IH]; cbn [Throughput_for];
    repeat first [exact IH | flags_step | apply flags_kept_Publish_move].
Qed.

Lemma flags_kept_Throughput_sweep w0 sizes :
  forall testNum, preserves (flags_kept w0) (Throughput_sweep sizes testNum).
Proof.
  induction sizes as [|size sizes IH]; intros testNum;
    cbn [Throughput_sweep]; unfold Throughput_class;
    repeat first [apply IH | flags_step | apply flags_kept_PrepMsg
                 | apply flags_kept_now | apply flags_kept_Throughput_for].
Qed.

Lemma flags_kept_Latency_for w0 n :
  forall acc, preserves (flags_kept w0) (Latency_for n acc).
Proof.
  induction n as [|n IH]; intros acc; cbn [Latency_for];
    unfold Latency_iteration;
    repeat first [apply IH | flags_step | apply flags_kept_Publish_move
                 | apply flags_kept_now].
Qed.

Lemma flags_kept_Latency_sweep w0 sizes :
  forall testNum mn mx,
    preserves (flags_kept w0) (Latency_sweep sizes testNum mn mx).
Proof.
  induction sizes as [|size sizes IH]; intros testNum mn mx;
    cbn [Latency_sweep]; unfold Latency_class;
    repeat first [apply IH | flags_step | apply flags_kept_PrepMsg
                 | apply flags_kept_Latency_for].
Qed.

Lemma flags_kept_main w0 f : preserves (flags_kept w0) (main f).
Proof.
  unfold main, PubTester_SetIterations, PubTester_SetOutputFilename,
    PubTester_Throughput, PubTester_Latency, OutputHeader;
    repeat first [flags_step | apply flags_kept_Init
                 | apply flags_kept_Throughput_sweep
                 | apply flags_kept_Latency_sweep].
Qed.

(** X11.  Nothing in the program lowers a stop flag: whatever the flags
    and the environment, and however the run ends, [gStop] and the [stop]
    member of the tester are still up at the end when they were up at the
    start. *)
Theorem stop_flags_never_lowered :
  forall f w,
    let w' := final (main f w) in
    (gStop w = true -> gStop w' = true) /\
    (stop (gPubTester w) = true -> stop (gPubTester w') = true).
Proof.
  intros f w; apply (flags_kept_main w f w); split; auto.
Qed.

End Flags.

(** ** What a size class of throughput mode publishes *)

Lemma bind_now {B} (k : Z -> M B) w :
  bind now k w = k (clock w (reads w)) (set_reads (S (reads w)) w).
Proof. reflexivity. Qed.

Lemma bind_returned {A B} (m : M A) (k : A -> M B) w a w' :
  m w = Ret a w' -> bind m k w = k a w'.
Proof. intros E; unfold bind; rewrite E; reflexivity. Qed.

Lemma published_frame_wait pl pred :
  preserves (fun w => published PubNode (trace w) = pl) (wait pred).
Proof.
  apply preserves_wait; intros; auto.
  rewrite published_handle; auto.
Qed.

Section ThroughputPayload.

Context `{PB : Protobuf}.

Lemma bind_PrepMsg {B} size (k : unit -> M B) w m0 :
  msg (gPubTester w) = Some m0 ->
  bind (PubTester_PrepMsg size) k w
  = k tt (upd_pub
            (fun p =>
               set_dataSize (serializedSize size)
                 (set_msg (Some (prepared size)) p))
            w).
Proof.
  intros Hm; unfold bind, PubTester_PrepMsg; rewrite Hm; reflexivity.
Qed.

Lemma Throughput_for_returns n :
  forall w, exists w', Throughput_for n w = Ret tt w'.
Proof.
  induction n as [|n IH]; intros w; cbn [Throughput_for].
  - exists w; reflexivity.
  - unfold pub_field; rewrite bind_get.
    destruct (stop (gPubTester w)); [exists w; reflexivity|].
    unfold Publish_move; rewrite bind_modify; apply IH.
Qed.

End ThroughputPayload.

(** ** Throughput: events between the unlocked statements *)

Lemma preserves_async (I : World -> Prop) evs :
  (forall e w, I w -> I (handle e w)) -> preserves I (async evs).
Proof.
  intros Hh; apply preserves_modify.
  induction evs as [|e evs IH]; intros w Hw; cbn [fold_left]; auto.
Qed.

Lemma async_Ret evs w a w' :
  async evs w = Ret a w' -> w' = fold_left (fun w0 e => handle e w0) evs w.
Proof. unfold async; apply modify_Ret. Qed.

(** What holds on under the part of an event that runs without the mutex. *)
Lemma handle_locked_ind (I : World -> Prop) :
  (forall cb m t w, I w -> I (run_callback cb m t w)) ->
  (forall topic w, I w -> I (set_connected (topic :: connected w) w)) ->
  (forall w, I w -> I (set_gStop true w)) ->
  forall e w, I w -> I (handle_locked e w).
Proof.
  intros Hcb Hc Hg e w Hw.
  destruct e as [topic|topic m t|result|s]; cbn [handle_locked]; auto.
  - generalize (subscriptions w); intros subs; revert w Hw.
    induction subs as [|x subs IH]; cbn [fold_left]; intros w Hw; auto.
    apply IH; destruct (String.eqb (fst x) topic); auto.
    destruct (snd x); cbn [callback_unlocked]; auto.
  - destruct ((s =? SIGINT) || (s =? SIGTERM)); auto.
Qed.

Lemma preserves_async_locked (I : World -> Prop) evs :
  (forall e w, I w -> I (handle_locked e w)) -> preserves I (async_locked evs).
Proof.
  intros Hh; apply preserves_modify.
  induction evs as [|e evs IH]; intros w Hw; cbn [fold_left]; auto.
Qed.

Lemma counters_inv_handle_locked o0 d0 n0 e w :
  counters_inv o0 d0 n0 w -> counters_inv o0 d0 n0 (handle_locked e w).
Proof.
  apply handle_locked_ind; auto using counters_inv_callback.
Qed.

Lemma clock_reads_handle e w :
  clock (handle e w) = clock w /\ reads (handle e w) = reads w.
Proof.
  destruct e as [topic|topic m t|result|s]; simpl; auto.
  - apply (deliver_ind (fun w' => clock w' = clock w /\ reads w' = reads w));
      auto.
    intros cb w0 H0; destruct cb; exact H0.
  - destruct (inflight w); auto.
  - unfold signalHandler; destruct ((s =? SIGINT) || (s =? SIGTERM)); auto.
Qed.

Lemma class_frame_handle w0 e w : class_frame w0 w -> class_frame w0 (handle e w).
Proof.
  intros (H1 & H2 & H3 & H4 & H5).
  destruct (clock_reads_handle e w) as [K4 K5].
  unfold class_frame.
  rewrite out_handle, sentMsgs_handle, K4, K5.
  auto using inflight_handle.
Qed.

(** With nothing in flight no event touches [msg]. *)
Lemma msg_handle_idle e w :
  inflight w = [] -> msg (gPubTester (handle e w)) = msg (gPubTester w).
Proof.
  intros Hi; destruct e as [topic|topic m t|result|s]; simpl; auto.
  - apply (deliver_ind
             (fun w' => msg (gPubTester w') = msg (gPubTester w))); auto.
    intros cb w0 H0.
    destruct (callback_keeps_msg cb m t w0) as [K _]; rewrite K; exact H0.
  - rewrite Hi; reflexivity.
  - unfold signalHandler; destruct ((s =? SIGINT) || (s =? SIGTERM)); auto.
Qed.

(** Events other than deliveries leave the counters and [dataSize]. *)
Lemma counters_handle_quiet e w :
  is_deliver e = false ->
  totalBytes (gPubTester (handle e w)) = totalBytes (gPubTester w) /\
  msgCount (gPubTester (handle e w)) = msgCount (gPubTester w) /\
  dataSize (gPubTester (handle e w)) = dataSize (gPubTester w).
Proof.
  destruct e as [topic|topic m t|result|s]; simpl; intros He;
    try discriminate; auto.
  - destruct (inflight w); auto.
  - unfold signalHandler; destruct ((s =? SIGINT) || (s =? SIGTERM)); auto.
Qed.

Lemma window_async w0 m tb mc evs :
  forallb (fun e => negb (is_deliver e)) evs = true ->
  preserves
    (fun w => class_frame w0 w /\ msg (gPubTester w) = m /\
              totalBytes (gPubTester w) = tb /\ msgCount (gPubTester w) = mc)
    (async evs).
Proof.
  intros He; apply preserves_modify.
  induction evs as [|e evs IH]; intros w Hw; cbn [fold_left]; auto.
  cbn [forallb] in He; apply andb_true_iff in He; destruct He as [He1 He].
  apply negb_true_iff in He1.
  apply (IH He); destruct Hw as (F & Hm & Ht & Hc).
  destruct (counters_handle_quiet e w He1) as (K1 & K2 & _).
  rewrite K1, K2, msg_handle_idle by apply F.
  auto using class_frame_handle.
Qed.

Lemma frame_async w0 m evs :
  preserves (fun w => class_frame w0 w /\ msg (gPubTester w) = m) (async evs).
Proof.
  apply preserves_async; intros e w [F Hm].
  rewrite msg_handle_idle by apply F.
  auto using class_frame_handle.
Qed.

Lemma counters_frame_async w0 o0 d0 n0 evs :
  preserves (fun w => class_frame w0 w /\ counters_inv o0 d0 n0 w) (async evs).
Proof.
  apply preserves_async; intros e w [F C].
  auto using class_frame_handle, counters_inv_handle.
Qed.

Section ThroughputAt.

Context `{PB : Protobuf}.

(** With no event in between, the finer model is the coarser one. *)
Lemma bind_ext {A B} (m m' : M A) (k k' : A -> M B) w :
  m w = m' w -> (forall a w', k a w' = k' a w') ->
  bind m k w = bind m' k' w.
Proof.
  intros Hm Hk; unfold bind; rewrite Hm.
  destruct (m' w); auto.
Qed.

Lemma bind_async_nil {B} (k : unit -> M B) w : bind (async []) k w = k tt w.
Proof. reflexivity. Qed.

Lemma bind_async_locked_nil {B} (k : unit -> M B) w :
  bind (async_locked []) k w = k tt w.
Proof. reflexivity. Qed.

Lemma PubTester_PrepMsg_at_uninterrupted size w :
  PubTester_PrepMsg_at [] [] size w = PubTester_PrepMsg size w.
Proof.
  unfold PubTester_PrepMsg_at, PubTester_PrepMsg, pub_field.
  rewrite bind_get.
  destruct (msg (gPubTester w)); reflexivity.
Qed.

Lemma Throughput_for_at_uninterrupted n :
  forall w, Throughput_for_at [] n w = Throughput_for n w.
Proof.
  induction n as [|n IH]; intros w; cbn [Throughput_for_at Throughput_for];
    [reflexivity|].
  apply bind_ext; [reflexivity|]; intros stopped w1.
  destruct stopped; [reflexivity|].
  apply bind_ext; [reflexivity|]; intros [] w2.
  cbn [hd tl]; rewrite bind_async_nil; apply IH.
Qed.

Lemma Throughput_class_at_uninterrupted msgSize testNum w :
  Throughput_class_at uninterrupted msgSize testNum w
  = Throughput_class msgSize testNum w.
Proof.
  unfold Throughput_class_at, Throughput_class, uninterrupted.
  cbn [at_entry at_totalBytes at_msgCount at_set_data at_serialize at_dataSize
       at_now at_publish at_wake].
  rewrite bind_async_nil.
  apply bind_ext; [reflexivity|]; intros [] w1; rewrite bind_async_nil.
  apply bind_ext; [reflexivity|]; intros [] w2; rewrite bind_async_nil.
  apply bind_ext; [apply PubTester_PrepMsg_at_uninterrupted|]; intros [] w3.
  rewrite bind_async_nil.
  apply bind_ext; [reflexivity|]; intros timeStart w4; rewrite bind_async_nil.
  apply bind_ext; [reflexivity|]; intros n w5.
  apply bind_ext; [apply Throughput_for_at_uninterrupted|]; intros [] w6.
  apply bind_ext; [reflexivity|]; intros [] w7.
  rewrite bind_async_locked_nil; reflexivity.
Qed.

End ThroughputAt.

Section ThroughputAtRuns.

Context `{PB : Protobuf}.

Lemma PrepMsg_at_Ret w0 tb mc evs1 evs2 size w a w' :
  forallb (fun e => negb (is_deliver e)) evs1 = true ->
  forallb (fun e => negb (is_deliver e)) evs2 = true ->
  class_frame w0 w ->
  totalBytes (gPubTester w) = tb ->
  msgCount (gPubTester w) = mc ->
  PubTester_PrepMsg_at evs1 evs2 size w = Ret a w' ->
  class_frame w0 w' /\
  totalBytes (gPubTester w') = tb /\
  msgCount (gPubTester w') = mc /\
  dataSize (gPubTester w') = serializedSize size.
Proof.
  intros Q1 Q2 F Ht Hc H; unfold PubTester_PrepMsg_at in H.
  bind_inv H as x0 v0 H0. apply get_Ret in H0; destruct H0 as [Hx0 Hv0].
  subst v0; destruct x0 as [m0|]; [|discriminate].
  bind_inv H as u1 v1 H1. apply modify_Ret in H1.
  bind_inv H as u2 v2 H2.
  bind_inv H as x v3 H3. apply get_Ret in H3; destruct H3 as [Hx Hv3].
  subst v3; destruct x as [m|]; [|discriminate].
  cbv zeta in H.
  bind_inv H as u4 v4 H4.
  apply modify_Ret in H.
  set (m1 := set_data (fill_buffer size ++ c_string_tail size) m0) in *.
  assert (K1 : class_frame w0 v1 /\ msg (gPubTester v1) = Some m1 /\
               totalBytes (gPubTester v1) = tb /\
               msgCount (gPubTester v1) = mc).
  { subst v1; destruct F as (F1 & F2 & F3 & F4 & F5).
    repeat split; assumption. }
  clear H1 F Ht Hc.
  destruct K1 as (F & Hm & Ht & Hc).
  assert (K2 : class_frame w0 v2 /\ msg (gPubTester v2) = Some m1 /\
               totalBytes (gPubTester v2) = tb /\
               msgCount (gPubTester v2) = mc).
  { eapply (preserves_Ret _ _ _ _ _ (window_async w0 (Some m1) tb mc evs1 Q1));
      [|exact H2]; auto. }
  destruct K2 as (F2 & Hm2 & Ht2 & Hc2).
  assert (K4 : class_frame w0 v4 /\ msg (gPubTester v4) = Some m1 /\
               totalBytes (gPubTester v4) = tb /\
               msgCount (gPubTester v4) = mc).
  { eapply (preserves_Ret _ _ _ _ _ (window_async w0 (Some m1) tb mc evs2 Q2));
      [|exact H4]; auto. }
  destruct K4 as (F4 & Hm4 & Ht4 & Hc4).
  rewrite Hm2 in Hx; injection Hx as Hx; subst m.
  subst w'; destruct F4 as (G1 & G2 & G3 & G4 & G5).
  repeat split; assumption.
Qed.

Lemma counters_frame_Throughput_for_at o0 d0 n0 n :
  forall batches,
    preserves (counters_inv o0 d0 n0) (Throughput_for_at batches n).
Proof.
  induction n as [|n IH]; intros batches; cbn [Throughput_for_at];
    repeat pres_step; auto.
  - apply counters_inv_Publish_move.
  - apply preserves_async; intros; apply counters_inv_handle; assumption.
Qed.

End ThroughputAtRuns.

Section ThroughputRow.

Context `{PB : Protobuf}.


End ThroughputRow.

Lemma stop_handle_quiet e w :
  is_signal e = false ->
  stop (gPubTester (handle e w)) = stop (gPubTester w).
Proof.
  destruct e as [topic|topic m t|result|s]; simpl; intros He;
    try discriminate; auto.
  - apply (deliver_ind
             (fun w' => stop (gPubTester w') = stop (gPubTester w))); auto.
    intros cb w0 H0; destruct cb; simpl; auto.
    unfold PubTester_ThroughputCb; simpl.
    destruct (sentMsgs (gPubTester w0) <=? wrap64 (msgCount (gPubTester w0) + 1));
      simpl; auto.
  - destruct (inflight w); auto.
Qed.

Lemma sending_handle pl n0 x calm e w :
  (calm = true -> is_signal e = false) ->
  sending pl n0 x calm w -> sending pl n0 x calm (handle e w).
Proof.
  intros Hq (H1 & H2 & H3 & H4 & H5); unfold sending.
  rewrite published_handle, sentMsgs_handle, msg_handle_idle by exact H2.
  repeat split; auto using inflight_handle.
  intros Hc; rewrite stop_handle_quiet; auto.
Qed.

Lemma sending_async pl n0 x calm evs R :
  (calm = true -> existsb is_signal evs = false) ->
  triple (sending pl n0 x calm) (async evs)
    (fun _ => sending pl n0 x calm) R.
Proof.
  intros Hq; apply triple_modify.
  induction evs as [|e evs IH]; intros w Hw; cbn [fold_left]; auto.
  cbn [existsb] in Hq.
  apply IH.
  - intros Hc; specialize (Hq Hc); apply orb_false_iff in Hq; apply Hq.
  - apply sending_handle; [|exact Hw].
    intros Hc; specialize (Hq Hc); apply orb_false_iff in Hq; apply Hq.
Qed.

Lemma sending_publish pl n0 x calm pub w :
  sending pl n0 x calm w ->
  sending (pl ++ [x]) n0 None calm
    (upd_pub (set_msg None)
       (act (Publish PubNode (pub (gPubTester w)) (msg (gPubTester w)) false)
          w)).
Proof.
  intros (H1 & H2 & H3 & H4 & H5); unfold sending.
  rewrite trace_upd_pub, trace_act, published_app, H1, H4.
  repeat split; auto.
Qed.

Lemma sent_handle pl n x calm e w :
  sent pl n x calm w -> sent pl n x calm (handle e w).
Proof.
  intros (k & H1 & H2 & H3 & H4); exists k.
  rewrite published_handle.
  repeat split; auto.
  intros Hk; apply stopped_handle, H3, Hk.
Qed.

Lemma sent_handle_locked pl n x calm e w :
  sent pl n x calm w -> sent pl n x calm (handle_locked e w).
Proof.
  apply handle_locked_ind; auto.
  intros cb m t w0 (k & H1 & H2 & H3 & H4); exists k.
  destruct (callback_keeps_pubs cb m t w0) as (_ & _ & _ & Hs).
  destruct (extends_by_callback (trace w0) cb m t w0 (extends_by_refl _ w0))
    as (l & El & Pl).
  rewrite El, published_app, (cout_only_published _ _ Pl), app_nil_r, Hs.
  auto.
Qed.

Lemma firstn_repeat_pred {A} (x y : A) k n :
  (k <= n)%nat ->
  firstn k (x :: repeat y n) = firstn k (x :: repeat y (Nat.pred n)).
Proof.
  intros Hk; destruct n as [|n]; [reflexivity|].
  cbn [Nat.pred repeat]; rewrite repeat_cons, app_comm_cons, firstn_app.
  cbn [List.length]; rewrite repeat_length.
  replace (k - S n)%nat with 0%nat by lia.
  cbn [firstn]; apply app_nil_r.
Qed.

Section ThroughputAtPayload.

Context `{PB : Protobuf}.

Lemma sending_PrepMsg_at pl n0 m0 calm evs1 evs2 size R :
  (calm = true -> existsb is_signal evs1 = false) ->
  (calm = true -> existsb is_signal evs2 = false) ->
  triple (sending pl n0 (Some m0) calm) (PubTester_PrepMsg_at evs1 evs2 size)
    (fun _ => sending pl n0 (Some (prepared size)) calm) R.
Proof.
  intros Q1 Q2; unfold PubTester_PrepMsg_at.
  eapply triple_bind with
    (Q := fun x w => x = Some m0 /\ sending pl n0 (Some m0) calm w).
  { apply triple_get; intros w Hw; split; [apply Hw | exact Hw]. }
  intros x; destruct x as [m|].
  2:{ intros w [Hx _]; discriminate. }
  eapply triple_bind with
    (Q := fun _ => sending pl n0 (Some (prepared size)) calm).
  { apply triple_modify; intros w [_ (H1 & H2 & H3 & H4 & H5)].
    repeat split; assumption. }
  intros [].
  eapply triple_bind; [apply sending_async; exact Q1|]; intros [].
  eapply triple_bind with
    (Q := fun x w => x = Some (prepared size) /\
                     sending pl n0 (Some (prepared size)) calm w).
  { apply triple_get; intros w Hw; split; [apply Hw | exact Hw]. }
  intros x; destruct x as [m1|].
  2:{ intros w [Hx _]; discriminate. }
  cbv zeta.
  eapply triple_bind with
    (Q := fun _ => sending pl n0 (Some (prepared size)) calm).
  { eapply triple_weaken;
      [apply (sending_async pl n0 (Some (prepared size)) calm evs2 R Q2)
      | intros w [_ Hw]; exact Hw | auto | auto]. }
  intros [].
  apply triple_modify; intros w (H1 & H2 & H3 & H4 & H5).
  repeat split; assumption.
Qed.

Lemma sending_Throughput_for_at n0 calm R n :
  forall batches pl x,
    (calm = true -> existsb is_signal (List.concat batches) = false) ->
    triple (sending pl n0 x calm) (Throughput_for_at batches n)
      (fun _ => sent pl n x calm) R.
Proof.
  induction n as [|n IH]; intros batches pl x Hq; cbn [Throughput_for_at].
  - apply triple_ret; intros w (H1 & _); exists 0%nat.
    cbn [firstn]; rewrite app_nil_r; repeat split; auto; lia.
  - eapply triple_bind with
      (Q := fun b w => b = stop (gPubTester w) /\ sending pl n0 x calm w).
    { apply triple_get; intros w Hw; split; [reflexivity | exact Hw]. }
    intros stopped; destruct stopped.
    + apply triple_ret; intros w (Hs & H1 & H2 & H3 & H4 & H5); exists 0%nat.
      cbn [firstn]; rewrite app_nil_r; repeat split; auto; try lia.
      intros Hc; rewrite (H5 Hc) in Hs; discriminate.
    + eapply triple_bind with
        (Q := fun _ => sending (pl ++ [x]) n0 None calm).
      { apply triple_modify; intros w (Hs & H1 & H2 & H3 & H4 & H5).
        apply sending_publish; repeat split; assumption. }
      intros [].
      eapply triple_bind.
      { apply sending_async; intros Hc; specialize (Hq Hc).
        destruct batches as [|b bs]; [reflexivity|].
        cbn [List.concat hd] in *; rewrite existsb_app in Hq.
        apply orb_false_iff in Hq; apply Hq. }
      intros [].
      eapply triple_weaken; [apply (IH (tl batches) (pl ++ [x])%list None) | | | ];
        auto.
      * intros Hc; specialize (Hq Hc).
        destruct batches as [|b bs]; [reflexivity|].
        cbn [List.concat tl] in *; rewrite existsb_app in Hq.
        apply orb_false_iff in Hq; apply Hq.
      * intros _ w (k & K1 & K2 & K3 & K4); exists (S k).
        split; [lia|]. split.
        { rewrite K2, <- app_assoc; reflexivity. }
        split; [intros Hk; apply K3; lia|].
        intros Hc; rewrite (K4 Hc); reflexivity.
Qed.

End ThroughputAtPayload.

Lemma triple_assume {A} (X : Prop) (P : World -> Prop) (m : M A)
    (Q : A -> World -> Prop) R :
  (X -> triple P m Q R) -> triple (fun w => X /\ P w) m Q R.
Proof. intros H w [HX Hw]; exact (H HX w Hw). Qed.

Lemma existsb_app_false {A} (f : A -> bool) l1 l2 :
  existsb f (l1 ++ l2) = false ->
  existsb f l1 = false /\ existsb f l2 = false.
Proof. rewrite existsb_app; apply orb_false_iff. Qed.

Section ThroughputAtClass.

Context `{PB : Protobuf}.

Lemma sending_Throughput_class_at il msgSize testNum pl n0 m0 calm :
  (calm = true -> existsb is_signal (events_of il) = false) ->
  triple (sending pl n0 (Some m0) calm)
    (Throughput_class_at il msgSize testNum)
    (fun _ => sent pl (Z.to_nat n0) (Some (prepared msgSize)) calm)
    (sent pl (Z.to_nat n0) (Some (prepared msgSize)) calm).
Proof.
  intros Hq.
  assert (Q : calm = true ->
              existsb is_signal (at_entry il) = false /\
              existsb is_signal (at_totalBytes il) = false /\
              existsb is_signal (at_msgCount il) = false /\
              existsb is_signal (at_set_data il) = false /\
              existsb is_signal (at_serialize il) = false /\
              existsb is_signal (at_dataSize il) = false /\
              existsb is_signal (at_now il) = false /\
              existsb is_signal (List.concat (at_publish il)) = false).
  { intros Hc; specialize (Hq Hc); unfold events_of in Hq.
    repeat match type of Hq with
           | existsb _ (_ ++ _) = false =>
               apply existsb_app_false in Hq;
               let H := fresh "E" in destruct Hq as [H Hq]
           end.
    repeat split; assumption. }
  clear Hq.
  unfold Throughput_class_at.
  eapply triple_bind; [apply sending_async; intros Hc; apply (Q Hc)|].
  intros [].
  eapply triple_bind with (Q := fun _ => sending pl n0 (Some m0) calm).
  { apply triple_modify; intros w (H1 & H2 & H3 & H4 & H5).
    repeat split; assumption. }
  intros [].
  eapply triple_bind; [apply sending_async; intros Hc; apply (Q Hc)|].
  intros [].
  eapply triple_bind with (Q := fun _ => sending pl n0 (Some m0) calm).
  { apply triple_modify; intros w (H1 & H2 & H3 & H4 & H5).
    repeat split; assumption. }
  intros [].
  eapply triple_bind; [apply sending_async; intros Hc; apply (Q Hc)|].
  intros [].
  eapply triple_bind;
    [apply sending_PrepMsg_at; intros Hc; apply (Q Hc)|].
  intros [].
  eapply triple_bind; [apply sending_async; intros Hc; apply (Q Hc)|].
  intros [].
  eapply triple_bind with
    (Q := fun _ => sending pl n0 (Some (prepared msgSize)) calm).
  { apply triple_now; intros w (H1 & H2 & H3 & H4 & H5).
    repeat split; assumption. }
  intros timeStart.
  eapply triple_bind; [apply sending_async; intros Hc; apply (Q Hc)|].
  intros [].
  eapply triple_bind with
    (Q := fun n w => n = n0 /\
                     sending pl n0 (Some (prepared msgSize)) calm w).
  { apply triple_get; intros w Hw; split; [apply Hw | exact Hw]. }
  intros n; apply triple_assume; intros Hn; subst n.
  eapply triple_bind;
    [apply sending_Throughput_for_at; intros Hc; apply (Q Hc)|].
  intros [].
  eapply triple_bind with
    (Q := fun _ => sent pl (Z.to_nat n0) (Some (prepared msgSize)) calm).
  { apply triple_inv_wait; auto using sent_handle. }
  intros [].
  eapply triple_bind with
    (Q := fun _ => sent pl (Z.to_nat n0) (Some (prepared msgSize)) calm).
  { apply triple_modify; intros w Hw.
    induction (at_wake il) as [|e evs IH] in w, Hw |- *; cbn [fold_left];
      auto using sent_handle_locked. }
  intros [].
  eapply triple_bind with
    (Q := fun _ => sent pl (Z.to_nat n0) (Some (prepared msgSize)) calm).
  { apply triple_get; auto. }
  intros p.
  apply triple_modify; auto.
Qed.


End ThroughputAtClass.

(** ** Whole runs of the two modes *)

Section Modes.

Context `{PB : Protobuf}.

Lemma inflight_sentMsgs_Init n :
  preserves (fun w => inflight w = [] /\ sentMsgs (gPubTester w) = n)
    PubTester_Init.
Proof.
  unfold PubTester_Init;
    repeat first
      [ pres_step
      | apply preserves_modify; intros w Hw; exact Hw
      | intros w Hw; exact Hw ].
  - intros w Hw; unfold Node_Subscribe; cbv zeta.
    destruct (subscribe_ok w _); exact Hw.
  - intros w Hw; unfold Node_Subscribe; cbv zeta.
    destruct (subscribe_ok w _); exact Hw.
Qed.

(** X13.  In throughput mode with one iteration or more, [main] returns only
    with the stop flag of the tester up: a run that no signal interrupts does
    not come back from its sweep. *)
Theorem throughput_mode_returns_only_when_stopped :
  forall f w code w',
    FLAGS_t f = true ->
    FLAGS_r f = false ->
    1 <= FLAGS_i f ->
    inflight w = [] ->
    main f w = Ret code w' ->
    stop (gPubTester w') = true.
Proof.
  intros f w code w' Ht Hr HN Hi H.
  unfold main, PubTester_SetIterations, PubTester_SetOutputFilename in H.
  rewrite Ht, Hr in H.
  bind_inv H as u0 w0 H0.
  destruct (FLAGS_h f); [discriminate H0|].
  unfold ret in H0; injection H0 as _ E0; subst w0.
  bind_inv H as u1 w1 H1. apply modify_Ret in H1.
  bind_inv H as u2 w2 H2. apply modify_Ret in H2.
  bind_inv H as u3 w3 H3.
  unfold ret in H; injection H as _ E; subst w3.
  assert (F2 : inflight w2 = [] /\ sentMsgs (gPubTester w2) = FLAGS_i f).
  { subst w2 w1; split; [exact Hi | reflexivity]. }
  destruct (FLAGS_p f).
  - bind_inv H3 as u4 w4 H4.
    eapply preserves_Ret in H4; [|apply inflight_sentMsgs_Init|exact F2].
    destruct H4 as [Hi4 Hn4]; destruct u3.
    apply (PubTester_Throughput_needs_stop _ _ H3 Hi4).
    rewrite Hn4; exact HN.
  - bind_inv H3 as u4 w4 H4. apply modify_Ret in H4.
    bind_inv H3 as u5 w5 H5.
    eapply preserves_Ret in H5;
      [|apply inflight_sentMsgs_Init|subst w4; exact F2].
    destruct H5 as [Hi5 Hn5].
    bind_inv H3 as u6 w6 H6. destruct u6.
    apply modify_Ret in H3; subst w'.
    apply (PubTester_Throughput_needs_stop _ _ H6 Hi5).
    rewrite Hn5; exact HN.
Qed.

(** X14.  A run of [Latency] that returns with the stop flag down has
    written the header and then one row per size of the sweep, numbered from
    1 in the order of the sweep, each with the serialized size of its
    class. *)
Theorem latency_report_complete :
  forall w w',
    PubTester_Latency w = Ret tt w' ->
    stop (gPubTester w') = false ->
    exists rows,
      out w'
      = (out w
         ++ [HeaderLines;
             ColumnHeader latency_columns]
         ++ rows)%list /\
      map row_key rows = expected_keys PubTester_msgSizes 1.
Proof.
  intros w w' H Hs; unfold PubTester_Latency in H.
  bind_inv H as u1 w1 H1.
  assert (Ho1 : out w1 = out w).
  { eapply (preserves_Ret (fun w0 => out w0 = out w)); [| |exact H1]; auto.
    apply preserves_wait; intros; auto.
    rewrite out_handle; auto. }
  bind_inv H as st w2 H2. apply get_Ret in H2; destruct H2 as [Hst H2].
  subst w2.
  assert (Hs1 : stop (gPubTester w1) = false).
  { destruct st.
    - unfold ret in H; injection H as E; subst w'; exact Hs.
    - symmetry; exact Hst. }
  rewrite Hst, Hs1 in H.
  unfold OutputHeader in H.
  bind_inv H as u3 w3 H3.
  bind_inv H3 as u4 w4 H4. apply modify_Ret in H4. apply modify_Ret in H3.
  destruct (Latency_sweep_rows _ _ _ _ _ _ H Hs) as (rows & Hrows & Hkeys).
  exists rows; split; [|exact Hkeys].
  rewrite Hrows; subst w3 w4; cbn [out emit].
  rewrite Ho1, <- !app_assoc; reflexivity.
Qed.

End Modes.

(** ** Throughput mode writes at most one row *)

Lemma frames_until_bind {A B} (I : World -> Prop) (m : M A) (k : A -> M B)
    (Q : B -> World -> Prop) :
  preserves I m -> (forall a, frames_until I (k a) Q) ->
  frames_until I (bind m k) Q.
Proof.
  intros Hm Hk w Hw; specialize (Hm w Hw); unfold bind.
  destruct (m w) as [a w1|w1|w1|c w1]; cbn [final] in Hm; auto.
  apply (Hk a w1 Hm).
Qed.

Lemma out_frame_wait o0 pred : preserves (fun w => out w = o0) (wait pred).
Proof.
  apply preserves_wait; intros; auto.
  rewrite out_handle; auto.
Qed.

Section ThroughputRows.

Context `{PB : Protobuf}.

Lemma out_frame_Throughput_for o0 n :
  preserves (fun w => out w = o0) (Throughput_for n).
Proof.
  induction n as [|n IH]; cbn [Throughput_for]; repeat pres_step; auto.
  apply preserves_modify; intros w Hw; exact Hw.
Qed.

Lemma out_frame_PrepMsg o0 size :
  preserves (fun w => out w = o0) (PubTester_PrepMsg size).
Proof.
  intros w Hw; unfold PubTester_PrepMsg.
  destruct (msg (gPubTester w)); exact Hw.
Qed.

(** A size class appends its row when it returns and nothing otherwise. *)
Lemma Throughput_class_out msgSize testNum o0 :
  frames_until (fun w => out w = o0) (Throughput_class msgSize testNum)
    (fun _ w' =>
       exists d a b, out w' = (o0 ++ [ThroughputRow testNum d a b])%list).
Proof.
  unfold Throughput_class.
  repeat (apply frames_until_bind;
          [first [ apply preserves_modify; intros ? ?; assumption
                 | apply out_frame_PrepMsg
                 | apply out_frame_Throughput_for
                 | apply out_frame_wait
                 | apply preserves_get
                 | intros ? ?; assumption ]
          | intros ? ]).
  intros w Hw; cbn [modify out emit]; rewrite Hw; eauto.
Qed.

Lemma Throughput_class_crashes msgSize testNum w :
  msg (gPubTester w) = None ->
  exists w', Throughput_class msgSize testNum w = Crashed w' /\ out w' = out w.
Proof.
  intros Hm; unfold Throughput_class.
  rewrite !bind_modify; unfold bind at 1, PubTester_PrepMsg.
  cbn [msg gPubTester upd_pub set_msgCount set_totalBytes]; rewrite Hm.
  eexists; split; reflexivity.
Qed.

Lemma Throughput_sweep_one_row s1 rest testNum w :
  inflight w = [] ->
  1 <= sentMsgs (gPubTester w) ->
  let o := Throughput_sweep (s1 :: rest) testNum w in
  out (final o) = out w \/
  exists d a b, out (final o) = (out w ++ [ThroughputRow testNum d a b])%list.
Proof.
  intros Hi HN o; subst o.
  rewrite Throughput_sweep_cons; unfold pub_field; rewrite bind_get.
  destruct (stop (gPubTester w)) eqn:Hs; [left; reflexivity|].
  pose proof (Throughput_class_out s1 testNum (out w) w eq_refl) as Hc.
  destruct (Throughput_class s1 testNum w) as [[] w1|w1|w1|c w1] eqn:E;
    unfold bind; rewrite E; cbn [final]; auto.
  right; destruct Hc as (d & a & b & Ho); exists d, a, b.
  destruct rest as [|s2 rest]; [exact Ho|].
  rewrite Throughput_sweep_cons; unfold pub_field; rewrite bind_get.
  destruct (stop (gPubTester w1)) eqn:Hs1; [exact Ho|].
  destruct (Throughput_class_loses_msg _ _ _ _ E Hi HN Hs1) as [Hm _].
  destruct (Throughput_class_crashes s2 (testNum + 1) w1 Hm) as (w2 & E2 & Ho2).
  unfold bind; rewrite E2; cbn [final]; rewrite Ho2; exact Ho.
Qed.

(** X15.  With one iteration or more, throughput mode never writes a second
    row, however the run ends: the report of a run of [Throughput] is
    empty, or the header alone, or the header and the row of the first size
    class.  After that class the message is gone, so the run either is
    stopped or fails when it prepares the next one. *)
Theorem throughput_writes_at_most_one_row :
  forall w,
    inflight w = [] ->
    1 <= sentMsgs (gPubTester w) ->
    let o := PubTester_Throughput w in
    exists l,
      out (final o) = (out w ++ l)%list /\
      (l = [] \/
       l = [HeaderLines; ColumnHeader throughput_columns] \/
       exists d a b,
         l = [HeaderLines; ColumnHeader throughput_columns;
              ThroughputRow 1 d a b]).
Proof.
  intros w Hi HN o; subst o; unfold PubTester_Throughput.
  assert (Hw : preserves
                 (fun w0 => inflight w0 = [] /\
                            sentMsgs (gPubTester w0) = sentMsgs (gPubTester w) /\
                            out w0 = out w)
                 (wait (connection_pred throughputPub))).
  { apply preserves_wait; intros; auto.
    rewrite out_handle, sentMsgs_handle; intuition auto using inflight_handle. }
  specialize (Hw w (conj Hi (conj eq_refl eq_refl))).
  destruct (wait (connection_pred throughputPub) w) as [[] w1|w1|w1|c w1]
    eqn:E; unfold bind at 1; rewrite E; cbn [final] in *;
    try (exists []; rewrite app_nil_r; split; [apply Hw | left; reflexivity]).
  destruct Hw as (Hi1 & HN1 & Ho1).
  unfold pub_field; rewrite bind_get.
  destruct (stop (gPubTester w1)).
  { exists []; rewrite app_nil_r; split; [exact Ho1 | left; reflexivity]. }
  unfold OutputHeader; rewrite bind_returned
    with (a := tt)
         (w' := emit (ColumnHeader throughput_columns) (emit HeaderLines w1))
    by reflexivity.
  unfold PubTester_msgSizes.
  match goal with
  | |- context [Throughput_sweep (?s1 :: ?rest) 1 ?W] =>
      destruct (Throughput_sweep_one_row s1 rest 1 W Hi1
                  ltac:(cbn [sentMsgs gPubTester emit]; rewrite HN1; exact HN))
        as [Ho|(d & a & b & Ho)]
  end.
  - exists [HeaderLines; ColumnHeader throughput_columns]; split; [|auto].
    rewrite Ho; cbn [out emit]; rewrite Ho1, <- app_assoc; reflexivity.
  - exists [HeaderLines; ColumnHeader throughput_columns;
            ThroughputRow 1 d a b]; split; [|right; right; eauto].
    rewrite Ho; cbn [out emit]; rewrite Ho1, <- !app_assoc; reflexivity.
Qed.

End ThroughputRows.

(** ** The theorems at concrete inputs *)

Lemma returned_unit (o : Outcome unit) :
  returned o = true -> o = Ret tt (final o).
Proof. destruct o as [[] w| | |]; try discriminate; reflexivity. Qed.



(** A SIGINT and then a SIGHUP in the sleep of the second pass: two
    publications, and the process is gone without cleaning up. *)
Lemma publisher_c_killed_by_uncaught_signal_witness :
  let L := PublisherC.wire_StringMsg in
  let P := PublisherC.linux_Platform in
  PublisherC.main (L := L) (P := P)
    (PublisherC.mkRun [] []
       [PublisherC.mkPass [] [] []; PublisherC.mkPass [] [] [SIGINT; 1; 28];
        PublisherC.mkPass [] [] []]
       [] [])
  = (PublisherC.mkState true false
       (PublisherC.NodeCreate
          :: PublisherC.passes_trace "/foo"
               (PublisherC.SerializeToArray (StringMsgLib := L) "HELLO")
               (PublisherC.GetTypeName (StringMsgLib := L)) 2),
     PublisherC.Killed).
Proof.
  exact (publisher_c_killed_by_uncaught_signal
           (L := PublisherC.wire_StringMsg) (P := PublisherC.linux_Platform)
           [] [] [PublisherC.mkPass [] [] []] [SIGINT] 1 [28]
           [PublisherC.mkPass [] [] []] [] []
           eq_refl eq_refl eq_refl eq_refl eq_refl eq_refl).
Defined.

(** Without a subscriber the run ends at the SIGTERM, with an empty
    report. *)
Lemma no_peer_no_measurement_witness :
  let o := PubTester_Throughput no_peer_example in
  returned o = true /\ out (final o) = [] /\
  published PubNode (trace (final o)) = [].
Proof.
  intros o.
  destruct (no_peer_no_measurement true no_peer_example eq_refl eq_refl)
    as (H1 & H2 & _ & H4 & _).
  split; [exact H4|]. split; [exact H1 | exact H2].
Defined.




(** The run returns after the SIGINT, with the stop flag up. *)
Lemma throughput_mode_returns_only_when_stopped_witness :
  let o := main interrupted_throughput_flags interrupted_throughput_world in
  returned o = true /\ stop (gPubTester (final o)) = true.
Proof.
  intros o.
  assert (H : main interrupted_throughput_flags interrupted_throughput_world
              = Ret 0 (final o)) by (vm_compute; reflexivity).
  split; [vm_compute; reflexivity|].
  apply (throughput_mode_returns_only_when_stopped
           interrupted_throughput_flags interrupted_throughput_world 0
           (final o) eq_refl eq_refl);
    [vm_compute; discriminate | reflexivity | exact H].
Defined.


(** The whole sweep against an echoing peer: header and fifteen rows. *)
Lemma latency_report_complete_witness :
  let w' := final (PubTester_Latency latency_sweep_example) in
  exists rows,
    out w'
    = (HeaderLines
         :: ColumnHeader latency_columns
         :: rows) /\
    map row_key rows = expected_keys PubTester_msgSizes 1.
Proof.
  intros w'.
  assert (H : PubTester_Latency latency_sweep_example = Ret tt w')
    by (apply returned_unit; vm_compute; reflexivity).
  assert (Hs : stop (gPubTester w') = false) by (vm_compute; reflexivity).
  destruct (latency_report_complete latency_sweep_example w' H Hs)
    as (rows & Ho & Hk).
  exists rows; split; [exact Ho | exact Hk].
Defined.

(** The peer goes away after the first size class: the run waits for good,
    and has published nothing but real messages. *)
Lemma latency_mode_keeps_its_message_witness :
  let o := main short_latency_flags short_latency_world in
  inflight short_latency_world = [] /\
  crashed o = false /\ publishes_no_null (final o).
Proof.
  intros o.
  destruct (latency_mode_keeps_its_message short_latency_flags
              short_latency_world eq_refl eq_refl (Forall_nil _))
    as (H1 & H2 & _).
  split; [reflexivity|]. split; [exact H1 | exact H2].
Defined.


(** An uninterrupted run with one iteration: the header and one row. *)
Lemma throughput_writes_at_most_one_row_witness :
  let o := PubTester_Throughput throughput_run_example in
  crashed o = true /\
  exists l,
    out (final o) = l /\
    (l = [] \/
     l = [HeaderLines; ColumnHeader throughput_columns] \/
     exists d a b,
       l = [HeaderLines; ColumnHeader throughput_columns;
            ThroughputRow 1 d a b]).
Proof.
  intros o.
  assert (HN : 1 <= sentMsgs (gPubTester throughput_run_example))
    by (vm_compute; discriminate).
  destruct (throughput_writes_at_most_one_row throughput_run_example
              eq_refl HN) as (l & Ho & Hl).
  split; [vm_compute; reflexivity|].
  exists l; split; [exact Ho | exact Hl].
Defined.
